(** * Alt-Audit: the scan engine's contracts and the React client

    A shallow embedding of the TypeScript client under [frontend/src]
    (types, [ImageList], [UrlInput], [ScanHistory], [ScanResults], the
    [ApiClient], the authentication provider, the route guards, the
    keyboard shortcuts, the charts and the analytics hook) and of the scan
    engine the client talks to, followed by the properties the
    specification states about them and by further properties of the
    client.

    Conventions of the embedding:
    - a JavaScript [number] that carries a count, an id or a length is a [Z];
      an optional field [f?: T] is an [option T], [None] standing for
      [undefined] (and for [null] where the source type is [T | null]);
    - a JavaScript string is the [string] of its UTF-8 bytes; its [length],
      which counts UTF-16 code units, is [JS.length]; the Unicode case
      mapping [toLowerCase] of the runtime is a parameter of the functions
      that call it;
    - truthiness is written out: [undefined], [null], [0] and the empty
      string are falsy;
    - a percentage with one decimal is a rational ([Q]). *)

From Stdlib Require Import ZArith List String Ascii Bool Lia.
From Stdlib Require Import QArith Qround Lqa DecimalString.
From stdpp Require Import gmap.
Import ListNotations.

Local Open Scope string_scope.
Local Open Scope Z_scope.

(* ===================================================================== *)
(** * Part I: definitions                                                  *)
(* ===================================================================== *)

(** ** JavaScript primitives used by the client *)

Module JS.

(** [!!s] for a string. *)
Definition truthy_string (s : string) : bool :=
  match s with EmptyString => false | String _ _ => true end.

(** [!!x] for [x : string | undefined | null]. *)
Definition truthy_opt_string (x : option string) : bool :=
  match x with Some s => truthy_string s | None => false end.

(** [!!x] for [x : number | undefined] (integers: no NaN). *)
Definition truthy_opt_number (x : option Z) : bool :=
  match x with Some n => negb (n =? 0) | None => false end.

(** [x < k] and [x > k] for [x : number | undefined]: a comparison with
    [undefined] is [false]. *)
Definition lt_opt (x : option Z) (k : Z) : bool :=
  match x with Some n => n <? k | None => false end.

Definition gt_opt (x : option Z) (k : Z) : bool :=
  match x with Some n => n >? k | None => false end.

(** [String.prototype.startsWith]. *)
Definition startsWith (s p : string) : bool := String.prefix p s.

(** [String.prototype.includes]: [t] occurs in [s] at some offset. *)
Fixpoint includes (s t : string) : bool :=
  String.prefix t s ||
  match s with
  | EmptyString => false
  | String _ s' => includes s' t
  end.

Definition lower_ascii (c : ascii) : ascii :=
  let n := nat_of_ascii c in
  if ((65 <=? n) && (n <=? 90))%nat then ascii_of_nat (n + 32) else c.

Fixpoint map_string (f : ascii -> ascii) (s : string) : string :=
  match s with
  | EmptyString => EmptyString
  | String c s' => String (f c) (map_string f s')
  end.

(** Lower-casing of the ASCII letters of a string: what [toLowerCase]
    does to ASCII text, and the case folding of a URL scheme. *)
Definition ascii_toLowerCase : string -> string := map_string lower_ascii.

(** The UTF-16 code units a byte of well-formed UTF-8 text stands for:
    one for an ASCII byte, none for a continuation byte, one for the lead
    byte of a two- or three-byte character and two (a surrogate pair) for
    the lead byte of a four-byte character. *)
Definition code_units (c : ascii) : nat :=
  let n := nat_of_ascii c in
  if (n <? 128)%nat then 1%nat
  else if (n <? 192)%nat then 0%nat
  else if (n <? 240)%nat then 1%nat
  else 2%nat.

(** [String.prototype.length]: the number of UTF-16 code units. *)
Fixpoint length (s : string) : nat :=
  match s with
  | EmptyString => 0%nat
  | String c s' => (code_units c + length s')%nat
  end.

(** [Number.prototype.toString] on an integer: its decimal numeral. *)
Definition Number_toString (n : Z) : string :=
  NilZero.string_of_int (Z.to_int n).

(** [Boolean.prototype.toString]. *)
Definition Boolean_toString (b : bool) : string :=
  if b then "true" else "false".

(** The character classes of the regular expressions in the sources. *)
Definition is_digit (c : ascii) : bool :=
  let n := nat_of_ascii c in ((48 <=? n) && (n <=? 57))%nat.

Definition is_upper (c : ascii) : bool :=
  let n := nat_of_ascii c in ((65 <=? n) && (n <=? 90))%nat.

Definition is_lower (c : ascii) : bool :=
  let n := nat_of_ascii c in ((97 <=? n) && (n <=? 122))%nat.

(** [[a-zA-Z0-9]]. *)
Definition is_alnum (c : ascii) : bool :=
  is_lower c || is_upper c || is_digit c.

(** Every character of [s] satisfies [p]; some character does. *)
Fixpoint all_chars (p : ascii -> bool) (s : string) : bool :=
  match s with
  | EmptyString => true
  | String c s' => p c && all_chars p s'
  end.

Fixpoint some_char (p : ascii -> bool) (s : string) : bool :=
  match s with
  | EmptyString => false
  | String c s' => p c || some_char p s'
  end.

(** [s.replace(c, d)] for one-character strings [c] and [d]: the first
    occurrence only. *)
Fixpoint replace_first (c d : ascii) (s : string) : string :=
  match s with
  | EmptyString => EmptyString
  | String a s' =>
      if Ascii.eqb a c then String d s' else String a (replace_first c d s')
  end.

(** [s.split(sep)] for a one-character separator: never empty. *)
Fixpoint split (sep : ascii) (s : string) : list string :=
  match s with
  | EmptyString => [EmptyString]
  | String a s' =>
      if Ascii.eqb a sep then EmptyString :: split sep s'
      else match split sep s' with
           | piece :: rest => String a piece :: rest
           | [] => [String a EmptyString]
           end
  end.

(** The characters of a decimal numeral. *)
Definition numeral_char (c : ascii) : bool :=
  is_digit c || Ascii.eqb c "-".

(** A value of type [string | undefined] inside a template literal. *)
Definition template (x : option string) : string :=
  match x with Some s => s | None => "undefined" end.

End JS.

(** ** [frontend/src/types/index.ts] *)

Inductive ScanStatus : Set := pending | running | completed | failed.

Definition ScanStatus_eqb (a b : ScanStatus) : bool :=
  match a, b with
  | pending, pending | running, running
  | completed, completed | failed, failed => true
  | _, _ => false
  end.

(** The string literal a status is at run time. *)
Definition ScanStatus_literal (s : ScanStatus) : string :=
  match s with
  | pending => "pending"
  | running => "running"
  | completed => "completed"
  | failed => "failed"
  end.

Module ImageDetail.
Record t : Type := mk {
  id : Z;
  scan_result_id : Z;
  image_url : string;
  alt_text : option string;
  has_alt_text : bool;
  alt_text_length : option Z;
  image_width : option Z;
  image_height : option Z;
  is_decorative : bool;
  created_at : string
}.
End ImageDetail.

Module ScanResult.
Record t : Type := mk {
  id : Z;
  url : string;
  total_images : Z;
  images_with_alt : Z;
  images_missing_alt : Z;
  scan_status : ScanStatus;
  error_message : option string;
  scan_duration_ms : option Z;
  alt_text_coverage_percentage : Q;
  missing_alt_percentage : Q;
  created_at : string;
  updated_at : string;
  user_id : Z
}.
End ScanResult.

Module ScanResultSummary.
Record t : Type := mk {
  id : Z;
  url : string;
  total_images : Z;
  images_with_alt : Z;
  images_missing_alt : Z;
  scan_status : ScanStatus;
  alt_text_coverage_percentage : Q;
  created_at : string
}.
End ScanResultSummary.

Module Token.
Record t : Type := mk {
  access_token : string;
  token_type : string;
  expires_in : Z
}.
End Token.

Module PaginationParams.
Record t : Type := mk { skip : Z; limit : Z }.
End PaginationParams.

Module ScanFilters.
Record t : Type := mk {
  status : option ScanStatus;
  start_date : option string;
  end_date : option string;
  search : option string
}.
(** The object literal [{}]. *)
Definition empty : t := mk None None None None.
(** [{...f, search: s}]. *)
Definition with_search (s : option string) (f : t) : t :=
  mk (status f) (start_date f) (end_date f) s.
End ScanFilters.

Module ImageFilters.
Record t : Type := mk {
  has_alt_only : option bool;
  is_decorative : option bool;
  min_width : option Z;
  max_width : option Z;
  min_height : option Z;
  max_height : option Z
}.
(** The object literal [{}]. *)
Definition empty : t := mk None None None None None None.

(** [Partial<ImageFilters>]: a key is absent ([None]) or present with a
    value that may itself be [undefined]. *)
Record partial : Type := mkPartial {
  p_has_alt_only : option (option bool);
  p_is_decorative : option (option bool);
  p_min_width : option (option Z);
  p_max_width : option (option Z);
  p_min_height : option (option Z);
  p_max_height : option (option Z)
}.

Definition override {A : Type} (prev : A) (new : option A) : A :=
  match new with Some v => v | None => prev end.

(** The spread [{ ...prev, ...newFilters }]. *)
Definition spread (prev : t) (newFilters : partial) : t :=
  {| has_alt_only := override (has_alt_only prev) (p_has_alt_only newFilters);
     is_decorative := override (is_decorative prev) (p_is_decorative newFilters);
     min_width := override (min_width prev) (p_min_width newFilters);
     max_width := override (max_width prev) (p_max_width newFilters);
     min_height := override (min_height prev) (p_min_height newFilters);
     max_height := override (max_height prev) (p_max_height newFilters) |}.
End ImageFilters.

Module User.
Record t : Type := mk {
  id : Z;
  email : string;
  username : string;
  is_active : bool;
  is_verified : bool;
  created_at : string;
  updated_at : string
}.
End User.

(** ** [frontend/src/components/scanner/ImageList.tsx] *)

Module ImageList.

(** [getAltTextQuality], lines 72-78. *)
Definition getAltTextQuality (image : ImageDetail.t) : string :=
  if negb (ImageDetail.has_alt_text image) then "missing"
  else if ImageDetail.is_decorative image then "decorative"
  else if negb (JS.truthy_opt_number (ImageDetail.alt_text_length image))
          || JS.lt_opt (ImageDetail.alt_text_length image) 5 then "poor"
  else if JS.gt_opt (ImageDetail.alt_text_length image) 125 then "too-long"
  else "good".

(** [getQualityColor], lines 80-95. *)
Definition getQualityColor (quality : string) : string :=
  if String.eqb quality "missing" then "text-error-600 bg-error-100"
  else if String.eqb quality "decorative"
  then "text-secondary-600 bg-secondary-100"
  else if String.eqb quality "poor" then "text-warning-600 bg-warning-100"
  else if String.eqb quality "too-long" then "text-warning-600 bg-warning-100"
  else if String.eqb quality "good" then "text-success-600 bg-success-100"
  else "text-secondary-600 bg-secondary-100".

(** The badge text of line 234, [quality.replace('-', ' ')]. *)
Definition badge_text (quality : string) : string :=
  JS.replace_first "-" " " quality.

(** The component's state (lines 22-28). *)
Record t : Type := mk {
  images : list ImageDetail.t;
  isLoading : bool;
  filters : ImageFilters.t;
  showFilters : bool;
  searchTerm : string;
  currentPage : Z;
  hasMore : bool
}.

Definition pageSize : Z := 20.

(** The arguments [fetchImages] passes to [apiClient.getScanImages]
    (lines 39-42). *)
Definition fetchImages_args (scanId : Z) (st : t)
  : Z * PaginationParams.t * ImageFilters.t :=
  (scanId, PaginationParams.mk (currentPage st * pageSize) pageSize, filters st).

(** [fetchImages] once the request resolved with [imageData]
    (lines 44-55). *)
Definition fetchImages_resolved (imageData : list ImageDetail.t) (st : t) : t :=
  {| images := if currentPage st =? 0 then imageData
               else (images st ++ imageData)%list;
     isLoading := false;
     filters := filters st;
     showFilters := showFilters st;
     searchTerm := searchTerm st;
     currentPage := currentPage st;
     hasMore := Z.of_nat (List.length imageData) =? pageSize |}.

(** Lines 58-61. *)
Definition handleFilterChange (newFilters : ImageFilters.partial) (st : t) : t :=
  {| images := images st;
     isLoading := isLoading st;
     filters := ImageFilters.spread (filters st) newFilters;
     showFilters := showFilters st;
     searchTerm := searchTerm st;
     currentPage := 0;
     hasMore := hasMore st |}.

(** Lines 63-66. *)
Definition handleSearch (term : string) (st : t) : t :=
  {| images := images st;
     isLoading := isLoading st;
     filters := filters st;
     showFilters := showFilters st;
     searchTerm := term;
     currentPage := 0;
     hasMore := hasMore st |}.

Section Search.

(** [String.prototype.toLowerCase]: the Unicode lower-case mapping of the
    runtime, a function of the string alone. *)
Variable toLowerCase : string -> string.

(** The predicate of lines 113-122: [a || (b && c)], coerced by
    [filter]. *)
Definition matches (term : string) (image : ImageDetail.t) : bool :=
  if JS.truthy_string term then
    let searchLower := toLowerCase term in
    JS.includes (toLowerCase (ImageDetail.image_url image)) searchLower
    || match ImageDetail.alt_text image with
       | Some alt =>
           JS.truthy_string alt
           && JS.includes (toLowerCase alt) searchLower
       | None => false
       end
  else true.

(** Lines 113-122. *)
Definition filteredImages (st : t) : list ImageDetail.t :=
  List.filter (matches (searchTerm st)) (images st).

(** The search term is found in an image: the term is empty, or its
    lower-cased form occurs in the lower-cased URL of the image, or in its
    lower-cased alt text when that is not empty. *)
Definition found (term : string) (image : ImageDetail.t) : Prop :=
  term = EmptyString \/
  (exists pre post,
      toLowerCase (ImageDetail.image_url image)
      = (pre ++ toLowerCase term ++ post)%string) \/
  (exists alt pre post,
      ImageDetail.alt_text image = Some alt /\ alt <> EmptyString /\
      toLowerCase alt = (pre ++ toLowerCase term ++ post)%string).

End Search.

(** The [value] of the alt-text select (line 166). *)
Definition select_value (f : ImageFilters.t) : string :=
  match ImageFilters.has_alt_only f with
  | Some true => "true"
  | Some false => "false"
  | None => ""
  end.

(** What its [onChange] passes to [handleFilterChange] (lines 167-172). *)
Definition select_change (value : string) : ImageFilters.partial :=
  {| ImageFilters.p_has_alt_only :=
       Some (if String.eqb value "" then None
             else Some (String.eqb value "true"));
     ImageFilters.p_is_decorative := None;
     ImageFilters.p_min_width := None;
     ImageFilters.p_max_width := None;
     ImageFilters.p_min_height := None;
     ImageFilters.p_max_height := None |}.

(** The five tiers [getAltTextQuality] can name. *)
Definition tiers : list string :=
  ["missing"; "decorative"; "poor"; "too-long"; "good"].

End ImageList.

(** ** [frontend/src/components/scanner/UrlInput.tsx] *)

Module UrlInput.

Section UrlSchema.

(** The check behind zod's [.url(...)]: a library predicate on the string
    alone. *)
Variable zod_url : string -> bool.

(** [.min(1, ...)]. *)
Definition min1 (url : string) : bool := (1 <=? String.length url)%nat.

(** The [.refine] predicate, line 15. *)
Definition refinement (url : string) : bool :=
  JS.startsWith url "http://" || JS.startsWith url "https://".

Definition msg_required : string := "URL is required".
Definition msg_invalid : string := "Please enter a valid URL".
Definition msg_scheme : string := "URL must start with http:// or https://".

(** The issues [urlSchema] raises on the [url] field, one per failed check,
    in the order the checks are chained (lines 10-17). *)
Definition urlSchema_issues (url : string) : list string :=
  ((if min1 url then [] else [msg_required]) ++
   (if zod_url url then [] else [msg_invalid]) ++
   (if refinement url then [] else [msg_scheme]))%list.

Inductive SafeParse : Type :=
| success (data : string)
| error (issues : list string).

(** [urlSchema.safeParse({url}))]: succeeds when no check raised an issue. *)
Definition urlSchema_safeParse (url : string) : SafeParse :=
  match urlSchema_issues url with
  | [] => success url
  | issues => error issues
  end.

End UrlSchema.

End UrlInput.

(** The scheme of a raw URL, as the specification of the validator uses
    the word: the text in front of the first [":"], read case-insensitively
    (RFC 3986, section 3.1). [None] when the text has no [":"]. *)
Module UrlScheme.

Fixpoint before_colon (s : string) : option string :=
  match s with
  | EmptyString => None
  | String c s' =>
      if Ascii.eqb c ":" then Some EmptyString
      else match before_colon s' with
           | Some p => Some (String c p)
           | None => None
           end
  end.

Definition scheme_of (url : string) : option string :=
  match before_colon url with
  | Some p => Some (JS.ascii_toLowerCase p)
  | None => None
  end.

Definition is_http_or_https (url : string) : Prop :=
  scheme_of url = Some "http" \/ scheme_of url = Some "https".

End UrlScheme.

(** ** [frontend/src/services/api.ts] *)

(** What awaiting an axios call yields: the response data, or a rejection
    that the response interceptor has already passed to [handleError]. *)
Inductive Reply (A : Type) : Type :=
| resolved (data : A)
| rejected_response (status : Z)   (* [error.response] is set *)
| rejected_request                 (* no response was received *)
| rejected_setup.                  (* the request was never sent *)

Arguments resolved {A} data.
Arguments rejected_response {A} status.
Arguments rejected_request {A}.
Arguments rejected_setup {A}.

Module URLSearchParams.

(** The list of name-value pairs, in insertion order. *)
Definition t : Type := list (string * string).

Definition append (name value : string) (params : t) : t :=
  (params ++ [(name, value)])%list.

Definition hex_digit (n : nat) : ascii :=
  if (n <? 10)%nat then ascii_of_nat (48 + n) else ascii_of_nat (55 + n).

(** The application/x-www-form-urlencoded byte serializer. *)
Definition encode_byte (c : ascii) : string :=
  let n := nat_of_ascii c in
  if (n =? 32)%nat then "+"
  else if ((48 <=? n) && (n <=? 57) || (65 <=? n) && (n <=? 90)
           || (97 <=? n) && (n <=? 122)
           || (n =? 42) || (n =? 45) || (n =? 46) || (n =? 95))%nat
  then String c EmptyString
  else String "%" (String (hex_digit (n / 16))
                     (String (hex_digit (n mod 16)) EmptyString)).

Fixpoint encode (s : string) : string :=
  match s with
  | EmptyString => EmptyString
  | String c s' => (encode_byte c ++ encode s')%string
  end.

(** [params.toString()], which the template literal calls. *)
Fixpoint toString (params : t) : string :=
  match params with
  | [] => EmptyString
  | [(k, v)] => (encode k ++ "=" ++ encode v)%string
  | (k, v) :: rest => (encode k ++ "=" ++ encode v ++ "&" ++ toString rest)%string
  end.

End URLSearchParams.

Module ApiClient.

(** The client's mutable state: the private [token] field, the axios
    default header [client.defaults.headers.common['Authorization']], and
    the [access_token] entry of [localStorage]. *)
Record t : Type := mk {
  token : option string;
  Authorization : option string;
  access_token : option string
}.

(** Lines 109-113. *)
Definition setAuthToken (tok : string) (c : t) : t :=
  {| token := Some tok;
     Authorization := Some ("Bearer " ++ tok)%string;
     access_token := Some tok |}.

(** Lines 115-119. *)
Definition clearAuth (c : t) : t :=
  {| token := None; Authorization := None; access_token := None |}.

(** Lines 27-40 of the constructor: the header is absent on a fresh axios
    instance; [stored] is what [localStorage.getItem('access_token')]
    returns. *)
Definition constructor (stored : option string) : t :=
  let c := {| token := stored; Authorization := None; access_token := stored |} in
  match stored with
  | Some tok => if JS.truthy_string tok then setAuthToken tok c else c
  | None => c
  end.

(** Lines 249-251. *)
Definition isAuthenticated (c : t) : bool := JS.truthy_opt_string (token c).

(** Lines 253-255. *)
Definition getToken (c : t) : option string := token c.

(** The [Authorization] header an outgoing request carries: the request
    interceptor (lines 43-49) overrides the default when [token] is
    truthy. *)
Definition request_Authorization (c : t) : option string :=
  match token c with
  | Some tok =>
      if JS.truthy_string tok then Some ("Bearer " ++ tok)%string
      else Authorization c
  | None => Authorization c
  end.

(** Lines 65-107, without the toasts: only a 401 touches the state. *)
Definition handleError {A : Type} (r : Reply A) (c : t) : t :=
  match r with
  | rejected_response status => if status =? 401 then clearAuth c else c
  | _ => c
  end.

(** Lines 122-127; the second component is the resolved token, [None]
    when the promise rejects. *)
Definition login (r : Reply Token.t) (c : t) : t * option Token.t :=
  match r with
  | resolved tok => (setAuthToken (Token.access_token tok) c, Some tok)
  | _ => (handleError r c, None)
  end.

(** Lines 144-149. *)
Definition refreshToken (r : Reply Token.t) (c : t) : t * option Token.t :=
  match r with
  | resolved tok => (setAuthToken (Token.access_token tok) c, Some tok)
  | _ => (handleError r c, None)
  end.

(** Lines 151-153. *)
Definition logout (c : t) : t := clearAuth c.

(** Lines 201-204: the request [retryScan] sends. *)
Definition retryScan_request (scanId : Z) : string :=
  ("/scans/" ++ JS.Number_toString scanId ++ "/retry")%string.

(** Lines 165-171 of [getScans]: the search parameters it builds. *)
Definition getScans_params (pagination : PaginationParams.t)
    (filters : ScanFilters.t) : URLSearchParams.t :=
  let params : URLSearchParams.t := [] in
  let params := URLSearchParams.append "skip"
                  (JS.Number_toString (PaginationParams.skip pagination)) params in
  let params := URLSearchParams.append "limit"
                  (JS.Number_toString (PaginationParams.limit pagination)) params in
  let params := match ScanFilters.status filters with
                | Some st => URLSearchParams.append "status_filter"
                               (ScanStatus_literal st) params
                | None => params
                end in
  let params := match ScanFilters.start_date filters with
                | Some d => if JS.truthy_string d
                            then URLSearchParams.append "start_date" d params
                            else params
                | None => params
                end in
  let params := match ScanFilters.end_date filters with
                | Some d => if JS.truthy_string d
                            then URLSearchParams.append "end_date" d params
                            else params
                | None => params
                end in
  params.

Definition default_pagination : PaginationParams.t :=
  PaginationParams.mk 0 10.

(** Lines 161-173: the URL [getScans] requests; an omitted argument takes
    its default. *)
Definition getScans_request (pagination : option PaginationParams.t)
    (filters : option ScanFilters.t) : string :=
  let pagination := match pagination with Some p => p | None => default_pagination end in
  let filters := match filters with Some f => f | None => ScanFilters.empty end in
  ("/scans/?" ++ URLSearchParams.toString (getScans_params pagination filters))%string.

(** Lines 187-191 of [getScanImages]: the search parameters it builds. *)
Definition getScanImages_params (pagination : PaginationParams.t)
    (filters : ImageFilters.t) : URLSearchParams.t :=
  let params : URLSearchParams.t := [] in
  let params := URLSearchParams.append "skip"
                  (JS.Number_toString (PaginationParams.skip pagination)) params in
  let params := URLSearchParams.append "limit"
                  (JS.Number_toString (PaginationParams.limit pagination)) params in
  let params := match ImageFilters.has_alt_only filters with
                | Some b => URLSearchParams.append "has_alt_only"
                              (JS.Boolean_toString b) params
                | None => params
                end in
  params.

Definition default_image_pagination : PaginationParams.t :=
  PaginationParams.mk 0 50.

(** Lines 182-193: the URL [getScanImages] requests. *)
Definition getScanImages_request (scanId : Z)
    (pagination : option PaginationParams.t)
    (filters : option ImageFilters.t) : string :=
  let pagination := match pagination with
                    | Some p => p
                    | None => default_image_pagination
                    end in
  let filters := match filters with Some f => f | None => ImageFilters.empty end in
  ("/scans/" ++ JS.Number_toString scanId ++ "/images?"
   ++ URLSearchParams.toString (getScanImages_params pagination filters))%string.

(** Lines 197-199: the request [deleteScan] sends. *)
Definition deleteScan_request (scanId : Z) : string :=
  ("/scans/" ++ JS.Number_toString scanId)%string.

(** Lines 156-159: the body [createScan] posts to [/scans/]. *)
Definition createScan_body (url : string) : string := url.

(** The operations that act on the authentication state. *)
Inductive op : Type :=
| op_setAuthToken (tok : string)
| op_clearAuth
| op_login (r : Reply Token.t)
| op_refreshToken (r : Reply Token.t)
| op_logout
| op_failed_request (status : Z).   (* any other call rejected with a response *)

Definition apply_op (o : op) (c : t) : t :=
  match o with
  | op_setAuthToken tok => setAuthToken tok c
  | op_clearAuth => clearAuth c
  | op_login r => fst (login r c)
  | op_refreshToken r => fst (refreshToken r c)
  | op_logout => logout c
  | op_failed_request status => handleError (@rejected_response unit status) c
  end.

Definition run (ops : list op) (c : t) : t :=
  fold_left (fun c o => apply_op o c) ops c.

(** The token an operation installs, if any. *)
Definition installs (o : op) : option string :=
  match o with
  | op_setAuthToken tok => Some tok
  | op_login (resolved tok) | op_refreshToken (resolved tok) =>
      Some (Token.access_token tok)
  | _ => None
  end.

(** The three parts of the authentication state agree: a truthy token is
    the one in the default header and in [localStorage]; without a truthy
    token there is no default header. *)
Definition agree (c : t) : Prop :=
  match token c with
  | Some tok =>
      if JS.truthy_string tok
      then Authorization c = Some ("Bearer " ++ tok)%string /\
           access_token c = Some tok
      else Authorization c = None
  | None => Authorization c = None /\ access_token c = None
  end.

(** The text [&name=value] such an entry is in the query string, after
    the two entries of the pagination. *)
Definition query_text (name : string) (value : option string) : string :=
  match value with
  | Some v => if JS.truthy_string v
              then ("&" ++ name ++ "=" ++ URLSearchParams.encode v)%string
              else EmptyString
  | None => EmptyString
  end.

(** The entry [name=value] a filter contributes when it is truthy. *)
Definition when_truthy (name : string) (value : option string)
  : URLSearchParams.t :=
  match value with
  | Some v => if JS.truthy_string v then [(name, v)] else []
  | None => []
  end.

End ApiClient.

(** ** [ScanHistory] (the scan history component) *)

Module ScanHistory.

Record t : Type := mk {
  scans : list ScanResultSummary.t;
  isLoading : bool;
  currentPage : Z;
  hasMore : bool;
  filters : ScanFilters.t;
  showFilters : bool;
  searchTerm : string
}.

Definition pageSize : Z := 10.

(** The request [fetchScans] issues (lines 41-44). *)
Definition fetchScans_request (st : t) : string :=
  ApiClient.getScans_request
    (Some (PaginationParams.mk (currentPage st * pageSize) pageSize))
    (Some (filters st)).

(** [fetchScans] once the request resolved with [scanData] (lines 46-56). *)
Definition fetchScans_resolved (scanData : list ScanResultSummary.t) (st : t) : t :=
  {| scans := if currentPage st =? 0 then scanData
              else (scans st ++ scanData)%list;
     isLoading := false;
     currentPage := currentPage st;
     hasMore := Z.of_nat (List.length scanData) =? pageSize;
     filters := filters st;
     showFilters := showFilters st;
     searchTerm := searchTerm st |}.

(** Lines 79-82. *)
Definition handleSearch (term : string) (st : t) : t :=
  {| scans := scans st;
     isLoading := isLoading st;
     currentPage := 0;
     hasMore := hasMore st;
     filters := filters st;
     showFilters := showFilters st;
     searchTerm := term |}.

(** [Partial<ScanFilters>]: a key is absent ([None]) or present with a
    value that may itself be [undefined]. *)
Record partial : Type := mkPartial {
  p_status : option (option ScanStatus);
  p_start_date : option (option string);
  p_end_date : option (option string);
  p_search : option (option string)
}.

(** The spread [{ ...prev, ...newFilters }]. *)
Definition spread (prev : ScanFilters.t) (newFilters : partial) : ScanFilters.t :=
  {| ScanFilters.status :=
       ImageFilters.override (ScanFilters.status prev) (p_status newFilters);
     ScanFilters.start_date :=
       ImageFilters.override (ScanFilters.start_date prev)
         (p_start_date newFilters);
     ScanFilters.end_date :=
       ImageFilters.override (ScanFilters.end_date prev) (p_end_date newFilters);
     ScanFilters.search :=
       ImageFilters.override (ScanFilters.search prev) (p_search newFilters) |}.

(** Lines 74-77. *)
Definition handleFilterChange (newFilters : partial) (st : t) : t :=
  {| scans := scans st;
     isLoading := isLoading st;
     currentPage := 0;
     hasMore := hasMore st;
     filters := spread (filters st) newFilters;
     showFilters := showFilters st;
     searchTerm := searchTerm st |}.

(** What the status select passes to [handleFilterChange] (lines
    168-172): [e.target.value as ScanStatus || undefined], for the option
    values of lines 175-179. *)
Definition status_change (value : option ScanStatus) : partial :=
  {| p_status := Some value; p_start_date := None;
     p_end_date := None; p_search := None |}.

(** Lines 84-86. *)
Definition loadMore (st : t) : t :=
  {| scans := scans st;
     isLoading := isLoading st;
     currentPage := currentPage st + 1;
     hasMore := hasMore st;
     filters := filters st;
     showFilters := showFilters st;
     searchTerm := searchTerm st |}.

(** [fetchScans] once the request rejected (lines 53-57). *)
Definition fetchScans_rejected (st : t) : t :=
  {| scans := scans st;
     isLoading := false;
     currentPage := currentPage st;
     hasMore := hasMore st;
     filters := filters st;
     showFilters := showFilters st;
     searchTerm := searchTerm st |}.

(** [handleDelete], lines 60-72: nothing happens unless the user confirms;
    the request is [DELETE /scans/{id}]; the scan leaves the list when the
    request resolves. The second component is the request sent, if any. *)
Definition handleDelete (confirmed : bool) (r : Reply unit) (scanId : Z)
    (st : t) : t * option string :=
  if negb confirmed then (st, None)
  else
    let request := Some (ApiClient.deleteScan_request scanId) in
    match r with
    | resolved _ =>
        ({| scans := List.filter
                       (fun scan => negb (ScanResultSummary.id scan =? scanId))
                       (scans st);
            isLoading := isLoading st;
            currentPage := currentPage st;
            hasMore := hasMore st;
            filters := filters st;
            showFilters := showFilters st;
            searchTerm := searchTerm st |}, request)
    | _ => (st, request)
    end.

(** Load the pages [pages] one after the other: the first on mount, each
    further one by Load More. *)
Definition load_pages (pages : list (list ScanResultSummary.t)) (st : t) : t :=
  match pages with
  | [] => st
  | first :: more =>
      fold_left (fun st page => fetchScans_resolved page (loadMore st))
                more (fetchScans_resolved first st)
  end.

Section Search.

(** [String.prototype.toLowerCase]: the Unicode lower-case mapping of the
    runtime, a function of the string alone. *)
Variable toLowerCase : string -> string.

(** The predicate of lines 118-124. *)
Definition matches (term : string) (scan : ScanResultSummary.t) : bool :=
  if JS.truthy_string term then
    let searchLower := toLowerCase term in
    JS.includes (toLowerCase (ScanResultSummary.url scan)) searchLower
  else true.

(** Lines 118-124. *)
Definition filteredScans (st : t) : list ScanResultSummary.t :=
  List.filter (matches (searchTerm st)) (scans st).

End Search.

(** A history with two loaded scans and the search term "EXAMPLE". *)
Definition example_scan : ScanResultSummary.t :=
  ScanResultSummary.mk 1 "https://Example.com/" 3 2 1 completed
    (667 # 10) "2024-01-01T00:00:00Z".

Definition example_history : t :=
  {| scans := [ example_scan;
                ScanResultSummary.mk 2 "https://other.org/" 0 0 0 failed
                  0 "2024-01-02T00:00:00Z" ];
     isLoading := false;
     currentPage := 0;
     hasMore := false;
     filters := ScanFilters.empty;
     showFilters := true;
     searchTerm := "EXAMPLE" |}.

End ScanHistory.

(** ** [frontend/src/components/scanner/ScanResults.tsx] *)

Module ScanResults.

Record t : Type := mk {
  scan : option ScanResult.t;
  isRetrying : bool
}.

(** Lines 286-295: the Retry button is rendered for a failed scan only. *)
Definition retry_offered (s : ScanResult.t) : bool :=
  ScanStatus_eqb (ScanResult.scan_status s) failed.

(** [handleRetry], lines 55-67, once [apiClient.retryScan] has settled:
    the component takes the server's record when the call resolves and
    keeps its own when the call rejects. *)
Definition handleRetry (r : Reply ScanResult.t) (st : t) : t :=
  match r with
  | resolved updatedScan => {| scan := Some updatedScan; isRetrying := false |}
  | _ => {| scan := scan st; isRetrying := false |}
  end.

(** What the regular expression of line 89 makes of one byte of the URL.
    The expression, [/[^a-zA-Z0-9]/g] without the [u] flag, replaces every
    UTF-16 code unit that is not an ASCII letter or digit by [_]: a byte
    that is such a letter or digit stays, and any other byte becomes as
    many [_] as it stands for code units. *)
Definition sanitize_byte (c : ascii) : string :=
  if JS.is_alnum c then String c EmptyString
  else match JS.code_units c with
       | O => EmptyString
       | S O => "_"
       | _ => "__"
       end.

(** [url.replace(/[^a-zA-Z0-9]/g, '_')], line 89. *)
Fixpoint sanitize (url : string) : string :=
  match url with
  | EmptyString => EmptyString
  | String c url' => (sanitize_byte c ++ sanitize url')%string
  end.

(** Lines 148 and 259-283: the Export button is rendered for a loaded,
    completed scan only. *)
Definition export_offered (s : ScanResult.t) : bool :=
  ScanStatus_eqb (ScanResult.scan_status s) completed.

(** The file name [handleExport] downloads to (line 89), for the scan
    [s] on screen. *)
Definition export_filename (scanId : Z) (s : ScanResult.t) : string :=
  ("scan_" ++ JS.Number_toString scanId ++ "_"
   ++ sanitize (ScanResult.url s) ++ ".csv")%string.

(** The characters a downloaded file name is made of here: letters,
    digits, [_], [.] and [-]. *)
Definition filename_char (c : ascii) : bool :=
  JS.is_alnum c || Ascii.eqb c "_" || Ascii.eqb c "." || Ascii.eqb c "-".

End ScanResults.

(** ** [UrlInput]: submitting the form *)

Module UrlInputForm.

Inductive ScanningStatus : Set := idle | scanning | completed | error.

(** The component's state (lines 28-29) and the text in the input. *)
Record t : Type := mk {
  isScanning : bool;
  scanStatus : ScanningStatus;
  url : string
}.

(** What a submit did besides changing the state: whether [onScanStart]
    was called, the URL posted to [createScan], and the id handed to
    [onScanComplete]. *)
Record effects : Type := mkEffects {
  started : bool;
  posted : option string;
  reported : option Z
}.

(** [onSubmit], lines 40-64, once [apiClient.createScan] has settled. *)
Definition onSubmit (data : string) (r : Reply ScanResult.t) (st : t)
  : t * effects :=
  match r with
  | resolved scan =>
      ({| isScanning := false; scanStatus := completed; url := "" |},
       {| started := true; posted := Some (ApiClient.createScan_body data);
          reported := Some (ScanResult.id scan) |})
  | _ =>
      ({| isScanning := false; scanStatus := error; url := url st |},
       {| started := true; posted := Some (ApiClient.createScan_body data);
          reported := None |})
  end.

(** [handleSubmit(onSubmit)] with the zod resolver (lines 31-38, 103):
    [onSubmit] runs only when [urlSchema] accepts the input. *)
Definition handleSubmit (zod_url : string -> bool)
    (r : Reply ScanResult.t) (st : t) : t * effects :=
  match UrlInput.urlSchema_safeParse zod_url (url st) with
  | UrlInput.success data => onSubmit data r st
  | UrlInput.error _ =>
      (st, {| started := false; posted := None; reported := None |})
  end.

End UrlInputForm.

(** ** [LoginForm.tsx] and [RegisterForm.tsx]: the form schemas *)

Module LoginForm.
Record t : Type := mk { email : string; password : string }.
End LoginForm.

Module RegisterForm.
Record t : Type := mk {
  email : string;
  username : string;
  password : string;
  confirmPassword : string
}.
End RegisterForm.

Module AuthForms.

(** [.min(n)] and [.max(n)] on a string: both bounds are inclusive, and
    they bound the string's [length]. *)
Definition min (n : nat) (s : string) : bool := (n <=? JS.length s)%nat.
Definition max (n : nat) (s : string) : bool := (JS.length s <=? n)%nat.

(** [/^[a-zA-Z0-9]+$/], [/[A-Z]/], [/[a-z]/], [/[0-9]/]. *)
Definition regex_alnum (s : string) : bool :=
  JS.truthy_string s && JS.all_chars JS.is_alnum s.
Definition regex_upper (s : string) : bool := JS.some_char JS.is_upper s.
Definition regex_lower (s : string) : bool := JS.some_char JS.is_lower s.
Definition regex_digit (s : string) : bool := JS.some_char JS.is_digit s.

Section Schemas.

(** The check behind zod's [.email(...)]: a library predicate on the
    string alone. *)
Variable zod_email : string -> bool.

(** The [email] field of both schemas. *)
Definition email_ok (email : string) : bool := min 1 email && zod_email email.

(** [loginSchema], [LoginForm.tsx] lines 9-18: accepted when no check
    fails. *)
Definition loginSchema_accepts (data : LoginForm.t) : bool :=
  email_ok (LoginForm.email data)
  && (min 1 (LoginForm.password data) && min 8 (LoginForm.password data)).

(** The [username] field, [RegisterForm.tsx] lines 13-18. *)
Definition username_ok (username : string) : bool :=
  min 1 username && min 3 username && max 100 username
  && regex_alnum username.

(** The [password] field, lines 19-25. *)
Definition password_ok (password : string) : bool :=
  min 1 password && min 8 password
  && regex_upper password && regex_lower password && regex_digit password.

(** [registerSchema], lines 8-32, with the refinement on the two
    passwords. *)
Definition registerSchema_accepts (data : RegisterForm.t) : bool :=
  email_ok (RegisterForm.email data)
  && username_ok (RegisterForm.username data)
  && password_ok (RegisterForm.password data)
  && min 1 (RegisterForm.confirmPassword data)
  && String.eqb (RegisterForm.password data) (RegisterForm.confirmPassword data).

End Schemas.

End AuthForms.

(** ** [frontend/src/contexts/AuthContext.tsx] *)

Module AuthContext.

(** The provider's state (lines 12-14). *)
Record t : Type := mk {
  user : option User.t;
  token : option string;
  isLoading : bool
}.

(** The provider together with the API client singleton it calls, whose
    state includes [localStorage]. *)
Record world : Type := mkWorld {
  api : ApiClient.t;
  ctx : t
}.

(** The state on mount. *)
Definition mount (stored : option string) : world :=
  {| api := ApiClient.constructor stored;
     ctx := {| user := None; token := None; isLoading := true |} |}.

(** Line 108: [!!user && !!token]. *)
Definition isAuthenticated (c : t) : bool :=
  match user c with Some _ => true | None => false end
  && JS.truthy_opt_string (token c).

(** [localStorage.removeItem('access_token')], called by the provider
    itself (lines 28, 82). *)
Definition localStorage_removeItem (a : ApiClient.t) : ApiClient.t :=
  {| ApiClient.token := ApiClient.token a;
     ApiClient.Authorization := ApiClient.Authorization a;
     ApiClient.access_token := None |}.

(** [initializeAuth], lines 18-33; [me] is what [getCurrentUser] settles
    with, if it is called. *)
Definition initializeAuth (me : Reply User.t) (w : world) : world :=
  let storedToken := ApiClient.access_token (api w) in
  if JS.truthy_opt_string storedToken then
    match me with
    | resolved userData =>
        {| api := api w;
           ctx := {| user := Some userData; token := storedToken;
                     isLoading := false |} |}
    | _ =>
        {| api := localStorage_removeItem (ApiClient.handleError me (api w));
           ctx := {| user := user (ctx w); token := None;
                     isLoading := false |} |}
    end
  else
    {| api := api w;
       ctx := {| user := user (ctx w); token := token (ctx w);
                 isLoading := false |} |}.

(** [login], lines 38-57; the boolean tells whether it threw. *)
Definition login (r : Reply Token.t) (me : Reply User.t) (w : world)
  : world * bool :=
  match ApiClient.login r (api w) with
  | (api1, Some tokenData) =>
      match me with
      | resolved userData =>
          ({| api := api1;
              ctx := {| user := Some userData;
                        token := Some (Token.access_token tokenData);
                        isLoading := false |} |}, false)
      | _ =>
          ({| api := ApiClient.handleError me api1;
              ctx := {| user := user (ctx w);
                        token := Some (Token.access_token tokenData);
                        isLoading := false |} |}, true)
      end
  | (api1, None) =>
      ({| api := api1;
          ctx := {| user := user (ctx w); token := token (ctx w);
                    isLoading := false |} |}, true)
  end.

(** [register], lines 59-70. *)
Definition register (r : Reply User.t) (w : world) : world * bool :=
  ({| api := ApiClient.handleError r (api w);
      ctx := {| user := user (ctx w); token := token (ctx w);
                isLoading := false |} |},
   match r with resolved _ => false | _ => true end).

(** [logout], lines 72-84; [apiClient.logout] does not reject. *)
Definition logout (w : world) : world :=
  {| api := ApiClient.logout (api w);
     ctx := {| user := None; token := None; isLoading := isLoading (ctx w) |} |}.

(** [updateUser], lines 86-98. *)
Definition updateUser (r : Reply User.t) (w : world) : world * bool :=
  match r with
  | resolved updatedUser =>
      ({| api := api w;
          ctx := {| user := Some updatedUser; token := token (ctx w);
                    isLoading := false |} |}, false)
  | _ =>
      ({| api := ApiClient.handleError r (api w);
          ctx := {| user := user (ctx w); token := token (ctx w);
                    isLoading := false |} |}, true)
  end.

End AuthContext.

(** ** [App.tsx]: the route guards *)

Module App.

Inductive Page : Set := AuthPage | Dashboard | AnalyticsDashboard.

(** The [<Route>] of [AppRoutes] a location matches. *)
Inductive Path : Set :=
| path_auth          (* "/auth" *)
| path_dashboard     (* "/dashboard" *)
| path_analytics     (* "/analytics" *)
| path_root          (* "/" *)
| path_other.        (* "*" *)

Inductive Element : Set :=
| LoadingSpinner
| Navigate (to : Path)
| Render (page : Page).

(** [ProtectedRoute], lines 10-22. *)
Definition ProtectedRoute (auth : AuthContext.t) (children : Element) : Element :=
  if AuthContext.isLoading auth then LoadingSpinner
  else if negb (AuthContext.isAuthenticated auth) then Navigate path_auth
  else children.

(** [PublicRoute], lines 25-37. *)
Definition PublicRoute (auth : AuthContext.t) (children : Element) : Element :=
  if AuthContext.isLoading auth then LoadingSpinner
  else if AuthContext.isAuthenticated auth then Navigate path_dashboard
  else children.

(** [AppRoutes], lines 40-77. *)
Definition AppRoutes (auth : AuthContext.t) (path : Path) : Element :=
  match path with
  | path_auth => PublicRoute auth (Render AuthPage)
  | path_dashboard => ProtectedRoute auth (Render Dashboard)
  | path_analytics => ProtectedRoute auth (Render AnalyticsDashboard)
  | path_root | path_other => Navigate path_dashboard
  end.

(** What is on screen at [path] once at most [fuel] redirects have been
    followed, and how many were followed. *)
Fixpoint settle (fuel : nat) (auth : AuthContext.t) (path : Path)
  : Element * nat :=
  match AppRoutes auth path with
  | Navigate to =>
      match fuel with
      | O => (Navigate to, O)
      | S fuel' => let (e, n) := settle fuel' auth to in (e, S n)
      end
  | e => (e, O)
  end.

End App.

(** ** [frontend/src/components/common/Shortcuts.tsx] *)

Module Shortcuts.

Inductive Category : Set := navigation | actions | modals.

(** What a shortcut's [action] does. *)
Inductive Action : Set :=
| navigate_dashboard
| navigate_analytics
| show_shortcuts
| focus_url_input
| click_refresh
| click_close.

Record Shortcut : Type := mkShortcut {
  key : string;
  description : string;
  action : Action;
  category : Category
}.

(** The table of lines 17-79. *)
Definition shortcuts : list Shortcut :=
  [ mkShortcut "g d" "Go to Dashboard" navigate_dashboard navigation;
    mkShortcut "g a" "Go to Analytics" navigate_analytics navigation;
    mkShortcut "g h" "Go to Help" show_shortcuts navigation;
    mkShortcut "n" "New Scan" focus_url_input actions;
    mkShortcut "r" "Refresh Data" click_refresh actions;
    mkShortcut "?" "Show Help" show_shortcuts modals;
    mkShortcut "Escape" "Close Modal" click_close modals ].

(** [shortcuts.find(s => s.key === k)]. *)
Definition find_shortcut (k : string) : option Shortcut :=
  List.find (fun s => String.eqb (key s) k) shortcuts.

(** The keys that extend the pending sequence (line 104). *)
Definition is_sequence_key (k : string) : bool :=
  String.eqb k "g" || String.eqb k "n" || String.eqb k "r"
  || String.eqb k "e" || String.eqb k "s".

(** The characters of those keys. *)
Definition sequence_char (c : ascii) : bool :=
  Ascii.eqb c "g" || Ascii.eqb c "n" || Ascii.eqb c "r"
  || Ascii.eqb c "e" || Ascii.eqb c "s".

(** [handleKeyDown], lines 86-122, on the pending [keySequence]: the new
    sequence and the shortcut whose action ran, if any. [in_field] tells
    whether the event's target is an input, a textarea or a select. *)
Definition handleKeyDown (k : string) (in_field : bool) (keySequence : string)
  : string * option Shortcut :=
  if in_field then (keySequence, None)
  else if String.eqb k "?" || String.eqb k "Escape"
  then (keySequence, find_shortcut k)
  else if is_sequence_key k then
    let keySequence := (keySequence ++ k)%string in
    match find_shortcut keySequence with
    | Some shortcut => (EmptyString, Some shortcut)
    | None => (keySequence, None)
    end
  else (keySequence, None).

(** What can happen to the listener: a key goes down, the one-second
    timer of lines 108-111 fires, or the effect is set up again with a
    fresh empty sequence (lines 83-84, 126-130). *)
Inductive Event : Type :=
| keydown (k : string) (in_field : bool)
| sequence_timeout
| effect_restart.

(** The pending sequence and the shortcuts run so far, oldest first. *)
Definition handle (e : Event) (st : string * list Shortcut)
  : string * list Shortcut :=
  match e with
  | keydown k in_field =>
      match handleKeyDown k in_field (fst st) with
      | (seq, Some s) => (seq, (snd st ++ [s])%list)
      | (seq, None) => (seq, snd st)
      end
  | sequence_timeout | effect_restart => (EmptyString, snd st)
  end.

Definition run (events : list Event) : string * list Shortcut :=
  fold_left (fun st e => handle e st) events (EmptyString, []).

End Shortcuts.

(** ** [frontend/src/components/scanner/ScanChartModal.tsx] *)

Module ScanChartModal.

(** [x >= k] on a percentage. *)
Definition ge (x : Q) (k : Z) : bool := Qle_bool (inject_Z k) x.

(** The colour of the score (lines 234-237). *)
Definition score_text_class (scan : ScanResultSummary.t) : string :=
  if ge (ScanResultSummary.alt_text_coverage_percentage scan) 80
  then "text-success-600"
  else if ge (ScanResultSummary.alt_text_coverage_percentage scan) 60
  then "text-warning-600" else "text-error-600".

(** The colour of the bar (lines 243-246). *)
Definition score_bar_class (scan : ScanResultSummary.t) : string :=
  if ge (ScanResultSummary.alt_text_coverage_percentage scan) 80
  then "bg-success-500"
  else if ge (ScanResultSummary.alt_text_coverage_percentage scan) 60
  then "bg-warning-500" else "bg-error-500".

(** The verdict under the bar (lines 251-252). *)
Definition score_verdict (scan : ScanResultSummary.t) : string :=
  if ge (ScanResultSummary.alt_text_coverage_percentage scan) 80
  then "Excellent accessibility"
  else if ge (ScanResultSummary.alt_text_coverage_percentage scan) 60
  then "Good accessibility" else "Needs improvement".

(** The rank of a verdict, worst first. *)
Definition verdict_rank (verdict : string) : nat :=
  if String.eqb verdict "Excellent accessibility" then 2
  else if String.eqb verdict "Good accessibility" then 1 else 0.

End ScanChartModal.

(** ** [frontend/src/components/analytics/Charts.tsx] *)

Module Charts.

(** The week branch of [formatXAxisLabel] (lines 34-35, 96-97, 268-269):
    [`Week ${period.split('-')[1]}`]. *)
Definition formatXAxisLabel_week (period : string) : string :=
  ("Week " ++ JS.template (List.nth_error (JS.split "-" period) 1))%string.

End Charts.

(** ** [frontend/src/hooks/useAnalytics.ts] *)

Module AnalyticsSummary.
Record t : Type := mk {
  total_scans : Z;
  total_images_scanned : Z;
  total_images_with_alt : Z;
  total_images_missing_alt : Z;
  average_coverage_percentage : Q;
  most_common_issues : list string
}.
End AnalyticsSummary.

Module CoverageTrend.
Record t : Type := mk {
  period : string;
  scans : Z;
  total_images : Z;
  images_with_alt : Z;
  images_missing_alt : Z;
  coverage_percentage : Q
}.
End CoverageTrend.

Module TopIssue.
Inductive Severity : Set := high | medium | low.
Record t : Type := mk {
  issue : string;
  count : Z;
  severity : Severity;
  description : string
}.
End TopIssue.

Module UseAnalytics.

(** The hook's state (lines 25-29). *)
Record t : Type := mk {
  summary : option AnalyticsSummary.t;
  trends : list CoverageTrend.t;
  topIssues : list TopIssue.t;
  isLoading : bool;
  error : option string
}.

(** One of the three requests of [fetchAll] has settled. *)
Inductive Settled : Type :=
| summary_settled (r : Reply AnalyticsSummary.t)
| trends_settled (r : Reply (list CoverageTrend.t))
| topIssues_settled (r : Reply (list TopIssue.t)).

Definition setError (e : option string) (st : t) : t :=
  {| summary := summary st; trends := trends st; topIssues := topIssues st;
     isLoading := isLoading st; error := e |}.

Definition setIsLoading (b : bool) (st : t) : t :=
  {| summary := summary st; trends := trends st; topIssues := topIssues st;
     isLoading := b; error := error st |}.

(** [fetchSummary], [fetchTrends] and [fetchTopIssues] (lines 31-59) once
    their request has settled: each catches its own rejection. *)
Definition settle (s : Settled) (st : t) : t :=
  match s with
  | summary_settled (resolved data) =>
      {| summary := Some data; trends := trends st; topIssues := topIssues st;
         isLoading := isLoading st; error := error st |}
  | summary_settled _ => setError (Some "Failed to load analytics summary") st
  | trends_settled (resolved data) =>
      {| summary := summary st; trends := data; topIssues := topIssues st;
         isLoading := isLoading st; error := error st |}
  | trends_settled _ => setError (Some "Failed to load coverage trends") st
  | topIssues_settled (resolved data) =>
      {| summary := summary st; trends := trends st; topIssues := data;
         isLoading := isLoading st; error := error st |}
  | topIssues_settled _ => setError (Some "Failed to load top issues") st
  end.

(** [fetchAll], lines 62-78: the requests settle in the order [settled];
    none of the three promises rejects, so the [catch] of line 72 is not
    entered. *)
Definition fetchAll (settled : list Settled) (st : t) : t :=
  setIsLoading false
    (fold_left (fun st s => settle s st) settled
       (setError None (setIsLoading true st))).

Definition is_resolved (s : Settled) : bool :=
  match s with
  | summary_settled (resolved _) | trends_settled (resolved _)
  | topIssues_settled (resolved _) => true
  | _ => false
  end.

Definition is_summary (s : Settled) : bool :=
  match s with summary_settled _ => true | _ => false end.

End UseAnalytics.

(** ** The scan engine behind the API

    The engine (validator, fetcher, extractor, classifier, aggregator and
    lifecycle controller) runs on the server; the client sources only name
    its records and endpoints. Its components are taken from the
    specification, sections 3 to 7. *)

Module Engine.

(** *** 4.3-4.4 Image references and the alt-text classifier *)

(** Modelled from the spec: the extractor's output (4.3), one record per
    [<img>] element: the resolved [src], the [alt] attribute ([None] when
    the element has none) and the declared dimensions. The extractor is
    not among the client sources. *)
Record RawImageRef : Type := mkRawImageRef {
  src : string;
  alt : option string;
  width : option Z;
  height : option Z
}.

(** Modelled from the spec: the classifier of 4.4, which is not among the
    client sources. [has_alt_text] is "alt attribute present",
    [is_decorative] is "present and equal to the empty string",
    [alt_text_length] is the length of a non-empty alt text and absent
    otherwise. The row's [scan_result_id] is set when the rows are stored;
    its own [id] is the persistence adapter's to assign. *)
Definition classify (r : RawImageRef) : ImageDetail.t :=
  {| ImageDetail.id := 0;
     ImageDetail.scan_result_id := 0;
     ImageDetail.image_url := src r;
     ImageDetail.alt_text := alt r;
     ImageDetail.has_alt_text :=
       match alt r with Some _ => true | None => false end;
     ImageDetail.alt_text_length :=
       match alt r with
       | Some text => if String.eqb text "" then None
                      else Some (Z.of_nat (String.length text))
       | None => None
       end;
     ImageDetail.image_width := width r;
     ImageDetail.image_height := height r;
     ImageDetail.is_decorative :=
       match alt r with Some text => String.eqb text "" | None => false end;
     ImageDetail.created_at := "" |}.

(** Modelled from the spec: the page of scenario A (8), as the extractor
    returns it: three [<img>] tags, one with [alt="A cat"], one with
    [alt=""], one without [alt]. *)
Definition scenario_A : list RawImageRef :=
  [ mkRawImageRef "https://example.com/cat.png" (Some "A cat") (Some 320) (Some 200);
    mkRawImageRef "https://example.com/spacer.gif" (Some "") None None;
    mkRawImageRef "https://example.com/banner.jpg" None None None ].

(** *** 4.5 Coverage aggregator *)

(** Modelled from the spec: rounding to one decimal place, half up (4.5):
    the largest multiple of 1/10 not above [x + 1/20]. *)
Definition round1_half_up (x : Q) : Q :=
  Qmake (Qfloor (x * 10 + (1 # 2))) 10.

(** Modelled from the spec: [images_with_alt / total_images * 100] rounded
    to one decimal, and exactly [0] when there are no images (3, 4.5). *)
Definition coverage_percentage (images_with_alt total_images : Z) : Q :=
  if total_images =? 0 then 0%Q
  else round1_half_up (inject_Z images_with_alt / inject_Z total_images * 100).

(** Modelled from the spec: the aggregator's result (4.5). *)
Record Aggregate : Type := mkAggregate {
  total_images : Z;
  images_with_alt : Z;
  images_missing_alt : Z;
  alt_text_coverage_percentage : Q
}.

(** The number of rows that satisfy [p]. *)
Definition count (p : ImageDetail.t -> bool) (l : list ImageDetail.t) : Z :=
  Z.of_nat (List.length (List.filter p l)).

(** Modelled from the spec: the aggregator of 4.5, not among the client
    sources. Every element of the sequence is counted once; an image is
    "with alt" when [has_alt_text] holds, decorative ones included. *)
Definition aggregate (details : list ImageDetail.t) : Aggregate :=
  let total := Z.of_nat (List.length details) in
  let with_alt := count ImageDetail.has_alt_text details in
  {| total_images := total;
     images_with_alt := with_alt;
     images_missing_alt :=
       count (fun d => negb (ImageDetail.has_alt_text d)) details;
     alt_text_coverage_percentage := coverage_percentage with_alt total |}.

(** *** 4.1 URL safety validator *)

(** Modelled from the spec: a resolved address (4.1). An IPv4 address is
    its 32-bit value, an IPv6 address its 128-bit value. *)
Inductive IPAddress : Type :=
| IPv4 (n : Z)
| IPv6 (n : Z).

(** The value of the dotted quad [a.b.c.d]. *)
Definition v4 (a b c d : Z) : Z :=
  Z.lor (Z.shiftl a 24) (Z.lor (Z.shiftl b 16) (Z.lor (Z.shiftl c 8) d)).

(** The IPv4 address [a.b.c.d]. *)
Definition ipv4 (a b c d : Z) : IPAddress := IPv4 (v4 a b c d).

(** [addr] lies in the network [base/prefix] of a [width]-bit family. *)
Definition in_network (width addr base prefix : Z) : bool :=
  Z.shiftr addr (width - prefix) =? Z.shiftr base (width - prefix).

(** Modelled from the spec: the address classes 4.1 names, with their
    IANA ranges. Loopback: 127.0.0.0/8 and ::1. *)
Definition is_loopback (a : IPAddress) : bool :=
  match a with
  | IPv4 n => in_network 32 n (v4 127 0 0 0) 8
  | IPv6 n => n =? 1
  end.

(** Modelled from the spec: link-local (4.1): 169.254.0.0/16 and
    fe80::/10. *)
Definition is_link_local (a : IPAddress) : bool :=
  match a with
  | IPv4 n => in_network 32 n (v4 169 254 0 0) 16
  | IPv6 n => in_network 128 n (Z.shiftl 0xfe80 112) 10
  end.

(** Modelled from the spec: private (4.1): RFC 1918 (10.0.0.0/8,
    172.16.0.0/12, 192.168.0.0/16) and RFC 4193 (fc00::/7). *)
Definition is_private (a : IPAddress) : bool :=
  match a with
  | IPv4 n => in_network 32 n (v4 10 0 0 0) 8
              || in_network 32 n (v4 172 16 0 0) 12
              || in_network 32 n (v4 192 168 0 0) 16
  | IPv6 n => in_network 128 n (Z.shiftl 0xfc00 112) 7
  end.

(** Modelled from the spec: multicast (4.1): 224.0.0.0/4 and ff00::/8. *)
Definition is_multicast (a : IPAddress) : bool :=
  match a with
  | IPv4 n => in_network 32 n (v4 224 0 0 0) 4
  | IPv6 n => in_network 128 n (Z.shiftl 0xff00 112) 8
  end.

(** Modelled from the spec: unspecified (4.1): 0.0.0.0 and ::. *)
Definition is_unspecified (a : IPAddress) : bool :=
  match a with IPv4 n | IPv6 n => n =? 0 end.

(** Modelled from the spec: reserved (4.1): 240.0.0.0/4 and 0.0.0.0/8;
    for IPv6 the blocks the IANA registry reserves, which are all of the
    address space outside global unicast (2000::/3), unique local
    (fc00::/7), link-local (fe80::/10) and multicast (ff00::/8). They
    include ::/8 and with it the IPv4-mapped addresses ::ffff:0:0/96. *)
Definition is_reserved (a : IPAddress) : bool :=
  match a with
  | IPv4 n => in_network 32 n (v4 240 0 0 0) 4 || in_network 32 n 0 8
  | IPv6 n => negb (in_network 128 n (Z.shiftl 0x2000 112) 3
                    || in_network 128 n (Z.shiftl 0xfc00 112) 7
                    || in_network 128 n (Z.shiftl 0xfe80 112) 10
                    || in_network 128 n (Z.shiftl 0xff00 112) 8)
  end.

(** Modelled from the spec: the addresses 4.1 refuses: loopback,
    link-local, private, multicast, reserved or unspecified. The validator
    is not among the client sources. *)
Definition is_non_public (a : IPAddress) : bool :=
  is_loopback a || is_link_local a || is_private a || is_multicast a
  || is_reserved a || is_unspecified a.

(** Modelled from the spec: a URL (3, 4.1), parsed into the parts the
    engine looks at. *)
Record URL : Type := mkURL {
  scheme : string;
  host : string;
  port : option Z;
  path : string
}.

(** The schemes 4.1 lets through. *)
Definition http_or_https (u : URL) : Prop :=
  scheme u = "http" \/ scheme u = "https".

(** Modelled from the spec: the kinds of FetchError (7). *)
Inductive FetchErrorKind : Type :=
| Timeout
| HTTPStatus (code : Z)
| Oversize
| UnsupportedContentType
| NetworkError.

(** Modelled from the spec: the error taxonomy of section 7. *)
Inductive EngineError : Type :=
| ValidationError (why : string)
| SSRFBlocked
| FetchError (kind : FetchErrorKind)
| ParseError.

(** Modelled from the spec: the result of [validate] (4.1). *)
Inductive Validation : Type :=
| SafeURL (u : URL)
| Refused (e : EngineError).

(** Modelled from the spec: [validate] of 4.1, with the errors of 7. The
    host is resolved ([dns] answers [None] when resolution fails or times
    out). A URL one of whose resolved addresses is non-public is refused
    as SSRFBlocked, whatever else is wrong with it: 4.1 gives its checks
    no order, and 8 requires SSRFBlocked of every URL that resolves to
    such an address. Otherwise a scheme other than http or https, or a
    host that does not resolve, is a ValidationError. *)
Definition validate (dns : string -> option (list IPAddress)) (u : URL)
  : Validation :=
  let scheme_ok :=
    String.eqb (scheme u) "http" || String.eqb (scheme u) "https" in
  match dns (host u) with
  | Some addrs =>
      if List.existsb is_non_public addrs then Refused SSRFBlocked
      else if negb scheme_ok
      then Refused (ValidationError "unsupported scheme")
      else match addrs with
           | [] => Refused (ValidationError "host does not resolve")
           | _ => SafeURL u
           end
  | None =>
      if negb scheme_ok
      then Refused (ValidationError "unsupported scheme")
      else Refused (ValidationError "host does not resolve")
  end.

(** *** 4.2 Fetcher, and the pipeline as a transition system *)

(** Modelled from the spec: what one HTTP request comes back with (4.2):
    a redirect, a final response with its status, content type and body,
    or no response. *)
Inductive HopResult : Type :=
| Redirect (location : URL)
| Response (code : Z) (is_html : bool) (body_bytes : Z) (html : string)
| TimedOut
| Unreachable.

(** Modelled from the spec: the redirect cap of 4.1 and the body size cap
    of 4.2, at the values the spec gives as examples. *)
Definition max_redirects : nat := 5.
Definition max_body_bytes : Z := 5 * 1024 * 1024.

(** Modelled from the spec: where a run stands in the data flow of
    section 2. *)
Inductive Stage : Type :=
| Validating
| Fetching (target : URL) (hops : nat)
| Parsing (html : string) (finalURL : URL)
| Stopped.

(** Modelled from the spec: one execution of the pipeline for one
    ScanResult (4.6): its status, the error it failed with, the stage it
    is at, every URL an outbound request was issued to, and the ImageDetail
    rows it produced. *)
Record Run : Type := mkRun {
  status : ScanStatus;
  error : option EngineError;
  stage : Stage;
  fetched : list URL;
  images : list ImageDetail.t
}.

(** Modelled from the spec: [RequestScan] (6): the run starts in
    [pending], nothing fetched. *)
Definition start : Run :=
  {| status := pending; error := None; stage := Validating;
     fetched := []; images := [] |}.

(** Modelled from the spec: the transition to [failed] (4.6): the error
    is recorded, no rows. *)
Definition fail_with (e : EngineError) (r : Run) : Run :=
  {| status := failed; error := Some e; stage := Stopped;
     fetched := fetched r; images := [] |}.

(** A stopped run is completed or failed; a run that has not stopped is
    pending or running. *)
Definition status_fits_stage (r : Run) : Prop :=
  match stage r with
  | Stopped => status r = completed \/ status r = failed
  | Validating => status r = pending
  | _ => status r = running
  end.

Section Pipeline.

(** The world the engine runs in: name resolution, the answer to the
    [n]-th request of a run, and the extractor of 4.3. *)
Variable dns : string -> option (list IPAddress).
Variable http : nat -> URL -> HopResult.
Variable extract : string -> URL -> list RawImageRef.

(** Modelled from the spec: one step of the pipeline of 2, 4.2 and 4.6
    for the requested URL [u]; [None] when the run has stopped. The
    validator runs first and short-circuits to [failed] (7); the status
    becomes [running] immediately before the fetcher is invoked; every
    redirect target goes back through the validator before it is
    followed, and a redirect beyond the cap is a ValidationError. *)
Definition step (u : URL) (r : Run) : option Run :=
  match stage r with
  | Validating =>
      match validate dns u with
      | SafeURL v =>
          Some {| status := running; error := None; stage := Fetching v 0;
                  fetched := fetched r; images := [] |}
      | Refused e => Some (fail_with e r)
      end
  | Fetching v hops =>
      let r := {| status := status r; error := error r; stage := stage r;
                  fetched := (fetched r ++ [v])%list; images := images r |} in
      match http hops v with
      | Redirect location =>
          if (max_redirects <=? hops)%nat
          then Some (fail_with (ValidationError "too many redirects") r)
          else match validate dns location with
               | SafeURL w =>
                   Some {| status := running; error := None;
                           stage := Fetching w (S hops);
                           fetched := fetched r; images := [] |}
               | Refused e => Some (fail_with e r)
               end
      | Response code is_html body_bytes html =>
          if negb ((200 <=? code) && (code <=? 299))
          then Some (fail_with (FetchError (HTTPStatus code)) r)
          else if negb is_html
          then Some (fail_with (FetchError UnsupportedContentType) r)
          else if max_body_bytes <? body_bytes
          then Some (fail_with (FetchError Oversize) r)
          else Some {| status := running; error := None;
                       stage := Parsing html v;
                       fetched := fetched r; images := [] |}
      | TimedOut => Some (fail_with (FetchError Timeout) r)
      | Unreachable => Some (fail_with (FetchError NetworkError) r)
      end
  | Parsing html finalURL =>
      Some {| status := completed; error := None; stage := Stopped;
              fetched := fetched r;
              images := List.map classify (extract html finalURL) |}
  | Stopped => None
  end.

(** The runs an execution for [u] passes through. *)
Inductive reachable (u : URL) : Run -> Prop :=
| reachable_start : reachable u start
| reachable_step (r r' : Run) :
    reachable u r -> step u r = Some r' -> reachable u r'.

(** A URL the validator lets through. *)
Definition vetted (v : URL) : Prop := validate dns v = SafeURL v.

(** Only vetted URLs are fetched or about to be fetched. *)
Definition fetches_vetted (r : Run) : Prop :=
  Forall vetted (fetched r) /\
  match stage r with
  | Fetching v _ => vetted v
  | _ => True
  end.

(** The number of steps a run has left, at most. *)
Definition steps_left (r : Run) : nat :=
  match stage r with
  | Validating => 9
  | Fetching _ hops => 8 - hops
  | Parsing _ _ => 1
  | Stopped => 0
  end.

Definition hops_bounded (r : Run) : Prop :=
  match stage r with
  | Fetching _ hops => (hops <= max_redirects)%nat
  | _ => True
  end.

(** Run the pipeline for at most [fuel] steps. *)
Fixpoint execute (fuel : nat) (u : URL) (r : Run) : Run :=
  match fuel with
  | O => r
  | S fuel' =>
      match step u r with
      | Some r' => execute fuel' u r'
      | None => r
      end
  end.

End Pipeline.

(** *** 3, 4.6 The lifecycle controller over the persistence adapter *)

(** Modelled from the spec: the rows behind the persistence adapter (3,
    6): ScanResults by id, the ImageDetail rows of each, and the next id to
    hand out. *)
Record Store : Type := mkStore {
  scans : gmap Z ScanResult.t;
  image_details : gmap Z (list ImageDetail.t);
  next_id : Z
}.

(** The store before any scan was requested. *)
Definition empty_store : Store :=
  {| scans := ∅; image_details := ∅; next_id := 1 |}.

(** Modelled from the spec: the errors of the lifecycle requests (4.6,
    6). *)
Inductive LifecycleError : Type :=
| NotFound
| InvalidTransition (current : ScanStatus).

(** Modelled from the spec: the safe, human-readable text stored for an
    error (4.6, 7). *)
Definition message (e : EngineError) : string :=
  match e with
  | ValidationError why => ("Invalid URL: " ++ why)%string
  | SSRFBlocked => "Destination is not allowed"
  | FetchError Timeout => "The page took too long to respond"
  | FetchError (HTTPStatus code) =>
      ("The page answered with status " ++ JS.Number_toString code)%string
  | FetchError Oversize => "The page is too large"
  | FetchError UnsupportedContentType => "The page is not an HTML document"
  | FetchError NetworkError => "The page could not be reached"
  | ParseError => "The page could not be parsed"
  end.

(** Modelled from the spec: a state transition of a record (3, 4.6): its
    status, error, duration and [updated_at] are replaced. *)
Definition transition (s : ScanStatus) (err : option string)
    (duration : option Z) (now : string) (r : ScanResult.t) : ScanResult.t :=
  {| ScanResult.id := ScanResult.id r;
     ScanResult.url := ScanResult.url r;
     ScanResult.total_images := ScanResult.total_images r;
     ScanResult.images_with_alt := ScanResult.images_with_alt r;
     ScanResult.images_missing_alt := ScanResult.images_missing_alt r;
     ScanResult.scan_status := s;
     ScanResult.error_message := err;
     ScanResult.scan_duration_ms := duration;
     ScanResult.alt_text_coverage_percentage :=
       ScanResult.alt_text_coverage_percentage r;
     ScanResult.missing_alt_percentage := ScanResult.missing_alt_percentage r;
     ScanResult.created_at := ScanResult.created_at r;
     ScanResult.updated_at := now;
     ScanResult.user_id := ScanResult.user_id r |}.

(** Modelled from the spec: the counts of a record, replaced by those of
    an aggregate (3). The client's record also carries
    [missing_alt_percentage]; it is computed like the coverage, from the
    images without alt. *)
Definition with_counts (a : Aggregate) (r : ScanResult.t) : ScanResult.t :=
  {| ScanResult.id := ScanResult.id r;
     ScanResult.url := ScanResult.url r;
     ScanResult.total_images := total_images a;
     ScanResult.images_with_alt := images_with_alt a;
     ScanResult.images_missing_alt := images_missing_alt a;
     ScanResult.scan_status := ScanResult.scan_status r;
     ScanResult.error_message := ScanResult.error_message r;
     ScanResult.scan_duration_ms := ScanResult.scan_duration_ms r;
     ScanResult.alt_text_coverage_percentage := alt_text_coverage_percentage a;
     ScanResult.missing_alt_percentage :=
       coverage_percentage (images_missing_alt a) (total_images a);
     ScanResult.created_at := ScanResult.created_at r;
     ScanResult.updated_at := ScanResult.updated_at r;
     ScanResult.user_id := ScanResult.user_id r |}.

(** Modelled from the spec: an ImageDetail row keyed to its ScanResult
    (3). *)
Definition owned_by (scan_id : Z) (now : string) (d : ImageDetail.t)
  : ImageDetail.t :=
  {| ImageDetail.id := ImageDetail.id d;
     ImageDetail.scan_result_id := scan_id;
     ImageDetail.image_url := ImageDetail.image_url d;
     ImageDetail.alt_text := ImageDetail.alt_text d;
     ImageDetail.has_alt_text := ImageDetail.has_alt_text d;
     ImageDetail.alt_text_length := ImageDetail.alt_text_length d;
     ImageDetail.image_width := ImageDetail.image_width d;
     ImageDetail.image_height := ImageDetail.image_height d;
     ImageDetail.is_decorative := ImageDetail.is_decorative d;
     ImageDetail.created_at := now |}.

(** Modelled from the spec: Create (4.6, 6): a new ScanResult in
    [pending], with zero counts and no error. The controller is not among
    the client sources. *)
Definition RequestScan (url : string) (user_id : Z) (now : string)
    (st : Store) : Store * ScanResult.t :=
  let r := {| ScanResult.id := next_id st;
              ScanResult.url := url;
              ScanResult.total_images := 0;
              ScanResult.images_with_alt := 0;
              ScanResult.images_missing_alt := 0;
              ScanResult.scan_status := pending;
              ScanResult.error_message := None;
              ScanResult.scan_duration_ms := None;
              ScanResult.alt_text_coverage_percentage := 0%Q;
              ScanResult.missing_alt_percentage := 0%Q;
              ScanResult.created_at := now;
              ScanResult.updated_at := now;
              ScanResult.user_id := user_id |} in
  ({| scans := <[next_id st := r]> (scans st);
      image_details := image_details st;
      next_id := next_id st + 1 |}, r).

(** Modelled from the spec: pending -> running (4.6), refused for a scan
    that is not pending, so that an id has one execution in flight. *)
Definition begin_run (id : Z) (now : string) (st : Store)
  : Store * (LifecycleError + ScanResult.t) :=
  match scans st !! id with
  | None => (st, inl NotFound)
  | Some r =>
      match ScanResult.scan_status r with
      | pending =>
          let r' := transition running None None now r in
          ({| scans := <[id := r']> (scans st);
              image_details := image_details st;
              next_id := next_id st |}, inr r')
      | s => (st, inl (InvalidTransition s))
      end
  end.

(** Modelled from the spec: running -> completed (4.6): the rows and the
    aggregate counts are written together with the status. *)
Definition complete (id : Z) (details : list ImageDetail.t) (duration : Z)
    (now : string) (st : Store) : Store * (LifecycleError + ScanResult.t) :=
  match scans st !! id with
  | None => (st, inl NotFound)
  | Some r =>
      match ScanResult.scan_status r with
      | running =>
          let r' := with_counts (aggregate details)
                      (transition completed None (Some duration) now r) in
          ({| scans := <[id := r']> (scans st);
              image_details :=
                <[id := List.map (owned_by id now) details]> (image_details st);
              next_id := next_id st |}, inr r')
      | s => (st, inl (InvalidTransition s))
      end
  end.

(** Modelled from the spec: the transition to failed (4.6, 7), from
    [running] or, when validation short-circuits, from [pending]; a failed
    scan has no ImageDetail rows (3). *)
Definition fail (id : Z) (e : EngineError) (duration : Z) (now : string)
    (st : Store) : Store * (LifecycleError + ScanResult.t) :=
  match scans st !! id with
  | None => (st, inl NotFound)
  | Some r =>
      match ScanResult.scan_status r with
      | pending | running =>
          let r' := transition failed (Some (message e)) (Some duration) now r in
          ({| scans := <[id := r']> (scans st);
              image_details := delete id (image_details st);
              next_id := next_id st |}, inr r')
      | s => (st, inl (InvalidTransition s))
      end
  end.

(** Modelled from the spec: Retry (4.6, 6), failed -> pending: clears the
    error message and discards the rows of the id; rejected with an
    invalid-transition error unless the current status is [failed]. *)
Definition RetryScan (id : Z) (now : string) (st : Store)
  : Store * (LifecycleError + ScanResult.t) :=
  match scans st !! id with
  | None => (st, inl NotFound)
  | Some r =>
      match ScanResult.scan_status r with
      | failed =>
          let r' := transition pending None None now r in
          ({| scans := <[id := r']> (scans st);
              image_details := delete id (image_details st);
              next_id := next_id st |}, inr r')
      | s => (st, inl (InvalidTransition s))
      end
  end.

(** Modelled from the spec: the outcome of a stopped pipeline run,
    written to the store (4.6). *)
Definition settle (id : Z) (duration : Z) (now : string) (r : Run)
    (st : Store) : Store * (LifecycleError + ScanResult.t) :=
  match status r, error r with
  | completed, _ => complete id (images r) duration now st
  | failed, Some e => fail id e duration now st
  | s, _ => (st, inl (InvalidTransition s))
  end.

(** Modelled from the spec: the operations of the scan lifecycle (4.6):
    create, run, complete, fail and retry. *)
Inductive lifecycle : Store -> Store -> Prop :=
| lifecycle_create (url : string) (user_id : Z) (now : string) (st : Store) :
    lifecycle st (fst (RequestScan url user_id now st))
| lifecycle_run (id : Z) (now : string) (st : Store) :
    lifecycle st (fst (begin_run id now st))
| lifecycle_complete (id : Z) (details : list ImageDetail.t) (duration : Z)
    (now : string) (st : Store) :
    lifecycle st (fst (complete id details duration now st))
| lifecycle_fail (id : Z) (e : EngineError) (duration : Z) (now : string)
    (st : Store) :
    lifecycle st (fst (fail id e duration now st))
| lifecycle_retry (id : Z) (now : string) (st : Store) :
    lifecycle st (fst (RetryScan id now st)).

(** The stores the lifecycle can produce. *)
Inductive reachable_store : Store -> Prop :=
| reachable_empty : reachable_store empty_store
| reachable_next (st st' : Store) :
    reachable_store st -> lifecycle st st' -> reachable_store st'.

(** The count invariant of section 3. *)
Definition counts_consistent (r : ScanResult.t) : Prop :=
  0 <= ScanResult.total_images r /\
  0 <= ScanResult.images_with_alt r /\
  0 <= ScanResult.images_missing_alt r /\
  ScanResult.total_images r
  = ScanResult.images_with_alt r + ScanResult.images_missing_alt r.

(** The stored coverage is the one computed from the stored counts. *)
Definition coverage_consistent (r : ScanResult.t) : Prop :=
  ScanResult.alt_text_coverage_percentage r
  = coverage_percentage (ScanResult.images_with_alt r)
      (ScanResult.total_images r).


(** A small world to run the pipeline in: "localhost" is the loopback
    address, "intranet.example" is 192.168.1.5 (scenario B),
    "metadata.internal" has a public and a link-local address,
    "example.com" is public; every request is answered with a small HTML
    page that holds the images of scenario A. *)
Definition example_dns (h : string) : option (list IPAddress) :=
  if String.eqb h "localhost" then Some [ipv4 127 0 0 1]
  else if String.eqb h "intranet.example" then Some [ipv4 192 168 1 5]
  else if String.eqb h "metadata.internal"
  then Some [ipv4 93 184 216 34; ipv4 169 254 169 254]
  else if String.eqb h "example.com" then Some [ipv4 93 184 216 34]
  else None.

Definition example_http (n : nat) (u : URL) : HopResult :=
  Response 200 true 2048 "<html><body>...</body></html>".

Definition example_extract (html : string) (base : URL) : list RawImageRef :=
  scenario_A.

(** A store after one scan of the page of scenario A was requested,
    started and completed, and a second scan, of an intranet page, was
    requested and failed in the validator. *)
Definition store_requested : Store :=
  fst (RequestScan "https://example.com/" 7 "2024-01-01T10:00:00Z" empty_store).

Definition store_running : Store :=
  fst (begin_run 1 "2024-01-01T10:00:01Z" store_requested).

Definition store_completed : Store :=
  fst (complete 1 (List.map classify scenario_A) 420 "2024-01-01T10:00:02Z"
         store_running).

(** The record of the first scan at each of these points. *)
Definition scan_requested : ScanResult.t :=
  snd (RequestScan "https://example.com/" 7 "2024-01-01T10:00:00Z" empty_store).

Definition scan_running : ScanResult.t :=
  transition running None None "2024-01-01T10:00:01Z" scan_requested.

Definition scan_completed : ScanResult.t :=
  with_counts (aggregate (List.map classify scenario_A))
    (transition completed None (Some 420) "2024-01-01T10:00:02Z" scan_running).

Definition store_failed : Store :=
  fst (settle 2 3 "2024-01-01T11:00:01Z"
         (execute example_dns example_http example_extract 9
            (mkURL "http" "intranet.example" None "/") start)
         (fst (RequestScan "http://intranet.example/" 7 "2024-01-01T11:00:00Z"
                 store_completed))).

(** The failed scan retried, run again and completed with the images of
    scenario A (scenario D). *)
Definition store_retried : Store :=
  fst (complete 2 (List.map classify scenario_A) 510 "2024-01-02T09:00:02Z"
         (fst (begin_run 2 "2024-01-02T09:00:01Z"
                 (fst (RetryScan 2 "2024-01-02T09:00:00Z" store_failed))))).

(** The destinations the SSRF property of section 8 lists: 127.0.0.1,
    10.0.0.0/8, 169.254.0.0/16 and ::1, as ranges of address values. *)
Definition listed_internal (a : IPAddress) : Prop :=
  match a with
  | IPv4 n =>
      n = 127 * 2 ^ 24 + 1 \/
      10 * 2 ^ 24 <= n < 11 * 2 ^ 24 \/
      169 * 2 ^ 24 + 254 * 2 ^ 16 <= n < 169 * 2 ^ 24 + 255 * 2 ^ 16
  | IPv6 n => n = 1
  end.

End Engine.

(* ===================================================================== *)
(** * Part II: properties                                                  *)
(* ===================================================================== *)

Section ImageListFacts.

Import ImageList.

Example quality_good :
  getAltTextQuality
    (ImageDetail.mk 1 1 "https://example.com/a.png" (Some "A cat")
       true (Some 5) None None false "") = "good".
Proof. reflexivity. Qed.

Example quality_too_long :
  getAltTextQuality
    (ImageDetail.mk 1 1 "u" (Some "...") true (Some 126) None None false "")
  = "too-long".
Proof. reflexivity. Qed.

(** The tier is read off three fields only. *)
Lemma getAltTextQuality_fields (i j : ImageDetail.t) :
  ImageDetail.has_alt_text i = ImageDetail.has_alt_text j ->
  ImageDetail.is_decorative i = ImageDetail.is_decorative j ->
  ImageDetail.alt_text_length i = ImageDetail.alt_text_length j ->
  getAltTextQuality i = getAltTextQuality j.
Proof.
  unfold getAltTextQuality. intros -> -> ->. reflexivity.
Qed.

(** C1. For every ImageDetail the tier computed by [getAltTextQuality] is
    determined by [has_alt_text], [is_decorative] and [alt_text_length]
    alone, and it is "missing" when [has_alt_text] is false, "decorative"
    when [has_alt_text] and [is_decorative] are true, and otherwise, for a
    recorded length [n], "poor" when [n < 5], "too-long" when [n > 125] and
    "good" when [5 <= n <= 125]. *)
Theorem getAltTextQuality_tier (image : ImageDetail.t) :
  let h := ImageDetail.has_alt_text image in
  let d := ImageDetail.is_decorative image in
  let len := ImageDetail.alt_text_length image in
  let q := getAltTextQuality image in
  (forall other,
      ImageDetail.has_alt_text other = h ->
      ImageDetail.is_decorative other = d ->
      ImageDetail.alt_text_length other = len ->
      getAltTextQuality other = q) /\
  (h = false -> q = "missing") /\
  (h = true -> d = true -> q = "decorative") /\
  (forall n, h = true -> d = false -> len = Some n ->
             (n < 5 -> q = "poor") /\
             (n > 125 -> q = "too-long") /\
             (5 <= n <= 125 -> q = "good")).
Proof.
  cbv zeta. split; [| split; [| split]].
  - intros other Hh Hd Hl. now apply getAltTextQuality_fields.
  - unfold getAltTextQuality. now intros ->.
  - unfold getAltTextQuality. now intros -> ->.
  - unfold getAltTextQuality. intros n -> -> ->. simpl.
    destruct (Z.eqb_spec n 0) as [-> | Hn0]; simpl.
    + (split; [| split]); intros; [reflexivity | lia | lia].
    + destruct (Z.ltb_spec n 5) as [Hlt | Hge].
      * (split; [| split]); intros; [reflexivity | lia | lia].
      * unfold Z.gtb. destruct (Z.compare_spec n 125) as [-> | Hlt | Hgt].
        -- (split; [| split]); intros; [lia | lia | reflexivity].
        -- (split; [| split]); intros; [lia | lia | reflexivity].
        -- (split; [| split]); intros; [lia | reflexivity | lia].
Qed.

(** An alt text of 125 characters is still "good", one of 4 is "poor". *)
Lemma getAltTextQuality_tier_witness :
  getAltTextQuality
    (ImageDetail.mk 7 1 "https://example.com/logo.png" (Some "logo")
       true (Some 4) None None false "2024-01-01T00:00:00Z") = "poor" /\
  getAltTextQuality
    (ImageDetail.mk 8 1 "https://example.com/hero.png" None
       true (Some 125) (Some 640) (Some 480) false "2024-01-01T00:00:00Z")
  = "good".
Proof.
  split.
  - apply (getAltTextQuality_tier
             (ImageDetail.mk 7 1 "https://example.com/logo.png" (Some "logo")
                true (Some 4) None None false "2024-01-01T00:00:00Z"))
      with (n := 4); [reflexivity | reflexivity | reflexivity | lia].
  - apply (getAltTextQuality_tier
             (ImageDetail.mk 8 1 "https://example.com/hero.png" None
                true (Some 125) (Some 640) (Some 480) false
                "2024-01-01T00:00:00Z"))
      with (n := 125); [reflexivity | reflexivity | reflexivity | lia].
Defined.

(** C8. [getAltTextQuality] is total and its result is one of the five
    tiers (which are pairwise distinct); when [has_alt_text] is true,
    [is_decorative] is false and [alt_text_length] is absent or [0] the
    result is "poor", and an image without a recorded length is never
    "good". *)
Theorem getAltTextQuality_total (image : ImageDetail.t) :
  In (getAltTextQuality image) tiers /\
  List.NoDup tiers /\
  (ImageDetail.has_alt_text image = true ->
   ImageDetail.is_decorative image = false ->
   ImageDetail.alt_text_length image = None \/
   ImageDetail.alt_text_length image = Some 0 ->
   getAltTextQuality image = "poor") /\
  (ImageDetail.alt_text_length image = None ->
   getAltTextQuality image <> "good").
Proof.
  split; [| split; [| split]].
  - unfold getAltTextQuality, tiers.
    repeat match goal with
           | |- context [if ?b then _ else _] => destruct b
           end;
      cbn; repeat (first [left; reflexivity | right]).
  - unfold tiers.
    repeat (apply List.NoDup_cons; [simpl; intuition discriminate |]).
    apply List.NoDup_nil.
  - unfold getAltTextQuality. intros -> -> [-> | ->]; reflexivity.
  - unfold getAltTextQuality. intros ->.
    destruct (ImageDetail.has_alt_text image),
             (ImageDetail.is_decorative image); simpl; discriminate.
Qed.

Lemma getAltTextQuality_total_witness :
  getAltTextQuality
    (ImageDetail.mk 9 1 "https://example.com/x.png" (Some "x")
       true None None None false "2024-01-01T00:00:00Z") = "poor".
Proof.
  apply (getAltTextQuality_total
           (ImageDetail.mk 9 1 "https://example.com/x.png" (Some "x")
              true None None None false "2024-01-01T00:00:00Z"));
    [reflexivity | reflexivity | left; reflexivity].
Defined.

End ImageListFacts.

(** ** Strings: prefixes, substrings and case *)

Section StringFacts.

Lemma append_cons (a : ascii) (p r : string) :
  (String a p ++ r)%string = String a (p ++ r)%string.
Proof. reflexivity. Qed.

Lemma prefix_app (p s : string) :
  String.prefix p s = true <-> exists rest, s = (p ++ rest)%string.
Proof.
  revert s. induction p as [| a p IH]; intros s.
  - destruct s; cbn; split; eauto.
  - destruct s as [| b s]; cbn.
    + split; [discriminate | intros (rest & [=])].
    + destruct (ascii_dec a b) as [<- | Hab].
      * rewrite IH.
        split; intros (rest & H); exists rest; rewrite append_cons in *;
          congruence.
      * split; [discriminate |].
        intros (rest & H). rewrite append_cons in H. congruence.
Qed.

Lemma startsWith_app (s p : string) :
  JS.startsWith s p = true <-> exists rest, s = (p ++ rest)%string.
Proof. apply prefix_app. Qed.

Lemma includes_unfold (s t : string) :
  JS.includes s t =
  String.prefix t s ||
  match s with EmptyString => false | String _ s' => JS.includes s' t end.
Proof. destruct s; reflexivity. Qed.

(** [includes] is the substring test. *)
Lemma includes_substring (s t : string) :
  JS.includes s t = true <->
  exists pre post, s = (pre ++ t ++ post)%string.
Proof.
  split.
  - induction s as [| c s IH]; rewrite includes_unfold, orb_true_iff;
      intros [H | H].
    + apply prefix_app in H as (rest & ->). now exists EmptyString, rest.
    + discriminate.
    + apply prefix_app in H as (rest & ->). now exists EmptyString, rest.
    + destruct (IH H) as (pre & post & ->). now exists (String c pre), post.
  - intros (pre & post & ->).
    induction pre as [| c pre IH]; rewrite includes_unfold, orb_true_iff.
    + left. apply prefix_app. now exists post.
    + right. exact IH.
Qed.

End StringFacts.

Section MoreStringFacts.

Lemma append_nil_r (a : string) : (a ++ EmptyString)%string = a.
Proof.
  induction a as [| c a IH]; [reflexivity |].
  rewrite append_cons. now rewrite IH.
Qed.

Lemma all_chars_append (p : ascii -> bool) (a b : string) :
  JS.all_chars p (a ++ b)%string = JS.all_chars p a && JS.all_chars p b.
Proof.
  induction a as [| c a IH]; [reflexivity |].
  rewrite append_cons. simpl. rewrite IH. apply andb_assoc.
Qed.

Lemma all_chars_weaken (p q : ascii -> bool) (s : string) :
  (forall c, p c = true -> q c = true) ->
  JS.all_chars p s = true -> JS.all_chars q s = true.
Proof.
  intros Hpq. induction s as [| c s IH]; simpl; [reflexivity |].
  rewrite !andb_true_iff. intros [Hc Hs]. auto.
Qed.

Lemma string_of_uint_digits (d : Decimal.uint) :
  JS.all_chars JS.is_digit (NilEmpty.string_of_uint d) = true.
Proof. induction d; simpl; auto. Qed.

Lemma Number_toString_chars (n : Z) :
  JS.all_chars JS.numeral_char (JS.Number_toString n) = true.
Proof.
  assert (H : forall d, JS.all_chars JS.numeral_char
                          (NilZero.string_of_uint d) = true).
  { intros d. destruct d; try reflexivity;
      apply (all_chars_weaken JS.is_digit);
      try apply string_of_uint_digits;
      intros c Hc; unfold JS.numeral_char; now rewrite Hc. }
  unfold JS.Number_toString, NilZero.string_of_int.
  destruct (Z.to_int n) as [d | d]; [apply H |].
  simpl. apply H.
Qed.

(** The serializer leaves the characters of a numeral alone. *)
Lemma encode_unreserved (s : string) :
  JS.all_chars JS.numeral_char s = true -> URLSearchParams.encode s = s.
Proof.
  induction s as [| c s IH]; simpl; [reflexivity |].
  rewrite andb_true_iff. intros [Hc Hs]. rewrite (IH Hs).
  replace (URLSearchParams.encode_byte c) with (String c EmptyString);
    [reflexivity |].
  revert Hc. unfold JS.numeral_char, JS.is_digit.
  destruct c as [[] [] [] [] [] [] [] []]; simpl; (discriminate || reflexivity).
Qed.

Lemma encode_Number_toString (n : Z) :
  URLSearchParams.encode (JS.Number_toString n) = JS.Number_toString n.
Proof. apply encode_unreserved, Number_toString_chars. Qed.

End MoreStringFacts.

Section ListFacts.

Context {A : Type}.

(** [filter] keeps the order of the list. *)
Lemma filter_sublist (f : A -> bool) (l : list A) :
  sublist (List.filter f l) l.
Proof.
  induction l as [| a l IH]; cbn; [constructor |].
  destruct (f a); now constructor.
Qed.

(** [filter] leaves out nothing that passes: every sub-list of passing
    elements is a sub-list of the result. *)
Lemma filter_maximal (f : A -> bool) (k l : list A) :
  sublist k l -> (forall a, In a k -> f a = true) ->
  sublist k (List.filter f l).
Proof.
  induction 1 as [| a k l _ IH | a k l _ IH]; intros Hk; cbn.
  - constructor.
  - rewrite (Hk a (or_introl eq_refl)). constructor.
    apply IH. intros b Hb. apply Hk. now right.
  - destruct (f a); [constructor |]; now apply IH.
Qed.

End ListFacts.

(** ** The URL form: [urlSchema] *)

Section UrlInputFacts.

Import UrlInput UrlScheme.

Example urlSchema_accepts_https :
  urlSchema_safeParse (fun _ => true) "https://example.com"
  = success "https://example.com".
Proof. reflexivity. Qed.

Example urlSchema_rejects_ftp :
  urlSchema_safeParse (fun _ => true) "ftp://example.com"
  = error [msg_scheme].
Proof. reflexivity. Qed.

Example urlSchema_rejects_empty :
  urlSchema_safeParse (fun _ => false) ""
  = error [msg_required; msg_invalid; msg_scheme].
Proof. reflexivity. Qed.

Lemma refinement_prefix (url : string) :
  refinement url = true <->
  exists rest, url = ("http://" ++ rest)%string \/
               url = ("https://" ++ rest)%string.
Proof.
  unfold refinement. rewrite orb_true_iff, !startsWith_app. split.
  - intros [(rest & H) | (rest & H)]; exists rest; auto.
  - intros (rest & [H | H]); [left | right]; now exists rest.
Qed.

(** A URL that passes the refinement has scheme http or https. *)
Lemma refinement_scheme (url : string) :
  refinement url = true -> is_http_or_https url.
Proof.
  intros H. apply refinement_prefix in H as (rest & [-> | ->]);
    [left | right]; reflexivity.
Qed.

(** The scheme issue is raised exactly when the refinement fails. *)
Lemma msg_scheme_raised (zod_url : string -> bool) (url : string) :
  In msg_scheme (urlSchema_issues zod_url url) <-> refinement url = false.
Proof.
  unfold urlSchema_issues.
  destruct (min1 url), (zod_url url), (refinement url); simpl;
    intuition discriminate.
Qed.

Lemma safeParse_error (zod_url : string -> bool) (url : string) :
  urlSchema_issues zod_url url <> [] ->
  urlSchema_safeParse zod_url url = error (urlSchema_issues zod_url url).
Proof.
  unfold urlSchema_safeParse.
  destruct (urlSchema_issues zod_url url); [congruence | reflexivity].
Qed.

(** C6, as the form implements it. Whatever zod's URL check decides, the
    validator rejects every raw URL whose scheme is not http or https, and
    more generally every URL that does not begin with the literal prefix
    "http://" or "https://"; the scheme issue is raised exactly for those,
    so a URL is not rejected on scheme grounds precisely when it begins
    with one of the two prefixes. *)
Theorem urlSchema_scheme_check (zod_url : string -> bool) (url : string) :
  (refinement url = true <->
   exists rest, url = ("http://" ++ rest)%string \/
                url = ("https://" ++ rest)%string) /\
  (In msg_scheme (urlSchema_issues zod_url url) <-> refinement url = false) /\
  (refinement url = false ->
   exists issues, urlSchema_safeParse zod_url url = error issues /\
                  In msg_scheme issues) /\
  (~ is_http_or_https url ->
   exists issues, urlSchema_safeParse zod_url url = error issues /\
                  In msg_scheme issues).
Proof.
  assert (Hrej : refinement url = false ->
                 exists issues, urlSchema_safeParse zod_url url = error issues /\
                                In msg_scheme issues).
  { intros Hr. apply (msg_scheme_raised zod_url) in Hr.
    exists (urlSchema_issues zod_url url). split; [| exact Hr].
    apply safeParse_error. intros E. rewrite E in Hr. exact Hr. }
  split; [apply refinement_prefix |].
  split; [apply msg_scheme_raised |].
  split; [exact Hrej |].
  intros Hs. apply Hrej.
  destruct (refinement url) eqn:Hr; [| reflexivity].
  exfalso. apply Hs. now apply refinement_scheme.
Qed.

Lemma urlSchema_scheme_check_witness :
  exists issues,
    urlSchema_safeParse (fun _ => true) "ftp://example.com/a.html"
    = error issues /\ In msg_scheme issues.
Proof.
  apply (urlSchema_scheme_check (fun _ => true) "ftp://example.com/a.html").
  unfold is_http_or_https. simpl. intros [H | H]; discriminate H.
Defined.

(** An upper-case scheme, and an http URL written without the double
    slash: both have scheme http, and both are rejected with the scheme
    issue, alone when zod's URL check passes and next to zod's issue when
    it does not. *)
Lemma urlSchema_rejects_http_scheme :
  (scheme_of "HTTP://example.com" = Some "http" /\
   urlSchema_safeParse (fun _ => true) "HTTP://example.com"
   = error [msg_scheme] /\
   urlSchema_safeParse (fun _ => false) "HTTP://example.com"
   = error [msg_invalid; msg_scheme]) /\
  (scheme_of "http:example.com" = Some "http" /\
   urlSchema_safeParse (fun _ => true) "http:example.com"
   = error [msg_scheme] /\
   urlSchema_safeParse (fun _ => false) "http:example.com"
   = error [msg_invalid; msg_scheme]).
Proof. repeat split. Qed.

End UrlInputFacts.

(** ** The API client: authentication state *)

Section ApiClientAuthFacts.

Import ApiClient.

Example constructor_restores_token :
  constructor (Some "abc")
  = {| token := Some "abc"; Authorization := Some "Bearer abc";
       access_token := Some "abc" |}.
Proof. reflexivity. Qed.

Example login_401_clears :
  fst (login (rejected_response 401) (constructor (Some "abc")))
  = {| token := None; Authorization := None; access_token := None |}.
Proof. reflexivity. Qed.

Lemma truthy_string_nonempty (s : string) :
  JS.truthy_string s = true <-> s <> EmptyString.
Proof. destruct s; simpl; split; congruence. Qed.

Lemma agree_constructor (stored : option string) : agree (constructor stored).
Proof.
  unfold constructor, agree.
  destruct stored as [tok |]; simpl; [| auto].
  destruct (JS.truthy_string tok) eqn:E; simpl; rewrite ?E; auto.
Qed.

Lemma agree_setAuthToken (tok : string) (c : t) :
  tok <> EmptyString -> agree (setAuthToken tok c).
Proof.
  intros H. apply truthy_string_nonempty in H.
  unfold agree. simpl. rewrite H. auto.
Qed.

Lemma agree_clearAuth (c : t) : agree (clearAuth c).
Proof. unfold agree. simpl. auto. Qed.

Lemma agree_handleError {A : Type} (r : Reply A) (c : t) :
  agree c -> agree (handleError r c).
Proof.
  destruct r as [d | status | |]; simpl; auto.
  destruct (status =? 401); auto using agree_clearAuth.
Qed.

Lemma agree_apply_op (o : op) (c : t) :
  installs o <> Some EmptyString -> agree c -> agree (apply_op o c).
Proof.
  intros Hi Hc. destruct o as [tok | | r | r | | status]; simpl in *.
  - apply agree_setAuthToken. congruence.
  - apply agree_clearAuth.
  - destruct r as [tok | status | |]; simpl;
      [apply agree_setAuthToken; congruence | | exact Hc | exact Hc].
    destruct (status =? 401); auto using agree_clearAuth.
  - destruct r as [tok | status | |]; simpl;
      [apply agree_setAuthToken; congruence | | exact Hc | exact Hc].
    destruct (status =? 401); auto using agree_clearAuth.
  - apply agree_clearAuth.
  - destruct (status =? 401); auto using agree_clearAuth.
Qed.

Lemma agree_run (ops : list op) (c : t) :
  Forall (fun o => installs o <> Some EmptyString) ops ->
  agree c -> agree (run ops c).
Proof.
  unfold run. intros H. revert c.
  induction H as [| o ops Ho _ IH]; intros c Hc; simpl; [exact Hc |].
  apply IH. now apply agree_apply_op.
Qed.

(** Under [agree] the predicate, the stored token and the header say the
    same thing. *)
Lemma agree_isAuthenticated (c : t) :
  agree c ->
  (isAuthenticated c = true <->
   exists tok, getToken c = Some tok /\
               Authorization c = Some ("Bearer " ++ tok)%string) /\
  (isAuthenticated c = false <-> Authorization c = None).
Proof.
  unfold agree, isAuthenticated, getToken.
  destruct (token c) as [tok |]; simpl.
  - destruct (JS.truthy_string tok) eqn:E.
    + intros [Ha Hs]. split; split; try congruence; eauto.
    + intros Ha. split; split; try congruence.
      intros (tok' & _ & H). congruence.
  - intros [Ha Hs]. split; split; try congruence.
    intros (tok' & H & _). congruence.
Qed.

(** C9, for the tokens the predicate recognises. Immediately after
    [setAuthToken t] with a non-empty [t], also when it is reached through
    a resolved [login], [getToken] returns [t], [isAuthenticated] returns
    true and the Authorization header is "Bearer t"; immediately after
    [clearAuth], also through [logout], [getToken] returns null,
    [isAuthenticated] returns false and no Authorization header is set;
    and from construction on, through any sequence of operations that
    install no empty token, the stored token, the header and the predicate
    agree. *)
Theorem auth_state_agrees :
  (forall (c : t) (tok : string),
      tok <> EmptyString ->
      getToken (setAuthToken tok c) = Some tok /\
      isAuthenticated (setAuthToken tok c) = true /\
      Authorization (setAuthToken tok c) = Some ("Bearer " ++ tok)%string /\
      request_Authorization (setAuthToken tok c)
      = Some ("Bearer " ++ tok)%string) /\
  (forall (c : t) (tok : Token.t),
      Token.access_token tok <> EmptyString ->
      snd (login (resolved tok) c) = Some tok /\
      getToken (fst (login (resolved tok) c)) = Some (Token.access_token tok) /\
      isAuthenticated (fst (login (resolved tok) c)) = true) /\
  (forall c : t,
      getToken (clearAuth c) = None /\
      isAuthenticated (clearAuth c) = false /\
      Authorization (clearAuth c) = None /\
      request_Authorization (clearAuth c) = None) /\
  (forall c : t,
      getToken (logout c) = None /\
      isAuthenticated (logout c) = false /\
      Authorization (logout c) = None /\
      request_Authorization (logout c) = None) /\
  (forall (stored : option string) (ops : list op),
      Forall (fun o => installs o <> Some EmptyString) ops ->
      let c := run ops (constructor stored) in
      agree c /\
      (isAuthenticated c = true <->
       exists tok, getToken c = Some tok /\
                   Authorization c = Some ("Bearer " ++ tok)%string) /\
      (isAuthenticated c = false <-> Authorization c = None)).
Proof.
  split; [| split; [| split; [| split]]].
  - intros c tok H. apply truthy_string_nonempty in H.
    unfold request_Authorization, isAuthenticated, getToken. simpl.
    rewrite H. auto.
  - intros c tok H. apply truthy_string_nonempty in H.
    unfold isAuthenticated, getToken. simpl. auto.
  - intros c. repeat split.
  - intros c. repeat split.
  - intros stored ops H c.
    assert (Hc : agree c) by (apply agree_run; auto using agree_constructor).
    split; [exact Hc | now apply agree_isAuthenticated].
Qed.

Lemma auth_state_agrees_witness :
  getToken (setAuthToken "eyJhbGciOi" (constructor None)) = Some "eyJhbGciOi" /\
  isAuthenticated (setAuthToken "eyJhbGciOi" (constructor None)) = true /\
  agree (run [op_login (resolved (Token.mk "tok-1" "bearer" 1800));
              op_failed_request 404;
              op_refreshToken (resolved (Token.mk "tok-2" "bearer" 1800))]
           (constructor None)).
Proof.
  destruct auth_state_agrees as (Hset & _ & _ & _ & Hrun).
  destruct (Hset (constructor None) "eyJhbGciOi") as (H1 & H2 & _);
    [discriminate |].
  split; [exact H1 | split; [exact H2 |]].
  apply (Hrun None).
  repeat (constructor; [simpl; discriminate |]). constructor.
Defined.

(** The empty token: [setAuthToken("")] stores it and sets the header
    "Bearer ", yet [isAuthenticated()] is false; the same state is reached
    by a login that resolves with an empty [access_token]. *)
Lemma setAuthToken_empty_token :
  getToken (setAuthToken "" (constructor None)) = Some "" /\
  isAuthenticated (setAuthToken "" (constructor None)) = false /\
  Authorization (setAuthToken "" (constructor None)) = Some "Bearer " /\
  isAuthenticated
    (fst (login (resolved (Token.mk "" "bearer" 1800)) (constructor None)))
  = false.
Proof. repeat split. Qed.

End ApiClientAuthFacts.

(** ** The API client: the scan list request, and the history filter *)


Section GetScansFacts.

Import ApiClient.

(** [String.prototype.toLowerCase], whatever the runtime's mapping is. *)
Variable toLowerCase : string -> string.

Local Abbreviation filteredScans := (ScanHistory.filteredScans toLowerCase).

Example getScans_default_request :
  getScans_request None None = "/scans/?skip=0&limit=10".
Proof. reflexivity. Qed.

Example getScans_filtered_request :
  getScans_request
    (Some (PaginationParams.mk 20 10))
    (Some (ScanFilters.mk (Some failed) (Some "2024-01-01T00:00:00.000Z")
             None (Some "example")))
  = "/scans/?skip=20&limit=10&status_filter=failed&start_date=2024-01-01T00%3A00%3A00.000Z".
Proof. reflexivity. Qed.

(** The parameters of [getScans], in closed form. *)
Lemma getScans_params_eq (pagination : PaginationParams.t)
    (filters : ScanFilters.t) :
  getScans_params pagination filters =
  ([("skip", JS.Number_toString (PaginationParams.skip pagination));
    ("limit", JS.Number_toString (PaginationParams.limit pagination))]
   ++ when_truthy "status_filter"
        (option_map ScanStatus_literal (ScanFilters.status filters))
   ++ when_truthy "start_date" (ScanFilters.start_date filters)
   ++ when_truthy "end_date" (ScanFilters.end_date filters))%list.
Proof.
  unfold getScans_params, when_truthy, URLSearchParams.append.
  destruct (ScanFilters.status filters) as [[] |],
           (ScanFilters.start_date filters) as [[| a d] |],
           (ScanFilters.end_date filters) as [[| b e] |]; reflexivity.
Qed.

(** The URL [getScans] requests, as text. *)
Lemma getScans_request_eq (pagination : PaginationParams.t)
    (filters : ScanFilters.t) :
  getScans_request (Some pagination) (Some filters)
  = ("/scans/?skip=" ++ JS.Number_toString (PaginationParams.skip pagination)
     ++ "&limit=" ++ JS.Number_toString (PaginationParams.limit pagination)
     ++ query_text "status_filter"
          (option_map ScanStatus_literal (ScanFilters.status filters))
     ++ query_text "start_date" (ScanFilters.start_date filters)
     ++ query_text "end_date" (ScanFilters.end_date filters))%string.
Proof.
  unfold getScans_request, getScans_params, URLSearchParams.append.
  destruct (ScanFilters.status filters) as [[] |],
           (ScanFilters.start_date filters) as [[| a d] |],
           (ScanFilters.end_date filters) as [[| b e] |];
    cbn [app URLSearchParams.toString query_text option_map
         ScanStatus_literal JS.truthy_string];
    rewrite !encode_Number_toString, ?append_nil_r; reflexivity.
Qed.

(** The search predicate of the history, without the truthiness test. *)
Lemma history_matches_spec (term : string) (scan : ScanResultSummary.t) :
  ScanHistory.matches toLowerCase term scan = true <->
  term = EmptyString \/
  exists pre post,
    toLowerCase (ScanResultSummary.url scan)
    = (pre ++ toLowerCase term ++ post)%string.
Proof.
  unfold ScanHistory.matches.
  destruct term as [| c term]; cbn [JS.truthy_string].
  - split; [now left | reflexivity].
  - rewrite includes_substring. split; [now right |].
    intros [H | H]; [discriminate H | exact H].
Qed.

(** C10. [getScans] requests [/scans/?skip=..&limit=..], followed by
    [&status_filter=..], [&start_date=..] and [&end_date=..] for exactly
    those of the three filters that are set (truthy), percent-encoded, and
    by nothing else; an omitted pagination is skip 0 and limit 10, and
    omitted filters are none. The [search] field of the filters changes
    neither the parameters nor the requested URL. Typing a search term
    sends nothing of the term: the request that follows is the one for the
    first page under the filters as they are, whatever the term. The term
    is applied on the client, to the scans already loaded: [filteredScans]
    keeps, in their order and leaving out none, exactly those whose
    lower-cased URL contains the lower-cased term (every scan when the term
    is empty), so that two terms with the same lower-case form select the
    same scans. *)
Theorem getScans_query_and_search :
  (forall (pagination : PaginationParams.t) (filters : ScanFilters.t),
      getScans_params pagination filters =
      ([("skip", JS.Number_toString (PaginationParams.skip pagination));
        ("limit", JS.Number_toString (PaginationParams.limit pagination))]
       ++ when_truthy "status_filter"
            (option_map ScanStatus_literal (ScanFilters.status filters))
       ++ when_truthy "start_date" (ScanFilters.start_date filters)
       ++ when_truthy "end_date" (ScanFilters.end_date filters))%list) /\
  (forall (pagination : PaginationParams.t) (filters : ScanFilters.t),
      getScans_request (Some pagination) (Some filters)
      = ("/scans/?skip="
         ++ JS.Number_toString (PaginationParams.skip pagination)
         ++ "&limit=" ++ JS.Number_toString (PaginationParams.limit pagination)
         ++ query_text "status_filter"
              (option_map ScanStatus_literal (ScanFilters.status filters))
         ++ query_text "start_date" (ScanFilters.start_date filters)
         ++ query_text "end_date" (ScanFilters.end_date filters))%string) /\
  (forall (pagination : option PaginationParams.t)
          (filters : option ScanFilters.t),
      getScans_request None filters
      = getScans_request (Some (PaginationParams.mk 0 10)) filters /\
      getScans_request pagination None
      = getScans_request pagination (Some ScanFilters.empty)) /\
  (forall (pagination : option PaginationParams.t) (filters : ScanFilters.t)
          (s : option string),
      getScans_request pagination (Some (ScanFilters.with_search s filters))
      = getScans_request pagination (Some filters)) /\
  (forall (st : ScanHistory.t) (term : string),
      ScanHistory.fetchScans_request (ScanHistory.handleSearch term st)
      = getScans_request (Some (PaginationParams.mk 0 10))
          (Some (ScanHistory.filters st))) /\
  (forall (st : ScanHistory.t) (scan : ScanResultSummary.t),
      In scan (filteredScans st) <->
      In scan (ScanHistory.scans st) /\
      (ScanHistory.searchTerm st = EmptyString \/
       exists pre post,
         toLowerCase (ScanResultSummary.url scan)
         = (pre ++ toLowerCase (ScanHistory.searchTerm st) ++ post)%string)) /\
  (forall st : ScanHistory.t,
      sublist (filteredScans st) (ScanHistory.scans st)) /\
  (forall (st : ScanHistory.t) (kept : list ScanResultSummary.t),
      sublist kept (ScanHistory.scans st) ->
      (forall scan, In scan kept ->
         ScanHistory.searchTerm st = EmptyString \/
         exists pre post,
           toLowerCase (ScanResultSummary.url scan)
           = (pre ++ toLowerCase (ScanHistory.searchTerm st) ++ post)%string) ->
      sublist kept (filteredScans st)) /\
  (forall (st : ScanHistory.t) (term term' : string),
      term <> EmptyString -> term' <> EmptyString ->
      toLowerCase term = toLowerCase term' ->
      filteredScans (ScanHistory.handleSearch term st)
      = filteredScans (ScanHistory.handleSearch term' st)).
Proof.
  split; [exact getScans_params_eq |].
  split; [exact getScans_request_eq |].
  split; [intros [p |] [f |]; split; reflexivity |].
  split; [intros [p |] filters s; reflexivity |].
  split; [intros st term; reflexivity |].
  split; [| split; [| split]].
  - intros st scan. unfold ScanHistory.filteredScans.
    now rewrite filter_In, history_matches_spec.
  - intros st. apply filter_sublist.
  - intros st kept Hsub Hall. apply filter_maximal; [exact Hsub |].
    intros scan Hin. apply history_matches_spec. now apply Hall.
  - intros st term term' Hne Hne' Hlow. unfold ScanHistory.filteredScans.
    cbn [ScanHistory.handleSearch ScanHistory.scans ScanHistory.searchTerm].
    apply filter_ext. intros scan. apply eq_true_iff_eq.
    rewrite !history_matches_spec, Hlow. intuition.
Qed.

Example filteredScans_example :
  ScanHistory.filteredScans JS.ascii_toLowerCase ScanHistory.example_history
  = [ScanHistory.example_scan].
Proof. reflexivity. Qed.

End GetScansFacts.

Lemma getScans_query_and_search_witness :
  In ScanHistory.example_scan
     (ScanHistory.filteredScans JS.ascii_toLowerCase
        ScanHistory.example_history) /\
  ScanHistory.filteredScans JS.ascii_toLowerCase
    (ScanHistory.handleSearch "EXAMPLE.com" ScanHistory.example_history)
  = ScanHistory.filteredScans JS.ascii_toLowerCase
      (ScanHistory.handleSearch "example.COM" ScanHistory.example_history).
Proof.
  destruct (getScans_query_and_search JS.ascii_toLowerCase)
    as (_ & _ & _ & _ & _ & Hin & _ & _ & Hcase).
  split.
  - apply (Hin ScanHistory.example_history ScanHistory.example_scan).
    split; [left; reflexivity |].
    right. exists "https://", ".com/". reflexivity.
  - apply (Hcase ScanHistory.example_history "EXAMPLE.com" "example.COM");
      [discriminate | discriminate | reflexivity].
Defined.

(** ** The engine: classifier and aggregator *)

Section ClassifierFacts.

Import Engine.

(** The classifier's three fields, read off the [alt] attribute. *)
Lemma classify_fields (r : RawImageRef) :
  match alt r with
  | None =>
      ImageDetail.has_alt_text (classify r) = false /\
      ImageDetail.is_decorative (classify r) = false /\
      ImageDetail.alt_text_length (classify r) = None
  | Some EmptyString =>
      ImageDetail.has_alt_text (classify r) = true /\
      ImageDetail.is_decorative (classify r) = true /\
      ImageDetail.alt_text_length (classify r) = None
  | Some text =>
      ImageDetail.has_alt_text (classify r) = true /\
      ImageDetail.is_decorative (classify r) = false /\
      ImageDetail.alt_text_length (classify r)
      = Some (Z.of_nat (String.length text))
  end.
Proof.
  unfold classify. destruct (alt r) as [[| c text] |]; cbn; auto.
Qed.

(** C7. The classifier is a total function, so every RawImageRef yields
    exactly one ImageDetail; an absent alt gives [has_alt_text = false] and
    [is_decorative = false]; [alt=""] gives [has_alt_text = true] and
    [is_decorative = true]; [alt="x"] gives [has_alt_text = true],
    [is_decorative = false] and [alt_text_length = 1]; and
    [alt_text_length] is absent exactly when the alt text is empty or
    missing. *)
Theorem classify_total (r : RawImageRef) :
  (exists d, classify r = d /\ forall d', classify r = d' -> d' = d) /\
  (alt r = None ->
   ImageDetail.has_alt_text (classify r) = false /\
   ImageDetail.is_decorative (classify r) = false) /\
  (alt r = Some "" ->
   ImageDetail.has_alt_text (classify r) = true /\
   ImageDetail.is_decorative (classify r) = true) /\
  (alt r = Some "x" ->
   ImageDetail.has_alt_text (classify r) = true /\
   ImageDetail.is_decorative (classify r) = false /\
   ImageDetail.alt_text_length (classify r) = Some 1) /\
  (ImageDetail.alt_text_length (classify r) = None <->
   alt r = None \/ alt r = Some "").
Proof.
  pose proof (classify_fields r) as H.
  split; [exists (classify r); split; [reflexivity | congruence] |].
  split; [intros E; rewrite E in H; tauto |].
  split; [intros E; rewrite E in H; tauto |].
  split; [intros E; rewrite E in H; exact H |].
  destruct (alt r) as [[| c text] |].
  - tauto.
  - destruct H as (_ & _ & ->). split; [discriminate |].
    intros [E | E]; discriminate E.
  - tauto.
Qed.

Lemma classify_total_witness :
  ImageDetail.has_alt_text
    (classify (mkRawImageRef "https://example.com/x.png" (Some "x") None None))
  = true /\
  ImageDetail.is_decorative
    (classify (mkRawImageRef "https://example.com/x.png" (Some "x") None None))
  = false /\
  ImageDetail.alt_text_length
    (classify (mkRawImageRef "https://example.com/x.png" (Some "x") None None))
  = Some 1.
Proof.
  apply (classify_total
           (mkRawImageRef "https://example.com/x.png" (Some "x") None None)).
  reflexivity.
Defined.

(** What the classifier emits never lands in the "poor because no length
    was recorded" corner of [getAltTextQuality]. *)
Lemma classify_quality (r : RawImageRef) :
  ImageList.getAltTextQuality (classify r) = "poor" ->
  exists text, alt r = Some text /\ (0 < String.length text < 5)%nat.
Proof.
  unfold ImageList.getAltTextQuality, classify.
  destruct (alt r) as [[| c text] |];
    cbn -[Z.of_nat Z.ltb Z.gtb Z.eqb String.length]; try discriminate.
  set (n := Z.of_nat (String.length (String c text))).
  intros H. exists (String c text). split; [reflexivity |].
  assert (Hn : (0 < n)%Z) by (unfold n; cbn [String.length]; lia).
  fold n. destruct (Z.eqb_spec n 0) as [E0 | E0]; [lia |].
  destruct (Z.ltb_spec n 5) as [E5 | E5]; [unfold n in *; lia |].
  cbn in H. destruct (n >? 125)%Z; discriminate H.
Qed.

End ClassifierFacts.

Section AggregatorFacts.

Import Engine.

Local Open Scope Q_scope.

Lemma Qmake_tenths (k : Z) : Qmake k 10 == inject_Z k * (1 # 10).
Proof. unfold Qeq, Qmult, inject_Z. simpl. lia. Qed.

(** Rounding half up to one decimal: the result is a number of tenths, at
    most 1/20 above and less than 1/20 below its argument. *)
Lemma round1_half_up_spec (x : Q) :
  exists k : Z,
    round1_half_up x = Qmake k 10 /\
    x - (1 # 20) < round1_half_up x /\ round1_half_up x <= x + (1 # 20).
Proof.
  unfold round1_half_up. set (y := x * 10 + (1 # 2)).
  exists (Qfloor y). split; [reflexivity |].
  pose proof (Qfloor_le y) as Hle. pose proof (Qlt_floor y) as Hlt.
  rewrite inject_Z_plus in Hlt. rewrite Qmake_tenths.
  change (inject_Z 1) with 1 in Hlt. unfold y in *. split; lra.
Qed.

Lemma coverage_no_images (images_with_alt : Z) :
  coverage_percentage images_with_alt 0 = 0.
Proof. reflexivity. Qed.

Lemma coverage_rounded (images_with_alt total_images : Z) :
  total_images <> 0%Z ->
  coverage_percentage images_with_alt total_images
  = round1_half_up (inject_Z images_with_alt / inject_Z total_images * 100).
Proof.
  intros H. unfold coverage_percentage.
  destruct (Z.eqb_spec total_images 0); [contradiction | reflexivity].
Qed.

Example coverage_one_eighth : coverage_percentage 1 8 = 12.5.
Proof. reflexivity. Qed.

(** A tie goes up: 1 of 2000 is 0.05 per cent, reported as 0.1. *)
Example coverage_tie : coverage_percentage 1 2000 = 0.1.
Proof. reflexivity. Qed.

Example scenario_A_aggregate :
  aggregate (List.map classify scenario_A)
  = {| total_images := 3; images_with_alt := 2; images_missing_alt := 1;
       alt_text_coverage_percentage := 66.7 |}.
Proof. reflexivity. Qed.

Local Close Scope Q_scope.

Lemma count_split (p : ImageDetail.t -> bool) (l : list ImageDetail.t) :
  Z.of_nat (List.length l) = count p l + count (fun d => negb (p d)) l.
Proof.
  unfold count. induction l as [| d l IH]; simpl; [reflexivity |].
  destruct (p d); simpl List.length; lia.
Qed.

Lemma count_nonneg (p : ImageDetail.t -> bool) (l : list ImageDetail.t) :
  0 <= count p l.
Proof. unfold count. lia. Qed.

(** The aggregator's counts: total = with alt + missing alt. *)
Lemma aggregate_counts (details : list ImageDetail.t) :
  0 <= total_images (aggregate details) /\
  0 <= images_with_alt (aggregate details) /\
  0 <= images_missing_alt (aggregate details) /\
  total_images (aggregate details)
  = images_with_alt (aggregate details) + images_missing_alt (aggregate details).
Proof.
  unfold aggregate. simpl.
  pose proof (count_split ImageDetail.has_alt_text details).
  pose proof (count_nonneg ImageDetail.has_alt_text details).
  pose proof (count_nonneg (fun d => negb (ImageDetail.has_alt_text d)) details).
  lia.
Qed.

End AggregatorFacts.

(** ** The engine: scan lifecycle *)

Section LifecycleFacts.

Import Engine.

(** Open the lifecycle operation [op] on the record it finds. *)
Ltac on_record op id st Hst :=
  unfold op;
  let r := fresh "r" in
  let E := fresh "E" in
  destruct (scans st !! id) as [r |] eqn:E; [| apply Hst];
  destruct (ScanResult.scan_status r); simpl; try apply Hst;
  rewrite lookup_insert_Some;
  let H := fresh "H" in
  intros [[_ <-] | [_ H]]; [| exact (Hst _ _ H)].

Section Preservation.

(** A property of records that holds of a fresh record and of a record
    whose counts were just aggregated, and that survives a change of
    status. *)
Variable P : ScanResult.t -> Prop.

Hypothesis P_created :
  forall url user_id now st, P (snd (RequestScan url user_id now st)).
Hypothesis P_transition :
  forall s err duration now r, P r -> P (transition s err duration now r).
Hypothesis P_with_counts :
  forall details r, P (with_counts (aggregate details) r).

(** Every lifecycle operation keeps such a property on all stored
    records. *)
Lemma lifecycle_preserves (st st' : Store) :
  lifecycle st st' ->
  (forall id r, scans st !! id = Some r -> P r) ->
  (forall id r, scans st' !! id = Some r -> P r).
Proof.
  intros Hstep Hst id' r'.
  destruct Hstep as [url user_id now st | id now st
                    | id details duration now st
                    | id e duration now st | id now st].
  - unfold RequestScan. simpl. rewrite lookup_insert_Some.
    intros [[_ <-] | [_ H]]; [| exact (Hst _ _ H)].
    apply (P_created url user_id now st).
  - on_record begin_run id st Hst. apply P_transition. exact (Hst _ _ E).
  - on_record complete id st Hst. apply P_with_counts.
  - on_record fail id st Hst; apply P_transition; exact (Hst _ _ E).
  - on_record RetryScan id st Hst. apply P_transition. exact (Hst _ _ E).
Qed.

Lemma reachable_store_preserves (st : Store) :
  reachable_store st -> forall id r, scans st !! id = Some r -> P r.
Proof.
  induction 1 as [| st st' _ IH Hstep].
  - intros id r. unfold empty_store. simpl. rewrite lookup_empty. discriminate.
  - exact (lifecycle_preserves st st' Hstep IH).
Qed.

End Preservation.

Lemma counts_consistent_created (url : string) (user_id : Z) (now : string)
    (st : Store) :
  counts_consistent (snd (RequestScan url user_id now st)).
Proof. unfold counts_consistent. simpl. lia. Qed.

Lemma counts_consistent_with_counts (details : list ImageDetail.t)
    (r : ScanResult.t) :
  counts_consistent (with_counts (aggregate details) r).
Proof. unfold counts_consistent. simpl. apply aggregate_counts. Qed.

(** The stored coverage follows the stored counts through the lifecycle. *)
Lemma reachable_coverage_consistent (st : Store) (id : Z) (r : ScanResult.t) :
  reachable_store st -> scans st !! id = Some r -> coverage_consistent r.
Proof.
  intros Hreach. revert id r.
  apply (reachable_store_preserves coverage_consistent); try exact Hreach.
  - reflexivity.
  - intros s err duration now r H. exact H.
  - reflexivity.
Qed.

(** C3. The counts of every ScanResult the lifecycle can produce, the
    completed ones in particular, are non-negative and satisfy
    [total_images = images_with_alt + images_missing_alt]; the invariant
    holds of the counts the aggregator computes and is preserved by each of
    create, run, complete, fail and retry. *)
Theorem counts_invariant :
  (forall details : list ImageDetail.t,
      0 <= total_images (aggregate details) /\
      0 <= images_with_alt (aggregate details) /\
      0 <= images_missing_alt (aggregate details) /\
      total_images (aggregate details)
      = images_with_alt (aggregate details)
        + images_missing_alt (aggregate details)) /\
  (forall st st' : Store,
      lifecycle st st' ->
      (forall id r, scans st !! id = Some r -> counts_consistent r) ->
      (forall id r, scans st' !! id = Some r -> counts_consistent r)) /\
  (forall (st : Store) (id : Z) (r : ScanResult.t),
      reachable_store st -> scans st !! id = Some r ->
      0 <= ScanResult.total_images r /\
      0 <= ScanResult.images_with_alt r /\
      0 <= ScanResult.images_missing_alt r /\
      ScanResult.total_images r
      = ScanResult.images_with_alt r + ScanResult.images_missing_alt r).
Proof.
  assert (Hkeep : forall s err duration now r,
             counts_consistent r ->
             counts_consistent (transition s err duration now r))
    by (intros s err duration now r H; exact H).
  split; [exact aggregate_counts |]. split.
  - apply (lifecycle_preserves counts_consistent);
      auto using counts_consistent_created, counts_consistent_with_counts.
  - intros st id r Hreach. revert id r.
    apply (reachable_store_preserves counts_consistent);
      auto using counts_consistent_created, counts_consistent_with_counts.
Qed.

Lemma store_completed_reachable : reachable_store store_completed.
Proof.
  unfold store_completed, store_running, store_requested.
  repeat (eapply reachable_next; [| constructor]). apply reachable_empty.
Qed.

Lemma counts_invariant_witness :
  ScanResult.total_images scan_completed = 3 /\
  counts_consistent scan_completed.
Proof.
  destruct counts_invariant as (_ & _ & H).
  split; [reflexivity |].
  apply (H store_completed 1); [apply store_completed_reachable |].
  vm_compute. reflexivity.
Defined.

Example retry_completed_rejected :
  RetryScan 1 "2024-01-02T09:00:00Z" store_completed
  = (store_completed, inl (InvalidTransition completed)).
Proof. reflexivity. Qed.

(** Scenario B: the scan of 192.168.1.5 goes from pending to failed, with
    a message that names no address, and has no rows. *)
Example scenario_B :
  scans store_failed !! 2
  = Some {| ScanResult.id := 2;
            ScanResult.url := "http://intranet.example/";
            ScanResult.total_images := 0;
            ScanResult.images_with_alt := 0;
            ScanResult.images_missing_alt := 0;
            ScanResult.scan_status := failed;
            ScanResult.error_message := Some "Destination is not allowed";
            ScanResult.scan_duration_ms := Some 3;
            ScanResult.alt_text_coverage_percentage := 0%Q;
            ScanResult.missing_alt_percentage := 0%Q;
            ScanResult.created_at := "2024-01-01T11:00:00Z";
            ScanResult.updated_at := "2024-01-01T11:00:01Z";
            ScanResult.user_id := 7 |} /\
  image_details store_failed !! 2 = None.
Proof. split; vm_compute; reflexivity. Qed.

(** Scenario D: after the retry the error is gone and the counts are those
    of the new rows. *)
Example scenario_D :
  option_map
    (fun r => (ScanResult.scan_status r, ScanResult.error_message r,
               ScanResult.total_images r, ScanResult.images_with_alt r,
               ScanResult.alt_text_coverage_percentage r))
    (scans store_retried !! 2)
  = Some (completed, None, 3, 2, 66.7%Q) /\
  option_map (@List.length ImageDetail.t) (image_details store_retried !! 2)
  = Some 3%nat.
Proof. split; vm_compute; reflexivity. Qed.

Example retry_failed_accepted :
  option_map ScanResult.scan_status
    (scans (fst (RetryScan 2 "2024-01-02T09:00:00Z" store_failed)) !! 2)
  = Some pending.
Proof. vm_compute. reflexivity. Qed.

(** What an accepted retry does: back to [pending], error cleared, rows of
    the id discarded. *)
Lemma retry_failed (st : Store) (id : Z) (now : string) (r : ScanResult.t) :
  scans st !! id = Some r -> ScanResult.scan_status r = failed ->
  exists r',
    snd (RetryScan id now st) = inr r' /\
    scans (fst (RetryScan id now st)) !! id = Some r' /\
    ScanResult.scan_status r' = pending /\
    ScanResult.error_message r' = None /\
    image_details (fst (RetryScan id now st)) !! id = None.
Proof.
  intros Hr Hs. unfold RetryScan. rewrite Hr, Hs. simpl.
  eexists. split; [reflexivity |].
  rewrite lookup_insert_eq, lookup_delete_eq. auto.
Qed.

(** C5. For a ScanResult that is [completed] or [running], RetryScan is
    rejected with an invalid-transition error and returns the store as it
    was, so the record and its ImageDetail rows are unchanged; RetryScan is
    accepted exactly when the current status is [failed]; the client offers
    the Retry button for a failed scan only, and keeps its copy of the scan
    when the retry call is rejected. *)
Theorem retry_guard (st : Store) (id : Z) (now : string) (r : ScanResult.t) :
  scans st !! id = Some r ->
  (ScanResult.scan_status r = completed \/ ScanResult.scan_status r = running ->
   RetryScan id now st
   = (st, inl (InvalidTransition (ScanResult.scan_status r))) /\
   scans (fst (RetryScan id now st)) !! id = Some r /\
   image_details (fst (RetryScan id now st)) !! id = image_details st !! id) /\
  ((exists r', snd (RetryScan id now st) = inr r') <->
   ScanResult.scan_status r = failed) /\
  (ScanResults.retry_offered r = true <-> ScanResult.scan_status r = failed) /\
  (forall (view : ScanResults.t) (code : Z),
      ScanResults.scan (ScanResults.handleRetry (rejected_response code) view)
      = ScanResults.scan view).
Proof.
  intros Hr. split; [| split; [| split]].
  - intros Hs.
    assert (E : RetryScan id now st
                = (st, inl (InvalidTransition (ScanResult.scan_status r)))).
    { unfold RetryScan. rewrite Hr. destruct Hs as [-> | ->]; reflexivity. }
    rewrite E. simpl. auto.
  - unfold RetryScan. rewrite Hr.
    destruct (ScanResult.scan_status r); simpl; split;
      try discriminate; try reflexivity.
    + intros (r' & H). discriminate H.
    + intros (r' & H). discriminate H.
    + intros (r' & H). discriminate H.
    + intros _. eexists. reflexivity.
  - unfold ScanResults.retry_offered.
    destruct (ScanResult.scan_status r); simpl; split; congruence.
  - intros view code. reflexivity.
Qed.

Lemma retry_guard_witness :
  RetryScan 1 "2024-01-02T09:00:00Z" store_completed
  = (store_completed, inl (InvalidTransition completed)) /\
  RetryScan 1 "2024-01-02T09:00:00Z" store_running
  = (store_running, inl (InvalidTransition running)).
Proof.
  split.
  - refine (proj1
      (proj1 (retry_guard store_completed 1 "2024-01-02T09:00:00Z"
                scan_completed _) _)).
    + vm_compute. reflexivity.
    + left. reflexivity.
  - refine (proj1
      (proj1 (retry_guard store_running 1 "2024-01-02T09:00:00Z"
                scan_running _) _)).
    + vm_compute. reflexivity.
    + right. reflexivity.
Defined.

End LifecycleFacts.

Section CoverageFacts.

Import Engine.

Local Open Scope Q_scope.

(** C4. The coverage percentage is [images_with_alt / total_images * 100]
    rounded half up to one decimal: for a non-zero total it is a whole
    number of tenths, at most 1/20 above the exact quotient and less than
    1/20 below it; it is exactly 0 when [total_images = 0]; 2 images with
    alt out of 3 give 66.7, also when counted by the aggregator on the page
    of scenario A; and every ScanResult the lifecycle can produce stores the
    coverage computed from its own counts. *)
Theorem coverage_percentage_spec (images_with_alt total_images : Z) :
  (total_images = 0%Z ->
   coverage_percentage images_with_alt total_images = 0) /\
  (total_images <> 0%Z ->
   let exact := inject_Z images_with_alt / inject_Z total_images * 100 in
   let c := coverage_percentage images_with_alt total_images in
   exists tenths : Z,
     c = Qmake tenths 10 /\ exact - (1 # 20) < c /\ c <= exact + (1 # 20)) /\
  coverage_percentage 2 3 = 66.7 /\
  alt_text_coverage_percentage (aggregate (List.map classify scenario_A))
  = 66.7 /\
  (forall (st : Store) (id : Z) (r : ScanResult.t),
      reachable_store st -> scans st !! id = Some r ->
      ScanResult.alt_text_coverage_percentage r
      = coverage_percentage (ScanResult.images_with_alt r)
          (ScanResult.total_images r)).
Proof.
  split; [intros ->; apply coverage_no_images |].
  split; [| split; [reflexivity | split; [reflexivity |]]].
  - intros H. cbv zeta. rewrite (coverage_rounded _ _ H).
    apply round1_half_up_spec.
  - exact reachable_coverage_consistent.
Qed.

Lemma coverage_percentage_spec_witness :
  exists tenths : Z,
    coverage_percentage 7 9 = Qmake tenths 10 /\
    inject_Z 7 / inject_Z 9 * 100 - (1 # 20) < coverage_percentage 7 9 /\
    coverage_percentage 7 9 <= inject_Z 7 / inject_Z 9 * 100 + (1 # 20).
Proof.
  apply (coverage_percentage_spec 7 9). discriminate.
Defined.

End CoverageFacts.

(** ** The engine: the SSRF guard *)

Section ValidatorFacts.

Import Engine.

Lemma shiftr_eq_range (n k q : Z) :
  0 <= k ->
  (Z.shiftr n k = q <-> q * 2 ^ k <= n < (q + 1) * 2 ^ k).
Proof.
  intros Hk. rewrite Z.shiftr_div_pow2 by exact Hk.
  assert (Hp : 0 < 2 ^ k) by (apply Z.pow_pos_nonneg; lia).
  pose proof (Z.div_mod n (2 ^ k) ltac:(lia)) as Hdm.
  pose proof (Z.mod_pos_bound n (2 ^ k) Hp) as Hb.
  set (p := 2 ^ k) in *.
  split; intros H.
  - subst q. nia.
  - symmetry. apply Z.div_unique with (r := n - q * p); [left |]; nia.
Qed.

Lemma in_network_10 (n : Z) :
  in_network 32 n (v4 10 0 0 0) 8 = true <-> 10 * 2 ^ 24 <= n < 11 * 2 ^ 24.
Proof.
  unfold in_network. rewrite Z.eqb_eq.
  change (Z.shiftr (v4 10 0 0 0) (32 - 8)) with 10. change (32 - 8) with 24.
  apply shiftr_eq_range. lia.
Qed.

Lemma in_network_169_254 (n : Z) :
  in_network 32 n (v4 169 254 0 0) 16 = true <->
  169 * 2 ^ 24 + 254 * 2 ^ 16 <= n < 169 * 2 ^ 24 + 255 * 2 ^ 16.
Proof.
  unfold in_network. rewrite Z.eqb_eq.
  change (Z.shiftr (v4 169 254 0 0) (32 - 16)) with 43518.
  change (32 - 16) with 16.
  split; intros H.
  - apply shiftr_eq_range in H; lia.
  - apply shiftr_eq_range; lia.
Qed.

(** Every destination on the list of section 8 is non-public. *)
Lemma listed_internal_non_public (a : IPAddress) :
  listed_internal a -> is_non_public a = true.
Proof.
  unfold is_non_public, listed_internal. rewrite !orb_true_iff.
  destruct a as [n | n].
  - intros [-> | [H | H]].
    + do 5 left. vm_compute. reflexivity.
    + do 3 left. right. unfold is_private. rewrite !orb_true_iff.
      do 2 left. now apply in_network_10.
    + do 4 left. right. unfold is_link_local. now apply in_network_169_254.
  - intros ->. do 5 left. reflexivity.
Qed.

Lemma existsb_non_public (addrs : list IPAddress) (a : IPAddress) :
  In a addrs -> listed_internal a -> List.existsb is_non_public addrs = true.
Proof.
  intros Hin Ha. apply List.existsb_exists. exists a.
  split; [exact Hin | now apply listed_internal_non_public].
Qed.

Lemma scheme_check (u : URL) :
  String.eqb (scheme u) "http" || String.eqb (scheme u) "https" = true <->
  http_or_https u.
Proof.
  unfold http_or_https. rewrite orb_true_iff, !String.eqb_eq. reflexivity.
Qed.

(** What the validator answers for a host with a listed address,
    whatever the scheme. *)
Lemma validate_listed (dns : string -> option (list IPAddress)) (u : URL)
    (addrs : list IPAddress) (a : IPAddress) :
  dns (host u) = Some addrs -> In a addrs -> listed_internal a ->
  validate dns u = Refused SSRFBlocked.
Proof.
  intros Hdns Hin Ha. unfold validate. rewrite Hdns.
  now rewrite (existsb_non_public _ a Hin Ha).
Qed.

(** What an accepted URL looks like. *)
Lemma validate_safe (dns : string -> option (list IPAddress)) (u v : URL) :
  validate dns u = SafeURL v ->
  v = u /\ http_or_https u /\
  exists addrs, dns (host u) = Some addrs /\ addrs <> [] /\
                forall a, In a addrs -> is_non_public a = false.
Proof.
  unfold validate.
  destruct (String.eqb (scheme u) "http" || String.eqb (scheme u) "https")
    eqn:Hs; cbn [negb];
    destruct (dns (host u)) as [addrs |]; try discriminate;
    destruct (List.existsb is_non_public addrs) eqn:He; try discriminate.
  destruct addrs as [| b addrs]; [discriminate |].
  intros [= <-]. split; [reflexivity |]. split; [now apply scheme_check |].
  exists (b :: addrs). split; [reflexivity |]. split; [discriminate |].
  intros a Hin. destruct (is_non_public a) eqn:Ea; [| reflexivity].
  assert (List.existsb is_non_public (b :: addrs) = true)
    by (apply List.existsb_exists; eauto).
  congruence.
Qed.

(** A URL with another scheme is never let through: it is refused as
    SSRFBlocked when its host resolves to a non-public address, and on
    scheme grounds otherwise. *)
Lemma validate_scheme (dns : string -> option (list IPAddress)) (u : URL) :
  ~ http_or_https u ->
  validate dns u = Refused SSRFBlocked \/
  validate dns u = Refused (ValidationError "unsupported scheme").
Proof.
  intros Hn. unfold validate.
  destruct (String.eqb (scheme u) "http" || String.eqb (scheme u) "https")
    eqn:Hs; [apply scheme_check in Hs; contradiction |].
  cbn [negb]. destruct (dns (host u)) as [addrs |]; [| now right].
  destruct (List.existsb is_non_public addrs); [now left | now right].
Qed.

End ValidatorFacts.

(** ** The engine: the pipeline *)

Section PipelineFacts.

Import Engine.

Variable dns : string -> option (list IPAddress).
Variable http : nat -> URL -> HopResult.
Variable extract : string -> URL -> list RawImageRef.

Local Abbreviation step := (Engine.step dns http extract).
Local Abbreviation reachable := (Engine.reachable dns http extract).
Local Abbreviation execute := (Engine.execute dns http extract).

Lemma step_stopped (u : URL) (r : Run) :
  stage r = Stopped <-> step u r = None.
Proof.
  unfold Engine.step. destruct (stage r) as [| v hops | html final |].
  - destruct (validate dns u); split; discriminate.
  - destruct (http hops v) as [loc | code is_html bytes html | |];
      repeat match goal with
             | |- context [if ?b then _ else _] => destruct b
             | |- context [match validate dns ?x with _ => _ end] =>
                 destruct (validate dns x)
             end; split; discriminate.
  - split; discriminate.
  - split; reflexivity.
Qed.

(** A refused URL: one step, to [failed], and then nothing. *)
Lemma step_refused (u : URL) (e : EngineError) :
  validate dns u = Refused e -> step u start = Some (fail_with e start).
Proof. intros H. unfold Engine.step. simpl. now rewrite H. Qed.

Lemma reachable_refused (u : URL) (e : EngineError) (r : Run) :
  validate dns u = Refused e -> reachable u r ->
  r = start \/ r = fail_with e start.
Proof.
  intros Hv Hr. induction Hr as [| r r' _ IH Hstep]; [now left |].
  destruct IH as [-> | ->].
  - rewrite (step_refused u e Hv) in Hstep. right. congruence.
  - discriminate Hstep.
Qed.

Lemma execute_refused (u : URL) (e : EngineError) (fuel : nat) :
  validate dns u = Refused e ->
  execute (S fuel) u start = fail_with e start.
Proof.
  intros Hv. simpl. rewrite (step_refused u e Hv). destruct fuel; reflexivity.
Qed.

(** Split a step [Hstep : step u r = Some r'] into its cases, one per
    branch of the pipeline, and read [r'] off each. *)
Ltac step_cases Hstep :=
  unfold Engine.step in Hstep;
  repeat match type of Hstep with
         | context [match stage ?r with _ => _ end] =>
             let E := fresh "Hstage" in destruct (stage r) eqn:E
         | context [match validate ?d ?x with _ => _ end] =>
             let E := fresh "Hvalid" in destruct (validate d x) eqn:E
         | context [match http ?n ?v with _ => _ end] =>
             let E := fresh "Hhop" in destruct (http n v) eqn:E
         | context [if ?b then _ else _] =>
             let E := fresh "Hif" in destruct b eqn:E
         end;
  try discriminate Hstep;
  injection Hstep as <-; simpl.

(** The fetcher is only ever pointed at vetted URLs. *)
Lemma step_fetches_vetted (u : URL) (r r' : Run) :
  step u r = Some r' ->
  fetches_vetted dns r -> fetches_vetted dns r'.
Proof.
  unfold fetches_vetted, vetted. intros Hstep [Hlog Hst].
  step_cases Hstep;
    repeat match goal with
           | H : validate dns ?x = SafeURL ?y |- _ =>
               destruct (validate_safe dns x y H) as [-> _]
           end;
    (split; [| solve [exact I | assumption]]);
    try assumption;
    (apply Forall_app; split; [exact Hlog | now constructor]).
Qed.

Lemma reachable_fetches_vetted (u : URL) (r : Run) :
  reachable u r -> fetches_vetted dns r.
Proof.
  induction 1 as [| r r' _ IH Hstep].
  - split; [constructor | exact I].
  - exact (step_fetches_vetted u r r' Hstep IH).
Qed.

(** Every step uses up one of the steps left. *)
Lemma step_decreases (u : URL) (r r' : Run) :
  step u r = Some r' -> hops_bounded r ->
  (steps_left r' < steps_left r)%nat /\ hops_bounded r'.
Proof.
  unfold steps_left, hops_bounded, max_redirects. intros Hstep Hb.
  step_cases Hstep;
    try match goal with
        | H : (_ <=? _)%nat = false |- _ => apply Nat.leb_gt in H
        end;
    unfold max_redirects in *; lia.
Qed.

Lemma reachable_status (u : URL) (r : Run) :
  reachable u r -> status_fits_stage r.
Proof.
  induction 1 as [| r r' _ IH Hstep]; [reflexivity |].
  unfold status_fits_stage. step_cases Hstep; auto.
Qed.

Lemma execute_stops (u : URL) (fuel : nat) (r : Run) :
  hops_bounded r -> (steps_left r <= fuel)%nat ->
  stage (execute fuel u r) = Stopped.
Proof.
  revert r. induction fuel as [| fuel IH]; intros r Hb Hfuel.
  - simpl. unfold steps_left in Hfuel. unfold hops_bounded, max_redirects in Hb.
    destruct (stage r) as [| v hops | |]; try lia. reflexivity.
  - simpl. destruct (step u r) as [r' |] eqn:Hstep.
    + destruct (step_decreases u r r' Hstep Hb) as [Hlt Hb'].
      apply IH; [exact Hb' | lia].
    + now apply (step_stopped u).
Qed.

Lemma execute_reachable (u : URL) (fuel : nat) (r : Run) :
  reachable u r -> reachable u (execute fuel u r).
Proof.
  revert r. induction fuel as [| fuel IH]; intros r Hr; simpl; [exact Hr |].
  destruct (step u r) as [r' |] eqn:Hstep; [| exact Hr].
  apply IH. exact (reachable_step dns http extract u r r' Hr Hstep).
Qed.

(** Every run of the pipeline ends, within nine steps, completed or
    failed. *)
Lemma pipeline_terminates (u : URL) :
  stage (execute 9 u start) = Stopped /\
  (status (execute 9 u start) = completed \/
   status (execute 9 u start) = failed).
Proof.
  assert (Hs : stage (execute 9 u start) = Stopped)
    by (apply execute_stops; [exact I | exact (le_n 9)]).
  split; [exact Hs |].
  pose proof (reachable_status u _
                (execute_reachable u 9 start (reachable_start _ _ _ u))) as H.
  unfold status_fits_stage in H. now rewrite Hs in H.
Qed.

(** C2. In every reachable state of the pipeline, for every requested
    URL, each URL an outbound request was issued to (the requested one and
    every redirect target) resolves only to public addresses, none of them
    127.0.0.1, in 10.0.0.0/8, in 169.254.0.0/16 or ::1. When the requested
    URL's host resolves to an address on that list, whatever its scheme,
    no reachable state has fetched anything, and the run stops after its
    first step in status [failed] with the error SSRFBlocked and no
    ImageDetail rows. *)
Theorem ssrf_guard (u : URL) :
  (forall r : Run,
      reachable u r ->
      Forall (fun v => exists addrs,
                  dns (host v) = Some addrs /\
                  forall a, In a addrs ->
                            is_non_public a = false /\ ~ listed_internal a)
             (fetched r)) /\
  (forall (addrs : list IPAddress) (a : IPAddress),
      dns (host u) = Some addrs -> In a addrs -> listed_internal a ->
      (forall r : Run, reachable u r -> fetched r = []) /\
      (forall fuel : nat,
          status (execute (S fuel) u start) = failed /\
          error (execute (S fuel) u start) = Some SSRFBlocked /\
          step u (execute (S fuel) u start) = None /\
          fetched (execute (S fuel) u start) = [] /\
          images (execute (S fuel) u start) = []) /\
      (forall r : Run,
          reachable u r -> step u r = None ->
          status r = failed /\ error r = Some SSRFBlocked)).
Proof.
  split.
  - intros r Hr. destruct (reachable_fetches_vetted u r Hr) as [Hlog _].
    eapply List.Forall_impl; [| exact Hlog]. intros v Hv.
    destruct (validate_safe dns v v Hv) as (_ & _ & addrs & Hdns & _ & Hpub).
    exists addrs. split; [exact Hdns |]. intros a Hin.
    split; [exact (Hpub a Hin) |]. intros Ha.
    apply listed_internal_non_public in Ha. rewrite (Hpub a Hin) in Ha.
    discriminate Ha.
  - intros addrs a Hdns Hin Ha.
    pose proof (validate_listed dns u addrs a Hdns Hin Ha) as Hv.
    split; [| split].
    + intros r Hr.
      destruct (reachable_refused u _ r Hv Hr) as [-> | ->]; reflexivity.
    + intros fuel. rewrite (execute_refused u _ fuel Hv). repeat split.
    + intros r Hr Hstop.
      destruct (reachable_refused u _ r Hv Hr) as [-> | ->].
      * rewrite (step_refused u _ Hv) in Hstop. discriminate Hstop.
      * split; reflexivity.
Qed.

End PipelineFacts.

Section PipelineExamples.

Import Engine.

Example scan_of_public_page :
  execute example_dns example_http example_extract 9
    (mkURL "https" "example.com" None "/") start
  = {| status := completed; error := None; stage := Stopped;
       fetched := [mkURL "https" "example.com" None "/"];
       images := List.map classify scenario_A |}.
Proof. reflexivity. Qed.

(** One internal address among the resolved ones is enough. *)
Example scan_of_mixed_host :
  execute example_dns example_http example_extract 9
    (mkURL "http" "metadata.internal" (Some 80) "/latest/meta-data") start
  = {| status := failed; error := Some SSRFBlocked; stage := Stopped;
       fetched := []; images := [] |}.
Proof. reflexivity. Qed.

(** A redirect to an internal host is refused before it is followed. *)
Example scan_redirected_inside :
  execute example_dns
    (fun n u => Redirect (mkURL "http" "localhost" (Some 8080) "/admin"))
    example_extract 9 (mkURL "https" "example.com" None "/") start
  = {| status := failed; error := Some SSRFBlocked; stage := Stopped;
       fetched := [mkURL "https" "example.com" None "/"]; images := [] |}.
Proof. reflexivity. Qed.

(** A URL with another scheme whose host resolves to 127.0.0.1: nothing
    is fetched and the run fails with SSRFBlocked. *)
Example scan_of_other_scheme :
  execute example_dns example_http example_extract 9
    (mkURL "ftp" "localhost" None "/") start
  = {| status := failed; error := Some SSRFBlocked;
       stage := Stopped; fetched := []; images := [] |}.
Proof. reflexivity. Qed.

(** An IPv4-mapped loopback address is not public; a global unicast
    IPv6 address is. *)
Example mapped_loopback_non_public :
  is_non_public (IPv6 (Z.shiftl 0xffff 32 + v4 127 0 0 1)) = true /\
  is_non_public (IPv6 (Z.shiftl 0x2606 112 + 1)) = false.
Proof. split; vm_compute; reflexivity. Qed.

Lemma ssrf_guard_witness :
  status (execute example_dns example_http example_extract 1
            (mkURL "ftp" "localhost" None "/") start) = failed /\
  error (execute example_dns example_http example_extract 1
           (mkURL "ftp" "localhost" None "/") start) = Some SSRFBlocked /\
  fetched (execute example_dns example_http example_extract 1
             (mkURL "ftp" "localhost" None "/") start) = [].
Proof.
  destruct (proj2 (ssrf_guard example_dns example_http example_extract
                     (mkURL "ftp" "localhost" None "/"))
              [ipv4 127 0 0 1] (ipv4 127 0 0 1))
    as (_ & H & _).
  - reflexivity.
  - left. reflexivity.
  - left. reflexivity.
  - destruct (H 0%nat) as (H1 & H2 & _ & H4 & _).
    split; [exact H1 | split; [exact H2 | exact H4]].
Defined.

End PipelineExamples.

(* ===================================================================== *)
(** * Part III: further properties of the client                           *)
(* ===================================================================== *)

(** ** More on strings *)


(** ** The image list: search *)

Section ImageSearchFacts.

Import ImageList.

(** [String.prototype.toLowerCase], whatever the runtime's mapping is. *)
Variable toLowerCase : string -> string.

Local Abbreviation filteredImages := (ImageList.filteredImages toLowerCase).

Local Abbreviation found := (ImageList.found toLowerCase).

Example filteredImages_by_alt :
  List.map ImageDetail.id
    (ImageList.filteredImages JS.ascii_toLowerCase
       {| images :=
            [ ImageDetail.mk 1 9 "https://example.com/a.png" (Some "A Cat")
                true (Some 5) None None false "";
              ImageDetail.mk 2 9 "https://example.com/cat.png" None
                false None None None false "";
              ImageDetail.mk 3 9 "https://example.com/b.png" (Some "")
                true None None None true "" ];
          isLoading := false; filters := ImageFilters.empty;
          showFilters := false; searchTerm := "CAT";
          currentPage := 0; hasMore := false |})
  = [1; 2].
Proof. reflexivity. Qed.

(** The search predicate, without the truthiness tests. *)
Lemma matches_spec (term : string) (image : ImageDetail.t) :
  matches toLowerCase term image = true <-> found term image.
Proof.
  unfold matches, ImageList.found.
  destruct term as [| c term]; cbn [JS.truthy_string].
  - split; [now left | reflexivity].
  - rewrite orb_true_iff, includes_substring. split.
    + intros [H | H]; [right; now left |].
      destruct (ImageDetail.alt_text image) as [alt |]; [| discriminate H].
      apply andb_true_iff in H as [Halt H].
      apply truthy_string_nonempty in Halt.
      apply includes_substring in H as (pre & post & H).
      right. right. now exists alt, pre, post.
    + intros [H | [H | (alt & pre & post & Halt & Hne & H)]];
        [discriminate H | now left |].
      right. rewrite Halt. apply andb_true_iff. split.
      * now apply truthy_string_nonempty.
      * apply includes_substring. now exists pre, post.
Qed.

(** X1. [filteredImages] shows the loaded images in their order, leaving
    out exactly those in which the search term is not found: the term is
    found in an image when it is empty, or when its lower-cased form
    occurs in the lower-cased URL or in the lower-cased, non-empty alt
    text. With an empty term every image is shown, and two terms with the
    same lower-case form show the same images. *)
Theorem filteredImages_spec (st : ImageList.t) :
  (forall image : ImageDetail.t,
      In image (filteredImages st) <->
      In image (images st) /\ found (searchTerm st) image) /\
  sublist (filteredImages st) (images st) /\
  (forall kept : list ImageDetail.t,
      sublist kept (images st) ->
      (forall image, In image kept -> found (searchTerm st) image) ->
      sublist kept (filteredImages st)) /\
  (searchTerm st = EmptyString -> filteredImages st = images st) /\
  (forall term : string,
      searchTerm st <> EmptyString -> term <> EmptyString ->
      toLowerCase term = toLowerCase (searchTerm st) ->
      filteredImages (handleSearch term st) = filteredImages st).
Proof.
  split; [| split; [| split; [| split]]].
  - intros image. unfold ImageList.filteredImages.
    now rewrite filter_In, matches_spec.
  - apply filter_sublist.
  - intros kept Hsub Hall. apply filter_maximal; [exact Hsub |].
    intros image Hin. apply matches_spec. now apply Hall.
  - intros E. unfold ImageList.filteredImages. rewrite E.
    induction (images st) as [| i l IH]; simpl; congruence.
  - intros term Hne Hne' Hlow. unfold ImageList.filteredImages.
    cbn [handleSearch images searchTerm].
    apply filter_ext. intros image. apply eq_true_iff_eq.
    rewrite !matches_spec. unfold ImageList.found. rewrite Hlow. intuition.
Qed.

End ImageSearchFacts.

Lemma filteredImages_spec_witness :
  In (ImageDetail.mk 2 9 "https://example.com/cat.png" None
        false None None None false "")
     (ImageList.filteredImages JS.ascii_toLowerCase
        {| ImageList.images :=
             [ ImageDetail.mk 1 9 "https://example.com/a.png" (Some "A Dog")
                 true (Some 5) None None false "";
               ImageDetail.mk 2 9 "https://example.com/cat.png" None
                 false None None None false "" ];
           ImageList.isLoading := false;
           ImageList.filters := ImageFilters.empty;
           ImageList.showFilters := false;
           ImageList.searchTerm := "CAT";
           ImageList.currentPage := 0;
           ImageList.hasMore := false |}).
Proof.
  apply (proj1 (filteredImages_spec JS.ascii_toLowerCase _)).
  split; [right; left; reflexivity |].
  right. left. exists "https://example.com/", ".png". reflexivity.
Defined.

(** ** The image list: badges, filter select, requests *)

Section ImageListViewFacts.

Import ImageList.

(** The tier as a decision on the three fields. *)
Lemma getAltTextQuality_cases (image : ImageDetail.t) :
  getAltTextQuality image =
  if negb (ImageDetail.has_alt_text image) then "missing"
  else if ImageDetail.is_decorative image then "decorative"
  else match ImageDetail.alt_text_length image with
       | None => "poor"
       | Some n => if n <? 5 then "poor"
                   else if 125 <? n then "too-long" else "good"
       end.
Proof.
  unfold getAltTextQuality.
  destruct (ImageDetail.has_alt_text image),
           (ImageDetail.is_decorative image); try reflexivity.
  destruct (ImageDetail.alt_text_length image) as [n |]; [| reflexivity].
  simpl. rewrite Z.gtb_ltb.
  destruct (Z.eqb_spec n 0) as [-> | _]; [reflexivity |]. reflexivity.
Qed.

(** X2. The badge of an image: red exactly when the image has no alt
    attribute, green exactly for a non-decorative alt text of 5 to 125
    characters, amber exactly for a non-decorative alt text that is
    shorter, longer or of unrecorded length, grey exactly for a decorative
    image that has an alt attribute; and the badge text never shows a
    hyphen. *)
Theorem quality_badge (image : ImageDetail.t) :
  let h := ImageDetail.has_alt_text image in
  let d := ImageDetail.is_decorative image in
  let len := ImageDetail.alt_text_length image in
  let color := getQualityColor (getAltTextQuality image) in
  (color = "text-error-600 bg-error-100" <-> h = false) /\
  (color = "text-secondary-600 bg-secondary-100" <-> h = true /\ d = true) /\
  (color = "text-success-600 bg-success-100" <->
   h = true /\ d = false /\ exists n, len = Some n /\ 5 <= n <= 125) /\
  (color = "text-warning-600 bg-warning-100" <->
   h = true /\ d = false /\
   (len = None \/ exists n, len = Some n /\ (n < 5 \/ 125 < n))) /\
  JS.some_char (Ascii.eqb "-") (badge_text (getAltTextQuality image)) = false.
Proof.
  cbv zeta. rewrite getAltTextQuality_cases.
  destruct (ImageDetail.has_alt_text image),
           (ImageDetail.is_decorative image),
           (ImageDetail.alt_text_length image) as [n |];
    cbn [negb];
    try (destruct (Z.ltb_spec n 5) as [H5 | H5];
         [| destruct (Z.ltb_spec 125 n) as [H125 | H125]]);
    cbn;
    repeat match goal with
           | |- _ /\ _ => split
           | |- _ <-> _ => split; intro
           end;
    try reflexivity; try discriminate;
    repeat match goal with
           | H : _ /\ _ |- _ => destruct H
           | H : exists _, _ |- _ => destruct H
           | H : _ \/ _ |- _ => destruct H
           | H : Some _ = Some _ |- _ => injection H as <-
           end;
    try discriminate; try lia;
    first [ left; reflexivity
          | right; exists n; split; [reflexivity | lia]
          | exists n; split; [reflexivity | lia] ].
Qed.

(** X3. The alt-text select and the filter it edits are inverse to each
    other: choosing the value shown for a filter leaves the filter as it
    is, and after choosing one of the three options the select shows that
    option; no other filter field is touched. *)
Theorem select_round_trip (f : ImageFilters.t) :
  ImageFilters.spread f (select_change (select_value f)) = f /\
  (forall value,
      value = "" \/ value = "true" \/ value = "false" ->
      select_value (ImageFilters.spread f (select_change value)) = value) /\
  (forall value,
      let f' := ImageFilters.spread f (select_change value) in
      ImageFilters.is_decorative f' = ImageFilters.is_decorative f /\
      ImageFilters.min_width f' = ImageFilters.min_width f /\
      ImageFilters.max_width f' = ImageFilters.max_width f /\
      ImageFilters.min_height f' = ImageFilters.min_height f /\
      ImageFilters.max_height f' = ImageFilters.max_height f).
Proof.
  split; [| split].
  - destruct f as [[[] |] dec w W h H]; reflexivity.
  - intros value [-> | [-> | ->]]; reflexivity.
  - intros value. cbv zeta. repeat split.
Qed.

Lemma select_round_trip_witness :
  select_value
    (ImageFilters.spread ImageFilters.empty (select_change "false"))
  = "false".
Proof.
  apply (select_round_trip ImageFilters.empty). right. right. reflexivity.
Defined.

Lemma quality_badge_witness :
  getQualityColor
    (getAltTextQuality
       (ImageDetail.mk 4 9 "https://example.com/banner.jpg" None
          false None None None false "2024-01-01T00:00:00Z"))
  = "text-error-600 bg-error-100".
Proof.
  apply (quality_badge
           (ImageDetail.mk 4 9 "https://example.com/banner.jpg" None
              false None None None false "2024-01-01T00:00:00Z")).
  reflexivity.
Defined.

End ImageListViewFacts.

(** ** Requests for images, and paging *)

Section ImagePagingFacts.

Import ImageList.

Example getScanImages_example :
  ApiClient.getScanImages_request 12 (Some (PaginationParams.mk 40 20))
    (Some (ImageFilters.mk (Some false) (Some true) (Some 100) None None None))
  = "/scans/12/images?skip=40&limit=20&has_alt_only=false".
Proof. reflexivity. Qed.

Lemma getScanImages_request_eq (scanId : Z) (pagination : PaginationParams.t)
    (filters : ImageFilters.t) :
  ApiClient.getScanImages_request scanId (Some pagination) (Some filters)
  = ("/scans/" ++ JS.Number_toString scanId ++ "/images?skip="
     ++ JS.Number_toString (PaginationParams.skip pagination)
     ++ "&limit=" ++ JS.Number_toString (PaginationParams.limit pagination)
     ++ match ImageFilters.has_alt_only filters with
        | Some true => "&has_alt_only=true"
        | Some false => "&has_alt_only=false"
        | None => ""
        end)%string.
Proof.
  unfold ApiClient.getScanImages_request, ApiClient.getScanImages_params,
    URLSearchParams.append.
  destruct (ImageFilters.has_alt_only filters) as [[] |];
    cbn [app URLSearchParams.toString JS.Boolean_toString];
    rewrite !encode_Number_toString, ?append_nil_r; reflexivity.
Qed.

(** X4. The URL [getScanImages] requests is
    [/scans/{id}/images?skip={skip}&limit={limit}], followed by
    [&has_alt_only=true] or [&has_alt_only=false] when [has_alt_only] is
    not undefined: a [false] is sent like a [true], and no other filter
    field ever changes the request. *)
Theorem getScanImages_wire (scanId : Z) (pagination : PaginationParams.t)
    (filters : ImageFilters.t) :
  ApiClient.getScanImages_request scanId (Some pagination) (Some filters)
  = ("/scans/" ++ JS.Number_toString scanId ++ "/images?skip="
     ++ JS.Number_toString (PaginationParams.skip pagination)
     ++ "&limit=" ++ JS.Number_toString (PaginationParams.limit pagination)
     ++ match ImageFilters.has_alt_only filters with
        | Some true => "&has_alt_only=true"
        | Some false => "&has_alt_only=false"
        | None => ""
        end)%string /\
  (forall filters' : ImageFilters.t,
      ImageFilters.has_alt_only filters' = ImageFilters.has_alt_only filters ->
      ApiClient.getScanImages_request scanId (Some pagination) (Some filters')
      = ApiClient.getScanImages_request scanId (Some pagination) (Some filters)).
Proof.
  split; [apply getScanImages_request_eq |].
  - intros filters' H. unfold ApiClient.getScanImages_request,
      ApiClient.getScanImages_params. now rewrite H.
Qed.

Lemma getScanImages_wire_witness :
  ApiClient.getScanImages_request 7 (Some (PaginationParams.mk 0 20))
    (Some (ImageFilters.mk (Some true) (Some true) None None None None))
  = ApiClient.getScanImages_request 7 (Some (PaginationParams.mk 0 20))
      (Some (ImageFilters.mk (Some true) None None None None None)).
Proof.
  apply (getScanImages_wire 7 (PaginationParams.mk 0 20)
           (ImageFilters.mk (Some true) None None None None None)).
  reflexivity.
Defined.

(** X5. Choosing an option of the alt-text select. The request that
    follows asks for the first twenty images of the scan; All Images sends
    no [has_alt_only], With Alt Text sends [has_alt_only=true] and Missing
    Alt Text sends [has_alt_only=false]; its answer replaces the images
    shown, whatever page had been reached. *)
Theorem alt_filter_request (scanId : Z) (value : string) (st : ImageList.t) :
  let st' := handleFilterChange (select_change value) st in
  let args := fetchImages_args scanId st' in
  ApiClient.getScanImages_request (fst (fst args)) (Some (snd (fst args)))
    (Some (snd args))
  = ("/scans/" ++ JS.Number_toString scanId ++ "/images?skip=0&limit=20"
     ++ (if String.eqb value "" then ""
         else if String.eqb value "true" then "&has_alt_only=true"
              else "&has_alt_only=false"))%string /\
  (forall imageData, images (fetchImages_resolved imageData st') = imageData).
Proof.
  cbv zeta. split; [| reflexivity].
  rewrite getScanImages_request_eq.
  cbn [fetchImages_args handleFilterChange fst snd currentPage filters
       PaginationParams.skip PaginationParams.limit ImageFilters.spread
       ImageFilters.has_alt_only select_change ImageFilters.p_has_alt_only
       ImageFilters.override].
  change (JS.Number_toString (0 * pageSize)) with "0".
  change (JS.Number_toString pageSize) with "20".
  destruct (String.eqb value ""); [reflexivity |].
  destruct (String.eqb value "true"); reflexivity.
Qed.

End ImagePagingFacts.

(** ** The scan history: paging, deleting, filtering *)

Section ScanHistoryPagingFacts.

Import ScanHistory.

Example load_pages_example :
  let st := load_pages [[example_scan]; []] example_history in
  (List.map ScanResultSummary.id (scans st), currentPage st, hasMore st)
  = ([1], 1, false).
Proof. reflexivity. Qed.

(** Pages loaded by Load More are appended, one page number each. *)
Lemma load_more_pages (more : list (list ScanResultSummary.t)) (st : ScanHistory.t) :
  0 <= currentPage st ->
  let st' := fold_left (fun st page => fetchScans_resolved page (loadMore st))
                       more st in
  scans st' = (scans st ++ concat more)%list /\
  currentPage st' = currentPage st + Z.of_nat (List.length more) /\
  filters st' = filters st /\
  searchTerm st' = searchTerm st /\
  hasMore st'
  = match more with
    | [] => hasMore st
    | _ => Z.of_nat (List.length (List.last more [])) =? pageSize
    end.
Proof.
  revert st. induction more as [| page more IH]; intros st Hpage.
  - cbn. rewrite app_nil_r. repeat split; lia.
  - cbn [fold_left].
    set (st1 := fetchScans_resolved page (loadMore st)).
    assert (H1 : currentPage st1 = currentPage st + 1) by reflexivity.
    assert (Hs : scans st1 = (scans st ++ page)%list).
    { unfold st1. cbn. destruct (Z.eqb_spec (currentPage st + 1) 0); [lia |].
      reflexivity. }
    destruct (IH st1) as (Hsc & Hcp & Hf & Hterm & Hmore); [lia |].
    cbv zeta. rewrite Hsc, Hcp, Hf, Hterm, Hmore, Hs, H1.
    split; [cbn [concat]; now rewrite app_assoc |].
    split; [cbn [List.length]; lia |].
    split; [reflexivity |]. split; [reflexivity |].
    destruct more as [| page' more']; reflexivity.
Qed.

Lemma length_concat_full {A : Type} (n : nat) (pages : list (list A)) :
  Forall (fun page => List.length page = n) pages ->
  List.length (concat pages) = (List.length pages * n)%nat.
Proof.
  induction 1 as [| page pages Hp _ IH]; [reflexivity |].
  cbn. rewrite List.length_app, IH, Hp. reflexivity.
Qed.

Lemma load_pages_closed (first : list ScanResultSummary.t)
    (more : list (list ScanResultSummary.t)) (st : ScanHistory.t) :
  currentPage st = 0 ->
  let st' := load_pages (first :: more) st in
  scans st' = concat (first :: more) /\
  currentPage st' = Z.of_nat (List.length more) /\
  filters st' = filters st /\
  searchTerm st' = searchTerm st /\
  hasMore st'
  = (Z.of_nat (List.length (List.last (first :: more) [])) =? pageSize).
Proof.
  intros H0. unfold load_pages.
  set (st0 := fetchScans_resolved first st).
  assert (Hs0 : scans st0 = first) by (unfold st0; cbn; now rewrite H0).
  assert (Hp0 : currentPage st0 = 0) by exact H0.
  destruct (load_more_pages more st0) as (Hsc & Hcp & Hf & Hterm & Hmore);
    [lia |].
  cbv zeta. rewrite Hsc, Hcp, Hf, Hterm, Hmore, Hs0, Hp0.
  repeat split. destruct more as [| page more]; reflexivity.
Qed.

(** X6. Paging of the scan history. After the first page and any number
    of Load More pages have arrived, the list holds the pages one after
    the other, the page counter is the number of Load More pages, and Load
    More stays on offer exactly when the last page held ten scans. As long
    as every page was full, the next Load More asks for the scans after
    the ones already loaded: its [skip] is the length of the list. *)
Theorem load_pages_spec (first : list ScanResultSummary.t)
    (more : list (list ScanResultSummary.t)) (st : ScanHistory.t) :
  currentPage st = 0 ->
  let pages := first :: more in
  let st' := load_pages pages st in
  scans st' = concat pages /\
  currentPage st' = Z.of_nat (List.length more) /\
  hasMore st' = (Z.of_nat (List.length (List.last pages [])) =? 10) /\
  (Forall (fun page => List.length page = 10%nat) pages ->
   fetchScans_request (loadMore st')
   = ApiClient.getScans_request
       (Some (PaginationParams.mk (Z.of_nat (List.length (scans st'))) 10))
       (Some (filters st))).
Proof.
  intros H0.
  destruct (load_pages_closed first more st H0) as (Hsc & Hcp & Hf & _ & Hmore).
  cbv zeta. split; [exact Hsc |]. split; [exact Hcp |]. split; [exact Hmore |].
  intros Hfull. unfold fetchScans_request. cbn [loadMore currentPage filters].
  rewrite Hsc, Hcp, Hf, (length_concat_full 10 _ Hfull).
  do 3 f_equal. unfold pageSize. cbn [List.length]. lia.
Qed.

Lemma load_pages_spec_witness :
  scans (load_pages [[example_scan]; []] example_history) = [example_scan].
Proof.
  apply (load_pages_spec [example_scan] [[]] example_history). reflexivity.
Defined.

(** X7. Fetching again without turning the page, as a change of
    [refreshTrigger] does, sends the same request; on the first page the
    answer replaces the list, on any later page it is appended to the
    list, which then holds the earlier answer as well. *)
Theorem refetch_same_page (page page' : list ScanResultSummary.t)
    (st : ScanHistory.t) :
  fetchScans_request (fetchScans_resolved page st) = fetchScans_request st /\
  (currentPage st = 0 ->
   scans (fetchScans_resolved page' (fetchScans_resolved page st)) = page') /\
  (currentPage st <> 0 ->
   scans (fetchScans_resolved page' (fetchScans_resolved page st))
   = (scans st ++ page ++ page')%list).
Proof.
  split; [reflexivity |]. split; intros H; cbn.
  - now rewrite H.
  - destruct (Z.eqb_spec (currentPage st) 0); [contradiction |].
    now rewrite <- app_assoc.
Qed.

Lemma refetch_same_page_witness :
  scans (fetchScans_resolved [example_scan]
           (fetchScans_resolved [example_scan] (loadMore example_history)))
  = (scans example_history ++ [example_scan] ++ [example_scan])%list.
Proof.
  apply (refetch_same_page [example_scan] [example_scan]
           (loadMore example_history)).
  discriminate.
Defined.

End ScanHistoryPagingFacts.

(** ** The scan history: deleting a scan, changing a filter *)

Section ScanHistoryEditFacts.

Import ScanHistory.

(** [String.prototype.toLowerCase], whatever the runtime's mapping is. *)
Variable toLowerCase : string -> string.

Local Abbreviation filteredScans := (ScanHistory.filteredScans toLowerCase).

Lemma filter_length_lt {A : Type} (f : A -> bool) (l : list A) (x : A) :
  In x l -> f x = false ->
  (List.length (List.filter f l) < List.length l)%nat.
Proof.
  intros Hin Hx. induction l as [| a l IH]; [destruct Hin |].
  pose proof (List.filter_length_le f l) as Hle.
  cbn. destruct Hin as [-> | Hin].
  - rewrite Hx. lia.
  - specialize (IH Hin). destruct (f a); cbn; lia.
Qed.

Lemma filter_comm {A : Type} (f g : A -> bool) (l : list A) :
  List.filter f (List.filter g l) = List.filter g (List.filter f l).
Proof.
  induction l as [| a l IH]; [reflexivity |].
  cbn. destruct (g a) eqn:Hg, (f a) eqn:Hf; cbn; rewrite ?Hg, ?Hf; congruence.
Qed.

(** X8. Deleting from the history. Without the user's confirmation no
    request is sent and nothing changes; with it the request is
    [DELETE /scans/{id}]. When the request fails the list stays as it is;
    when it succeeds exactly the scans with that id leave the list, the
    others keep their order, the page counter stays, and the search result
    shown is the former one without those scans. *)
Theorem handleDelete_spec (confirmed : bool) (r : Reply unit) (scanId : Z)
    (st : ScanHistory.t) :
  let st' := fst (handleDelete confirmed r scanId st) in
  let request := snd (handleDelete confirmed r scanId st) in
  request = (if confirmed
             then Some ("/scans/" ++ JS.Number_toString scanId)%string
             else None) /\
  (confirmed = false \/ (forall u, r <> resolved u) -> st' = st) /\
  (confirmed = true -> (exists u, r = resolved u) ->
   (forall scan, In scan (scans st') <->
                 In scan (scans st) /\ ScanResultSummary.id scan <> scanId) /\
   scans st'
   = List.filter (fun scan => negb (ScanResultSummary.id scan =? scanId))
                 (scans st) /\
   filteredScans st'
   = List.filter (fun scan => negb (ScanResultSummary.id scan =? scanId))
                 (filteredScans st) /\
   currentPage st' = currentPage st /\
   hasMore st' = hasMore st /\
   filters st' = filters st).
Proof.
  cbv zeta. unfold handleDelete.
  destruct confirmed; cbn [negb fst snd].
  - split; [destruct r; reflexivity |]. split.
    + intros [H | H]; [discriminate |].
      destruct r as [u | s | |]; try reflexivity. now destruct (H u).
    + intros _ (u & ->). cbn [fst scans currentPage hasMore filters].
      split; [| split; [reflexivity | split; [| repeat split]]].
      * intros scan. rewrite filter_In, negb_true_iff, Z.eqb_neq. reflexivity.
      * unfold ScanHistory.filteredScans. cbn [scans searchTerm].
        apply filter_comm.
  - split; [reflexivity |]. split; [reflexivity |]. discriminate.
Qed.

(** X9. Deleting a scan does not move the page counter. After full pages
    were loaded and one of the loaded scans was deleted, the next Load
    More still skips as many scans as had been loaded before the
    deletion, which is more than the list now holds. *)
Theorem delete_then_loadMore (first : list ScanResultSummary.t)
    (more : list (list ScanResultSummary.t)) (st : ScanHistory.t)
    (scan : ScanResultSummary.t) :
  currentPage st = 0 ->
  Forall (fun page => List.length page = 10%nat) (first :: more) ->
  In scan (concat (first :: more)) ->
  let loaded := load_pages (first :: more) st in
  let st' := fst (handleDelete true (resolved tt) (ScanResultSummary.id scan)
                    loaded) in
  fetchScans_request (loadMore st')
  = ApiClient.getScans_request
      (Some (PaginationParams.mk (Z.of_nat (List.length (scans loaded))) 10))
      (Some (filters st)) /\
  (List.length (scans st') < List.length (scans loaded))%nat.
Proof.
  intros H0 Hfull Hin.
  destruct (load_pages_closed first more st H0) as (Hsc & Hcp & Hf & _ & _).
  cbv zeta. split.
  - unfold fetchScans_request, handleDelete.
    cbn [negb fst loadMore currentPage filters].
    rewrite Hsc, Hcp, Hf, (length_concat_full 10 _ Hfull).
    do 3 f_equal. unfold pageSize. cbn [List.length]. lia.
  - unfold handleDelete. cbn [negb fst scans]. rewrite Hsc.
    apply (filter_length_lt _ _ scan Hin).
    now rewrite Z.eqb_refl.
Qed.

Lemma delete_then_loadMore_witness :
  (List.length
     (scans (fst (handleDelete true (resolved tt) 1
                    (load_pages [repeat example_scan 10] example_history))))
   < 10)%nat.
Proof.
  refine (proj2 (delete_then_loadMore (repeat example_scan 10) []
                   example_history example_scan _ _ _)).
  - reflexivity.
  - repeat constructor.
  - left. reflexivity.
Defined.

(** X10. Changing a filter. The page counter returns to 0, so the request
    that follows asks for the first ten scans under the merged filters,
    and its answer replaces the list whatever was loaded. Choosing All
    Statuses removes [status_filter] from the request and keeps the two
    dates; choosing a status sends it and keeps the two dates. *)
Theorem handleFilterChange_spec (newFilters : ScanHistory.partial)
    (st : ScanHistory.t) :
  fetchScans_request (handleFilterChange newFilters st)
  = ApiClient.getScans_request (Some (PaginationParams.mk 0 10))
      (Some (spread (filters st) newFilters)) /\
  (forall scanData,
      scans (fetchScans_resolved scanData (handleFilterChange newFilters st))
      = scanData) /\
  (forall value : option ScanStatus,
      ApiClient.getScans_params (PaginationParams.mk 0 10)
        (filters (handleFilterChange (status_change value) st))
      = ([("skip", "0"); ("limit", "10")]
         ++ match value with
            | Some status => [("status_filter", ScanStatus_literal status)]
            | None => []
            end
         ++ ApiClient.when_truthy "start_date"
              (ScanFilters.start_date (filters st))
         ++ ApiClient.when_truthy "end_date"
              (ScanFilters.end_date (filters st)))%list).
Proof.
  split; [reflexivity |]. split; [reflexivity |].
  intros value. rewrite getScans_params_eq.
  cbn [handleFilterChange filters spread status_change p_status p_start_date
       p_end_date ImageFilters.override ScanFilters.status
       ScanFilters.start_date ScanFilters.end_date PaginationParams.skip
       PaginationParams.limit].
  destruct value as [[] |]; reflexivity.
Qed.

End ScanHistoryEditFacts.

Lemma handleDelete_spec_witness :
  fst (ScanHistory.handleDelete true rejected_request 1
         ScanHistory.example_history)
  = ScanHistory.example_history.
Proof.
  apply (handleDelete_spec JS.ascii_toLowerCase true rejected_request 1
           ScanHistory.example_history).
  right. discriminate.
Defined.

(** ** The export file name *)

Section ExportFacts.

Import ScanResults.

Local Abbreviation example_result :=
  (ScanResult.mk 12 "https://example.com/a?b=1" 3 2 1
     completed None (Some 1200) (667 # 10) (333 # 10)
     "2024-01-01T00:00:00Z" "2024-01-01T00:00:05Z" 1).

Example export_filename_example :
  export_offered example_result = true /\
  export_filename 12 example_result = "scan_12_https___example_com_a_b_1.csv".
Proof. split; reflexivity. Qed.

(** A character outside ASCII is replaced once, however many bytes it
    has: an accented letter (two bytes) and the euro sign (three) are one
    code unit each, an emoji (four bytes) is two. *)
Example sanitize_non_ascii :
  sanitize (String "e" (String (ascii_of_nat 195) (String (ascii_of_nat 169)
              (String "x" EmptyString)))) = "e_x" /\
  sanitize (String (ascii_of_nat 226) (String (ascii_of_nat 130)
              (String (ascii_of_nat 172) EmptyString))) = "_" /\
  sanitize (String (ascii_of_nat 240) (String (ascii_of_nat 159)
              (String (ascii_of_nat 152) (String (ascii_of_nat 128)
                 EmptyString)))) = "__".
Proof. repeat split. Qed.

Lemma sanitize_byte_clean (c : ascii) :
  JS.is_alnum c || Ascii.eqb c "_" = true ->
  sanitize_byte c = String c EmptyString.
Proof.
  unfold sanitize_byte. destruct (JS.is_alnum c) eqn:E; [reflexivity |].
  cbn [orb]. intros H. apply Ascii.eqb_eq in H. subst c. reflexivity.
Qed.

Lemma sanitize_byte_chars (c : ascii) :
  JS.all_chars (fun c => JS.is_alnum c || Ascii.eqb c "_") (sanitize_byte c)
  = true.
Proof.
  unfold sanitize_byte. destruct (JS.is_alnum c) eqn:E; [cbn; now rewrite E |].
  destruct (JS.code_units c) as [| [| n]]; reflexivity.
Qed.

Lemma length_sanitize_byte (c : ascii) :
  JS.length (sanitize_byte c) = JS.code_units c.
Proof.
  unfold sanitize_byte. destruct (JS.is_alnum c) eqn:E; [cbn; lia |].
  unfold JS.code_units.
  destruct ((nat_of_ascii c <? 128)%nat); [reflexivity |].
  destruct ((nat_of_ascii c <? 192)%nat); [reflexivity |].
  destruct ((nat_of_ascii c <? 240)%nat); reflexivity.
Qed.

Lemma length_app (a b : string) :
  JS.length (a ++ b) = (JS.length a + JS.length b)%nat.
Proof.
  induction a as [| c a IH]; [reflexivity |].
  rewrite append_cons. cbn. rewrite IH. lia.
Qed.

Lemma sanitize_chars (url : string) :
  JS.all_chars (fun c => JS.is_alnum c || Ascii.eqb c "_") (sanitize url)
  = true.
Proof.
  induction url as [| c url IH]; cbn; [reflexivity |].
  now rewrite all_chars_append, sanitize_byte_chars, IH.
Qed.

Lemma sanitize_clean (url : string) :
  JS.all_chars (fun c => JS.is_alnum c || Ascii.eqb c "_") url = true ->
  sanitize url = url.
Proof.
  induction url as [| c url IH]; cbn; [reflexivity |].
  rewrite andb_true_iff. intros [Hc Hs].
  now rewrite (sanitize_byte_clean c Hc), (IH Hs).
Qed.

Lemma sanitize_app (a b : string) :
  sanitize (a ++ b) = (sanitize a ++ sanitize b)%string.
Proof.
  induction a as [| c a IH]; [reflexivity |].
  rewrite append_cons. cbn. rewrite IH.
  generalize (sanitize_byte c) as x. intros x.
  induction x as [| d x IHx]; [reflexivity |].
  rewrite !append_cons. now rewrite IHx.
Qed.

(** X11. The name of the exported file, for a scan id that prints in
    plain decimal, is made of letters, digits, [_], [.] and [-] only,
    whatever the scan's URL is, so it holds no path separator. The URL
    enters it with every code unit that is not an ASCII letter or digit
    replaced by [_]: the replacement keeps the length of the URL, changes
    nothing when applied again, leaves a URL of letters and digits alone,
    and gives two URLs that differ in one replaced character of the same
    width the same name. *)
Theorem export_filename_spec (scanId : Z) (s : ScanResult.t) :
  (Z.abs scanId < 10 ^ 21 ->
   JS.all_chars filename_char (export_filename scanId s) = true) /\
  (forall url, sanitize (sanitize url) = sanitize url) /\
  (forall url, JS.length (sanitize url) = JS.length url) /\
  (forall url, JS.all_chars JS.is_alnum url = true -> sanitize url = url) /\
  (forall pre post c d,
      JS.is_alnum c = false -> JS.is_alnum d = false ->
      JS.code_units c = JS.code_units d ->
      sanitize (pre ++ String c post) = sanitize (pre ++ String d post)).
Proof.
  split; [| split; [| split; [| split]]].
  - intros _. unfold export_filename. rewrite !all_chars_append.
    rewrite (all_chars_weaken JS.numeral_char filename_char
               (JS.Number_toString scanId)).
    + assert (Hurl : JS.all_chars filename_char
                       (sanitize (ScanResult.url s)) = true).
      { apply (all_chars_weaken
                 (fun c => JS.is_alnum c || Ascii.eqb c "_"));
          [| apply sanitize_chars].
        intros c. unfold filename_char. rewrite !orb_true_iff. tauto. }
      now rewrite Hurl.
    + intros c. unfold JS.numeral_char, filename_char, JS.is_alnum.
      rewrite !orb_true_iff. intros [H | H]; [do 3 left; now right | now right].
    + apply Number_toString_chars.
  - intros url. apply sanitize_clean, sanitize_chars.
  - intros url. induction url as [| c url IH]; [reflexivity |].
    cbn. now rewrite length_app, length_sanitize_byte, IH.
  - intros url H. apply sanitize_clean.
    revert H. apply all_chars_weaken. intros c Hc. now rewrite Hc.
  - intros pre post c d Hc Hd Hw. rewrite !sanitize_app. f_equal.
    cbn. unfold sanitize_byte. now rewrite Hc, Hd, Hw.
Qed.

Lemma export_filename_spec_witness :
  JS.all_chars filename_char (export_filename 12 example_result) = true /\
  sanitize "example.com" = sanitize "example/com".
Proof.
  destruct (export_filename_spec 12 example_result) as (H1 & _ & _ & _ & H5).
  split.
  - apply H1. cbn. lia.
  - apply (H5 "example" "com" "."%char "/"%char); reflexivity.
Defined.

End ExportFacts.

(** ** Keyboard shortcuts *)

Section ShortcutsFacts.

Import Shortcuts.

Example new_scan_key :
  List.map key (snd (run [keydown "n" false])) = ["n"].
Proof. reflexivity. Qed.

Example go_to_dashboard_keys :
  run [keydown "g" false; keydown "d" false] = ("g", []).
Proof. reflexivity. Qed.

Lemma find_shortcut_Some (k : string) (s : Shortcut) :
  find_shortcut k = Some s -> In s shortcuts /\ key s = k.
Proof.
  unfold find_shortcut. intros H. apply find_some in H as [Hin Hk].
  split; [exact Hin | now apply String.eqb_eq].
Qed.

Lemma is_sequence_key_chars (k : string) :
  is_sequence_key k = true ->
  (k = "g" \/ k = "n" \/ k = "r" \/ k = "e" \/ k = "s") /\
  JS.all_chars sequence_char k = true.
Proof.
  unfold is_sequence_key. rewrite !orb_true_iff, !String.eqb_eq.
  intros [[[[-> | ->] | ->] | ->] | ->]; split; auto 6.
Qed.

(** The shortcut a key runs, and the pending sequence it leaves, when the
    pending sequence was made of sequence keys. *)
Lemma handleKeyDown_inv (k : string) (in_field : bool) (keySequence : string) :
  JS.all_chars sequence_char keySequence = true ->
  JS.all_chars sequence_char (fst (handleKeyDown k in_field keySequence)) = true /\
  forall s, snd (handleKeyDown k in_field keySequence) = Some s ->
            In (key s) ["n"; "r"; "?"; "Escape"] /\ category s <> navigation.
Proof.
  intros Hseq. unfold handleKeyDown.
  destruct in_field; [split; [exact Hseq | discriminate] |].
  destruct (String.eqb k "?" || String.eqb k "Escape") eqn:Hsingle.
  - split; [exact Hseq |]. cbn [snd].
    apply orb_true_iff in Hsingle as [H | H]; apply String.eqb_eq in H;
      subst k; intros s [= <-]; cbn; split; (tauto || discriminate).
  - destruct (is_sequence_key k) eqn:Hk; [| split; [exact Hseq | discriminate]].
    apply is_sequence_key_chars in Hk as [_ Hk].
    assert (Hall : JS.all_chars sequence_char (keySequence ++ k) = true)
      by now rewrite all_chars_append, Hseq, Hk.
    destruct (find_shortcut (keySequence ++ k)) as [s |] eqn:Hfind;
      cbn [fst snd]; [| split; [exact Hall | discriminate]].
    split; [reflexivity |]. intros s' [= <-].
    apply find_shortcut_Some in Hfind as [Hin Hkey]. rewrite <- Hkey in Hall.
    cbn in Hin.
    repeat (destruct Hin as [<- | Hin]; [cbn in Hall |- *; try discriminate Hall;
                                          split; (tauto || discriminate) |]).
    destruct Hin.
Qed.

Lemma run_inv (events : list Event) (st : string * list Shortcut) :
  JS.all_chars sequence_char (fst st) = true ->
  Forall (fun s => In (key s) ["n"; "r"; "?"; "Escape"]
                   /\ category s <> navigation) (snd st) ->
  let st' := fold_left (fun st e => handle e st) events st in
  JS.all_chars sequence_char (fst st') = true /\
  Forall (fun s => In (key s) ["n"; "r"; "?"; "Escape"]
                   /\ category s <> navigation) (snd st').
Proof.
  revert st. induction events as [| e events IH]; intros st Hseq Hran;
    [now split |].
  cbn [fold_left]. apply IH.
  - destruct e as [k in_field | |]; cbn [handle]; try reflexivity.
    destruct (handleKeyDown_inv k in_field (fst st) Hseq) as [H _].
    destruct (handleKeyDown k in_field (fst st)) as [seq [s |]]; exact H.
  - destruct e as [k in_field | |]; cbn [handle]; try exact Hran.
    destruct (handleKeyDown_inv k in_field (fst st) Hseq) as [_ H].
    destruct (handleKeyDown k in_field (fst st)) as [seq [s |]];
      cbn [snd] in *; [| exact Hran].
    apply Forall_app. split; [exact Hran |].
    constructor; [now apply H | constructor].
Qed.

(** X12. Whatever keys are pressed, wherever, and whenever the timer
    fires or the listener is set up again, the only shortcuts that ever
    run are [n], [r], [?] and [Escape]: the three navigation shortcuts
    [g d], [g a] and [g h] of the table never run. *)
Theorem navigation_shortcuts_never_run (events : list Event) :
  Forall (fun s => In (key s) ["n"; "r"; "?"; "Escape"]
                   /\ category s <> navigation)
         (snd (run events)).
Proof.
  unfold run. apply run_inv; [reflexivity | constructor].
Qed.

Lemma append_last_char (seq seq' : string) (c d : ascii) :
  (seq ++ String c EmptyString)%string = (seq' ++ String d EmptyString)%string ->
  seq = seq' /\ c = d.
Proof.
  revert seq'. induction seq as [| a seq IH]; intros [| b seq'];
    rewrite ?append_cons.
  - now intros [= ->].
  - intros [= _ H]. now destruct seq'.
  - intros [= _ H]. now destruct seq.
  - intros [= -> H]. apply IH in H as [-> ->]. now split.
Qed.

(** X13. The keys [n] and [r] run their shortcut exactly when no sequence
    is pending: after a [g], [e] or [s], or an [n] or [r] typed into a
    pending sequence, they only extend the sequence, until the timer
    clears it. *)
Theorem single_key_needs_empty_sequence (k : string) (keySequence : string) :
  k = "n" \/ k = "r" ->
  (keySequence = EmptyString ->
   exists s, handleKeyDown k false keySequence = (EmptyString, Some s)
             /\ key s = k) /\
  (keySequence <> EmptyString ->
   handleKeyDown k false keySequence = ((keySequence ++ k)%string, None)).
Proof.
  intros Hk. split.
  - intros ->. destruct Hk as [-> | ->]; eexists; split; reflexivity.
  - intros Hne.
    assert (Hfind : find_shortcut (keySequence ++ k) = None).
    { destruct (find_shortcut (keySequence ++ k)) as [s |] eqn:Hfind;
        [| reflexivity].
      exfalso. apply find_shortcut_Some in Hfind as [Hin Hkey].
      symmetry in Hkey. cbn in Hin.
      destruct Hk as [-> | ->];
        repeat (destruct Hin as [<- | Hin];
                [cbn [key] in Hkey;
                 first [ apply (append_last_char _ "g " _ "d") in Hkey
                       | apply (append_last_char _ "g " _ "a") in Hkey
                       | apply (append_last_char _ "g " _ "h") in Hkey
                       | apply (append_last_char _ "" _ "n") in Hkey
                       | apply (append_last_char _ "" _ "r") in Hkey
                       | apply (append_last_char _ "" _ "?") in Hkey
                       | apply (append_last_char _ "Escap" _ "e") in Hkey ];
                 destruct Hkey as [Hseq Hc];
                 first [discriminate Hc | contradiction] |]);
        destruct Hin. }
    unfold handleKeyDown. rewrite Hfind.
    destruct Hk as [-> | ->]; reflexivity.
Qed.

Lemma single_key_needs_empty_sequence_witness :
  handleKeyDown "n" false "g" = ("gn", None).
Proof.
  apply (single_key_needs_empty_sequence "n" "g");
    [left; reflexivity | discriminate].
Defined.

End ShortcutsFacts.

(** ** The route guards *)

Section RouteFacts.

Import App.

Example root_unauthenticated :
  settle 2 (AuthContext.mk None None false) path_root = (Render AuthPage, 2%nat).
Proof. reflexivity. Qed.

(** X14. Where the routes lead. While the provider is loading every
    location shows the spinner. Afterwards an unauthenticated visitor ends
    on the sign-in page from every location, and an authenticated one on
    the analytics page from [/analytics] and on the dashboard from every
    other location, the sign-in page included; at most two redirects are
    followed, and following more changes nothing. A protected page is
    therefore rendered only to an authenticated user. *)
Theorem routes_settle (auth : AuthContext.t) (path : Path) (fuel : nat) :
  settle (2 + fuel) auth path = settle 2 auth path /\
  (snd (settle 2 auth path) <= 2)%nat /\
  (AuthContext.isLoading auth = true ->
   fst (settle 2 auth path) = LoadingSpinner) /\
  (AuthContext.isLoading auth = false ->
   AuthContext.isAuthenticated auth = false ->
   fst (settle 2 auth path) = Render AuthPage) /\
  (AuthContext.isLoading auth = false ->
   AuthContext.isAuthenticated auth = true ->
   fst (settle 2 auth path)
   = Render match path with
            | path_analytics => AnalyticsDashboard
            | _ => Dashboard
            end) /\
  (forall page, fst (settle 2 auth path) = Render page ->
                page <> AuthPage -> AuthContext.isAuthenticated auth = true).
Proof.
  destruct fuel as [| fuel];
    cbn [Nat.add settle]; unfold AppRoutes, ProtectedRoute, PublicRoute;
    destruct (AuthContext.isLoading auth), (AuthContext.isAuthenticated auth),
             path;
    cbn; repeat split; intros; try congruence; try lia.
Qed.

Lemma routes_settle_witness :
  fst (settle 2 (AuthContext.mk None (Some "tok") false) path_analytics)
  = Render AuthPage.
Proof.
  refine (proj1 (proj2 (proj2 (proj2
            (routes_settle (AuthContext.mk None (Some "tok") false)
               path_analytics 0)))) _ _);
    reflexivity.
Defined.

End RouteFacts.

(** ** The sign-in and registration forms *)

Section AuthFormFacts.

Import AuthForms.

Variable zod_email : string -> bool.

(** Seven characters, one of them outside ASCII: eight bytes, but of
    length 7, and so too short for a password. *)
Example password_length_in_code_units :
  let password :=
    ("Passw0" ++ String (ascii_of_nat 195) (String (ascii_of_nat 169)
                                              EmptyString))%string in
  String.length password = 8%nat /\ JS.length password = 7%nat /\
  password_ok password = false.
Proof. repeat split. Qed.

Lemma min_le (n : nat) (s : string) :
  min n s = true <-> (n <= JS.length s)%nat.
Proof. unfold min. apply Nat.leb_le. Qed.

Lemma regex_alnum_spec (s : string) :
  regex_alnum s = true <-> s <> EmptyString /\ JS.all_chars JS.is_alnum s = true.
Proof.
  unfold regex_alnum. rewrite andb_true_iff, truthy_string_nonempty.
  reflexivity.
Qed.

(** X15. What the registration form accepts: an e-mail address that is
    not empty (of length at least 1) and passes zod's check, a user name
    of 3 to 100 letters and digits (100 included), a password of length at
    least 8, counted in
    UTF-16 code units as [length] does, with an upper-case letter, a
    lower-case letter and a digit, and a confirmation equal to the
    password; the non-emptiness checks on the user name, the password and
    the confirmation add nothing. Whatever it accepts, the e-mail and
    password also pass the sign-in form. *)
Theorem registerSchema_spec (data : RegisterForm.t) :
  (registerSchema_accepts zod_email data = true <->
   (1 <= JS.length (RegisterForm.email data))%nat /\
   zod_email (RegisterForm.email data) = true /\
   (3 <= JS.length (RegisterForm.username data) <= 100)%nat /\
   JS.all_chars JS.is_alnum (RegisterForm.username data) = true /\
   (8 <= JS.length (RegisterForm.password data))%nat /\
   JS.some_char JS.is_upper (RegisterForm.password data) = true /\
   JS.some_char JS.is_lower (RegisterForm.password data) = true /\
   JS.some_char JS.is_digit (RegisterForm.password data) = true /\
   RegisterForm.confirmPassword data = RegisterForm.password data) /\
  (registerSchema_accepts zod_email data = true ->
   loginSchema_accepts zod_email
     (LoginForm.mk (RegisterForm.email data) (RegisterForm.password data))
   = true).
Proof.
  destruct data as [email username password confirm].
  cbn [RegisterForm.email RegisterForm.username RegisterForm.password
       RegisterForm.confirmPassword].
  split.
  - unfold registerSchema_accepts, email_ok, username_ok, password_ok,
      regex_upper, regex_lower, regex_digit.
    cbn [RegisterForm.email RegisterForm.username RegisterForm.password
         RegisterForm.confirmPassword].
    rewrite !andb_true_iff, String.eqb_eq, regex_alnum_spec, !min_le.
    unfold max. rewrite Nat.leb_le.
    split; intros H;
      repeat match goal with H : _ /\ _ |- _ => destruct H end;
      subst; repeat split; auto; try lia.
    intros ->. cbn in *. lia.
  - unfold registerSchema_accepts, loginSchema_accepts, password_ok.
    cbn [LoginForm.email LoginForm.password RegisterForm.email
         RegisterForm.password].
    rewrite !andb_true_iff. tauto.
Qed.

End AuthFormFacts.

Lemma registerSchema_spec_witness :
  AuthForms.loginSchema_accepts (fun _ => true)
    (LoginForm.mk "ada@example.com" "Passw0rd")
  = true.
Proof.
  apply (registerSchema_spec (fun _ => true)
           (RegisterForm.mk "ada@example.com" "ada" "Passw0rd" "Passw0rd")).
  reflexivity.
Defined.

(** ** The authentication provider *)

Section AuthContextFacts.

Import AuthContext.

Local Abbreviation ada :=
  (User.mk 1 "ada@example.com" "ada" true true
     "2024-01-01T00:00:00Z" "2024-01-01T00:00:00Z").

Example initializeAuth_restores :
  isAuthenticated (ctx (initializeAuth (resolved ada) (mount (Some "tok"))))
  = true.
Proof. reflexivity. Qed.

Lemma truthy_opt_string_spec (x : option string) :
  JS.truthy_opt_string x = true <->
  exists tok, x = Some tok /\ tok <> EmptyString.
Proof.
  destruct x as [[| c tok] |]; cbn; split;
    try discriminate; try (intros (t & [=] & H)); try congruence.
  - intros (t & [= <-] & H). congruence.
  - intros _. eexists. split; [reflexivity | discriminate].
Qed.

Lemma constructor_access_token (stored : option string) :
  ApiClient.access_token (ApiClient.constructor stored) = stored.
Proof. destruct stored as [[| c tok] |]; reflexivity. Qed.

(** X16. Start-up. The provider ends loading, and it is authenticated
    exactly when [localStorage] held a non-empty token and
    [getCurrentUser] succeeded. When a token was stored and the call
    failed, the stored token is removed; the API client forgets its own
    copy and the Authorization header only if the failure was a 401: after
    any other failure its requests still carry the old token. Without a
    stored token nothing is requested and the client is left as built. *)
Theorem initializeAuth_spec (stored : option string) (me : Reply User.t) :
  let w := initializeAuth me (mount stored) in
  isLoading (ctx w) = false /\
  (isAuthenticated (ctx w) = true <->
   (exists tok, stored = Some tok /\ tok <> EmptyString) /\
   (exists userData, me = resolved userData)) /\
  (forall tok, stored = Some tok -> tok <> EmptyString ->
               (forall userData, me <> resolved userData) ->
     ApiClient.access_token (api w) = None /\
     isAuthenticated (ctx w) = false /\
     (me = rejected_response 401 ->
      ApiClient.request_Authorization (api w) = None) /\
     (me <> rejected_response 401 ->
      ApiClient.request_Authorization (api w)
      = Some ("Bearer " ++ tok)%string /\
      ApiClient.isAuthenticated (api w) = true)) /\
  (JS.truthy_opt_string stored = false ->
   api w = ApiClient.constructor stored /\ isAuthenticated (ctx w) = false).
Proof.
  cbv zeta. unfold initializeAuth, mount. cbn [api ctx].
  rewrite constructor_access_token.
  destruct stored as [[| c tok] |]; cbn [JS.truthy_opt_string JS.truthy_string].
  - repeat split; try discriminate; try congruence.
    + intros ((t & [= <-] & H) & _). congruence.
  - destruct me as [userData | status | |]; cbn [ctx api isLoading];
      (split; [reflexivity |]); (split; [| split]);
      try discriminate;
      try (split; [discriminate | intros (_ & (u & [=]))]).
    + split; [intros _ | reflexivity].
      split; eexists; [split; [reflexivity | discriminate] | reflexivity].
    + intros t _ _ H. now destruct (H userData).
    + intros t [= <-] _ _. cbn [ApiClient.handleError].
      destruct (Z.eqb_spec status 401) as [-> | Hs]; cbn;
        repeat split; try reflexivity; try congruence.
    + intros t [= <-] _ _. cbn. repeat split; try reflexivity; discriminate.
    + intros t [= <-] _ _. cbn. repeat split; try reflexivity; discriminate.
  - repeat split; try discriminate.
    intros ((t & [=] & _) & _).
Qed.

Lemma initializeAuth_spec_witness :
  ApiClient.access_token
    (api (initializeAuth (rejected_response 500) (mount (Some "tok")))) = None /\
  ApiClient.isAuthenticated
    (api (initializeAuth (rejected_response 500) (mount (Some "tok")))) = true.
Proof.
  destruct (initializeAuth_spec (Some "tok") (rejected_response 500))
    as (_ & _ & H & _).
  destruct (H "tok") as (H1 & _ & _ & H2);
    [reflexivity | discriminate | discriminate |].
  split; [exact H1 |]. apply H2. discriminate.
Defined.

(** X17. Signing in. [login] returns normally exactly when both the
    login call and [getCurrentUser] succeed, and then the provider holds
    the user and the very token the API client stored. When the login
    call succeeds and [getCurrentUser] fails other than with a 401,
    [login] throws and a provider without a user stays unauthenticated,
    yet the token is in [localStorage]: loading the page again signs the
    user in as soon as [getCurrentUser] succeeds. When the login call
    itself fails, the provider keeps its user and token. *)
Theorem login_spec (r : Reply Token.t) (me : Reply User.t) (w : world) :
  let w' := fst (login r me w) in
  let threw := snd (login r me w) in
  isLoading (ctx w') = false /\
  (threw = false <->
   (exists tokenData, r = resolved tokenData) /\
   (exists userData, me = resolved userData)) /\
  (forall tokenData userData,
      r = resolved tokenData -> me = resolved userData ->
      user (ctx w') = Some userData /\
      token (ctx w') = Some (Token.access_token tokenData) /\
      ApiClient.getToken (api w') = token (ctx w') /\
      ApiClient.access_token (api w') = token (ctx w')) /\
  (forall tokenData,
      r = resolved tokenData ->
      (forall userData, me <> resolved userData) ->
      me <> rejected_response 401 ->
      user (ctx w) = None ->
      Token.access_token tokenData <> EmptyString ->
      isAuthenticated (ctx w') = false /\
      ApiClient.access_token (api w') = Some (Token.access_token tokenData) /\
      forall userData,
        isAuthenticated
          (ctx (initializeAuth (resolved userData)
                  (mount (ApiClient.access_token (api w')))))
        = true) /\
  ((forall tokenData, r <> resolved tokenData) ->
   user (ctx w') = user (ctx w) /\ token (ctx w') = token (ctx w)).
Proof.
  assert (Hreload : forall tok userData,
             tok <> EmptyString ->
             isAuthenticated
               (ctx (initializeAuth (resolved userData) (mount (Some tok))))
             = true).
  { intros tok userData Hne. apply truthy_string_nonempty in Hne.
    unfold initializeAuth, mount. cbn [api ctx].
    rewrite constructor_access_token. cbn. now rewrite Hne. }
  cbv zeta. unfold login.
  destruct r as [tokenData | status | |]; cbn [ApiClient.login].
  - assert (Hstored : forall c,
               ApiClient.access_token
                 (ApiClient.handleError me
                    (ApiClient.setAuthToken (Token.access_token tokenData) c))
               = Some (Token.access_token tokenData)
               \/ me = rejected_response 401).
    { intros c. destruct me as [userData | status | |]; cbn; auto.
      destruct (Z.eqb_spec status 401) as [-> | _]; auto. }
    destruct me as [userData | status | |]; cbn [fst snd ctx api isLoading];
      (split; [reflexivity |]);
      (split; [| split; [| split]]);
      try solve [split; [discriminate | intros [_ (u & H)]; discriminate H]];
      try solve [intros tk ud _ H; discriminate H];
      try solve [intros H; now destruct (H tokenData)];
      try solve [intros tk [= <-] _ H401 Hu Hne;
                 destruct (Hstored (api w)) as [Hs | Hs]; [| contradiction];
                 cbn [ApiClient.handleError] in Hs |- *;
                 unfold isAuthenticated at 1; cbn [user token]; rewrite Hu;
                 split; [reflexivity |]; rewrite Hs;
                 split; [reflexivity |]; intros ud; now apply Hreload].
    + split; [intros _; split; eexists; reflexivity | reflexivity].
    + intros tk ud [= <-] [= <-]. repeat split.
    + intros tk _ H. now destruct (H userData).
  - repeat split; try discriminate.
    + intros [(tk & H) _]. discriminate H.
  - repeat split; try discriminate.
    + intros [(tk & H) _]. discriminate H.
  - repeat split; try discriminate.
    + intros [(tk & H) _]. discriminate H.
Qed.

Lemma login_spec_witness :
  isAuthenticated
    (ctx (fst (login (resolved (Token.mk "tok" "bearer" 1800))
                 rejected_request (mount None)))) = false /\
  isAuthenticated
    (ctx (initializeAuth (resolved ada)
            (mount (ApiClient.access_token
                      (api (fst (login (resolved (Token.mk "tok" "bearer" 1800))
                                   rejected_request (mount None))))))))
  = true.
Proof.
  destruct (login_spec (resolved (Token.mk "tok" "bearer" 1800))
              rejected_request (mount None)) as (_ & _ & _ & H & _).
  destruct (H (Token.mk "tok" "bearer" 1800)) as (H1 & _ & H2);
    [reflexivity | discriminate | discriminate | reflexivity | discriminate |].
  split; [exact H1 | apply H2].
Defined.

(** X18. Signing out leaves neither the provider nor the API client
    authenticated, no Authorization header on later requests and no token
    in [localStorage]; loading the page again stays signed out whatever
    the server answers. *)
Theorem logout_spec (w : world) (me : Reply User.t) :
  let w' := logout w in
  isAuthenticated (ctx w') = false /\
  ApiClient.isAuthenticated (api w') = false /\
  ApiClient.request_Authorization (api w') = None /\
  ApiClient.access_token (api w') = None /\
  isAuthenticated
    (ctx (initializeAuth me (mount (ApiClient.access_token (api w')))))
  = false.
Proof. repeat split. Qed.

(** X19. A 401 during [updateUser] or [register] clears the API client
    and leaves the provider as it was: a signed-in user keeps seeing the
    protected pages while the requests carry no token any more. *)
Theorem expired_session (w : world) :
  let w1 := fst (updateUser (rejected_response 401) w) in
  let w2 := fst (register (rejected_response 401) w) in
  isAuthenticated (ctx w1) = isAuthenticated (ctx w) /\
  isAuthenticated (ctx w2) = isAuthenticated (ctx w) /\
  ApiClient.isAuthenticated (api w1) = false /\
  ApiClient.isAuthenticated (api w2) = false /\
  ApiClient.request_Authorization (api w1) = None /\
  ApiClient.request_Authorization (api w2) = None /\
  (isAuthenticated (ctx w) = true ->
   App.AppRoutes (ctx w1) App.path_dashboard = App.Render App.Dashboard /\
   App.AppRoutes (ctx w2) App.path_dashboard = App.Render App.Dashboard).
Proof.
  cbv zeta. unfold App.AppRoutes, App.ProtectedRoute, isAuthenticated.
  cbn. do 6 (split; [reflexivity |]). intros H. now rewrite H.
Qed.

Lemma expired_session_witness :
  App.AppRoutes
    (ctx (fst (updateUser (rejected_response 401)
                 (initializeAuth (resolved ada) (mount (Some "tok"))))))
    App.path_dashboard
  = App.Render App.Dashboard.
Proof.
  apply (expired_session (initializeAuth (resolved ada) (mount (Some "tok")))).
  reflexivity.
Defined.

End AuthContextFacts.

(** ** The API client across a page load *)

Section ReloadFacts.

Import ApiClient.

(** The client's own operations keep its token equal to the stored one. *)
Lemma token_stored_run (ops : list op) (c : t) :
  token c = access_token c ->
  token (run ops c) = access_token (run ops c).
Proof.
  unfold run. revert c. induction ops as [| o ops IH]; intros c Hc;
    [exact Hc |].
  cbn [fold_left]. apply IH.
  destruct o as [tok | | [tok | status | |] | [tok | status | |] | | status];
    cbn; try reflexivity; try exact Hc;
    destruct (status =? 401); cbn; auto.
Qed.

Lemma constructor_fixed (c : t) :
  agree c -> token c = access_token c -> constructor (access_token c) = c.
Proof.
  unfold agree, constructor. destruct c as [tok auth stored]. cbn.
  intros H <-. destruct tok as [tok |].
  - destruct (JS.truthy_string tok) eqn:E.
    + destruct H as [-> _]. reflexivity.
    + now rewrite H.
  - destruct H as [-> _]. reflexivity.
Qed.

(** X20. Loading the page again rebuilds the API client as it was: after
    any sequence of its own operations that installs no empty token, a
    client constructed from what is then in [localStorage] has the same
    token, the same Authorization header and the same stored token. *)
Theorem reload_round_trip (stored : option string) (ops : list op) :
  Forall (fun o => installs o <> Some EmptyString) ops ->
  constructor (access_token (run ops (constructor stored)))
  = run ops (constructor stored).
Proof.
  intros Hops. apply constructor_fixed.
  - apply agree_run; [exact Hops | apply agree_constructor].
  - apply token_stored_run. destruct stored as [[| c tok] |]; reflexivity.
Qed.

Lemma reload_round_trip_witness :
  constructor
    (access_token
       (run [op_login (resolved (Token.mk "tok-1" "bearer" 1800));
             op_failed_request 500]
            (constructor None)))
  = run [op_login (resolved (Token.mk "tok-1" "bearer" 1800));
         op_failed_request 500]
        (constructor None).
Proof.
  apply (reload_round_trip None
           [op_login (resolved (Token.mk "tok-1" "bearer" 1800));
            op_failed_request 500]).
  repeat (constructor; [simpl; discriminate |]). constructor.
Defined.

End ReloadFacts.

(** ** The scan chart: score bands *)

Section ScoreFacts.

Import ScanChartModal.

Lemma ge_spec (x : Q) (k : Z) : ge x k = true <-> (inject_Z k <= x)%Q.
Proof. unfold ge. apply Qle_bool_iff. Qed.

Lemma ge_false (x : Q) (k : Z) : ge x k = false <-> (x < inject_Z k)%Q.
Proof.
  rewrite <- not_true_iff_false, ge_spec. split.
  - apply Qnot_le_lt.
  - apply Qlt_not_le.
Qed.

(** X21. The three places that show the score agree on its band: from 80
    per cent on, 80 included, the text and the bar are green and the
    verdict is Excellent; from 60, 60 included, up to 80 they are amber
    and the verdict is Good; below 60 they are red and the verdict is
    Needs improvement. A scan with a higher coverage never gets a worse
    verdict. *)
Theorem score_bands (scan : ScanResultSummary.t) :
  let p := ScanResultSummary.alt_text_coverage_percentage scan in
  ((80 <= p)%Q ->
   score_text_class scan = "text-success-600" /\
   score_bar_class scan = "bg-success-500" /\
   score_verdict scan = "Excellent accessibility") /\
  ((60 <= p)%Q -> (p < 80)%Q ->
   score_text_class scan = "text-warning-600" /\
   score_bar_class scan = "bg-warning-500" /\
   score_verdict scan = "Good accessibility") /\
  ((p < 60)%Q ->
   score_text_class scan = "text-error-600" /\
   score_bar_class scan = "bg-error-500" /\
   score_verdict scan = "Needs improvement") /\
  (forall scan' : ScanResultSummary.t,
      (p <= ScanResultSummary.alt_text_coverage_percentage scan')%Q ->
      (verdict_rank (score_verdict scan)
       <= verdict_rank (score_verdict scan'))%nat).
Proof.
  cbv zeta. unfold score_text_class, score_bar_class, score_verdict.
  set (p := ScanResultSummary.alt_text_coverage_percentage scan).
  split; [| split; [| split]].
  - intros H. apply (ge_spec p 80) in H. now rewrite H.
  - intros H60 H80. apply (ge_spec p 60) in H60. apply (ge_false p 80) in H80.
    now rewrite H80, H60.
  - intros H60.
    assert (H80 : (p < inject_Z 80)%Q).
    { eapply Qlt_trans; [exact H60 | reflexivity]. }
    apply (ge_false p 60) in H60. apply (ge_false p 80) in H80.
    now rewrite H80, H60.
  - intros scan'. set (p' := ScanResultSummary.alt_text_coverage_percentage scan').
    intros Hle.
    destruct (ge p 80) eqn:E80.
    + apply ge_spec in E80.
      assert (H : ge p' 80 = true)
        by (apply ge_spec; eapply Qle_trans; eassumption).
      rewrite H. cbn. lia.
    + destruct (ge p 60) eqn:E60.
      * apply ge_spec in E60.
        assert (H : ge p' 60 = true)
          by (apply ge_spec; eapply Qle_trans; eassumption).
        rewrite H. destruct (ge p' 80); cbn; lia.
      * cbn. lia.
Qed.

Lemma score_bands_witness :
  score_verdict
    (ScanResultSummary.mk 1 "https://example.com/" 5 4 1 completed 80
       "2024-01-01T00:00:00Z")
  = "Excellent accessibility".
Proof.
  apply (score_bands
           (ScanResultSummary.mk 1 "https://example.com/" 5 4 1 completed 80
              "2024-01-01T00:00:00Z")).
  unfold Qle. simpl. lia.
Defined.

End ScoreFacts.

(** ** Submitting the URL form *)

Section SubmitFacts.

Import UrlInput UrlInputForm.

Lemma safeParse_success (zod_url : string -> bool) (url data : string) :
  urlSchema_safeParse zod_url url = success data <->
  data = url /\ min1 url = true /\ zod_url url = true /\ refinement url = true.
Proof.
  unfold urlSchema_safeParse, urlSchema_issues.
  destruct (min1 url), (zod_url url), (refinement url); cbn;
    split; try discriminate; try (intros (_ & ? & ? & ?); discriminate).
  - intros [= <-]. auto.
  - intros (-> & _). reflexivity.
Qed.

(** X22. Submitting the form. A scan is requested only for the text in
    the input, and only when that text passes zod's URL check and begins
    with [http://] or [https://]; otherwise nothing is sent, the parent is
    not notified and the component stays as it is. When a scan is
    requested the parent is told it started; when the request succeeds
    the parent gets the new scan's id, the status becomes [completed] and
    the input is cleared; when it fails the status becomes [error] and the
    input keeps its text. *)
Theorem handleSubmit_spec (zod_url : string -> bool) (r : Reply ScanResult.t)
    (st : UrlInputForm.t) :
  let st' := fst (handleSubmit zod_url r st) in
  let eff := snd (handleSubmit zod_url r st) in
  (forall data, posted eff = Some data ->
     data = url st /\ zod_url data = true /\
     exists rest, data = ("http://" ++ rest)%string \/
                  data = ("https://" ++ rest)%string) /\
  (posted eff = None ->
   st' = st /\ started eff = false /\ reported eff = None) /\
  (posted eff <> None ->
   started eff = true /\ isScanning st' = false /\
   (forall scan, r = resolved scan ->
      reported eff = Some (ScanResult.id scan) /\
      scanStatus st' = completed /\ url st' = EmptyString) /\
   ((forall scan, r <> resolved scan) ->
      reported eff = None /\ scanStatus st' = error /\ url st' = url st)) /\
  (zod_url (url st) = true -> refinement (url st) = true ->
   posted eff = Some (url st)).
Proof.
  cbv zeta. unfold handleSubmit.
  destruct (urlSchema_safeParse zod_url (url st)) as [data | issues] eqn:E.
  - apply safeParse_success in E as (-> & Hmin & Hzod & Href).
    unfold onSubmit, ApiClient.createScan_body.
    destruct r as [scan | status | |]; cbn [fst snd posted started reported
                                            isScanning scanStatus url];
      (split; [intros data [= <-]; split; [reflexivity |];
               split; [exact Hzod | now apply refinement_prefix] |]);
      (split; [discriminate |]);
      (split; [| reflexivity]);
      intros _; (split; [reflexivity |]); (split; [reflexivity |]);
      split; try discriminate; try (intros s [= <-]; now repeat split);
      try (intros; now repeat split).
    intros H. now destruct (H scan).
  - cbn [fst snd posted started reported].
    split; [discriminate |]. split; [now repeat split |].
    split; [congruence |].
    intros Hzod Href. exfalso.
    assert (Hmin : min1 (url st) = true).
    { apply refinement_prefix in Href as (rest & [-> | ->]); reflexivity. }
    assert (H : urlSchema_safeParse zod_url (url st) = success (url st))
      by (apply safeParse_success; auto).
    congruence.
Qed.

Lemma handleSubmit_spec_witness :
  posted (snd (handleSubmit (fun _ => true) rejected_request
                 (UrlInputForm.mk false idle "https://example.com")))
  = Some "https://example.com".
Proof.
  apply (handleSubmit_spec (fun _ => true) rejected_request
           (UrlInputForm.mk false idle "https://example.com"));
    reflexivity.
Defined.

End SubmitFacts.

(** ** The week label of the charts *)

Section ChartFacts.

Import Charts.

Example week_label : formatXAxisLabel_week "2024-07" = "Week 07".
Proof. reflexivity. Qed.

Lemma split_no_sep (sep : ascii) (s : string) :
  JS.some_char (Ascii.eqb sep) s = false -> JS.split sep s = [s].
Proof.
  induction s as [| a s IH]; cbn; [reflexivity |].
  rewrite orb_false_iff, Ascii.eqb_sym. intros [Ha Hs].
  now rewrite Ha, (IH Hs).
Qed.

Lemma split_app (sep : ascii) (a b : string) :
  JS.some_char (Ascii.eqb sep) a = false ->
  JS.split sep (a ++ String sep b) = a :: JS.split sep b.
Proof.
  induction a as [| c a IH]; cbn.
  - intros _. change (EmptyString ++ String sep b)%string with (String sep b).
    cbn. now rewrite Ascii.eqb_refl.
  - rewrite orb_false_iff, Ascii.eqb_sym. intros [Hc Ha].
    rewrite append_cons. cbn. now rewrite Hc, (IH Ha).
Qed.

(** X23. The week label shows what stands between the first and the
    second hyphen of the period, or after the first hyphen when there is
    no second one; for a period without a hyphen it reads
    [Week undefined]. *)
Theorem formatXAxisLabel_week_spec (year week : string) :
  JS.some_char (Ascii.eqb "-") year = false ->
  JS.some_char (Ascii.eqb "-") week = false ->
  formatXAxisLabel_week (year ++ "-" ++ week) = ("Week " ++ week)%string /\
  (forall rest,
      formatXAxisLabel_week (year ++ "-" ++ week ++ "-" ++ rest)
      = ("Week " ++ week)%string) /\
  formatXAxisLabel_week year = "Week undefined".
Proof.
  intros Hy Hw. unfold formatXAxisLabel_week.
  split; [| split].
  - change ("-" ++ week)%string with (String "-" week).
    now rewrite (split_app _ _ _ Hy), (split_no_sep _ _ Hw).
  - intros rest.
    change ("-" ++ week ++ "-" ++ rest)%string
      with (String "-" (week ++ String "-" rest)).
    now rewrite (split_app _ _ _ Hy), (split_app _ _ _ Hw).
  - now rewrite (split_no_sep _ _ Hy).
Qed.

Lemma formatXAxisLabel_week_spec_witness :
  formatXAxisLabel_week "2024-W07" = "Week W07".
Proof.
  apply (formatXAxisLabel_week_spec "2024" "W07"); reflexivity.
Defined.

End ChartFacts.

(** ** The analytics hook *)

Section AnalyticsFacts.

Import UseAnalytics.

Local Abbreviation messages :=
  ["Failed to load analytics summary"; "Failed to load coverage trends";
   "Failed to load top issues"].

Lemma settle_all (settled : list Settled) (st : UseAnalytics.t) :
  let st' := fold_left (fun st s => settle s st) settled st in
  isLoading st' = isLoading st /\
  (error st' = None <->
   error st = None /\ forallb is_resolved settled = true) /\
  (forall m, error st' = Some m -> error st = Some m \/ In m messages) /\
  (forallb (fun s => negb (is_summary s && is_resolved s)) settled = true ->
   summary st' = summary st).
Proof.
  revert st. induction settled as [| s settled IH]; intros st.
  - cbn. repeat split; auto. now intros [H _].
  - cbn [fold_left forallb]. destruct (IH (settle s st)) as (Hl & He & Hm & Hs).
    cbv zeta. rewrite Hl, He. rewrite !andb_true_iff.
    split; [| split; [| split]].
    + destruct s as [[] | [] | []]; reflexivity.
    + destruct s as [[] | [] | []]; cbn; intuition discriminate.
    + intros m H. apply Hm in H as [H | H]; [| now right].
      destruct s as [[] | [] | []]; cbn in H; auto;
        injection H as <-; right; cbn; auto.
    + intros [H1 H2]. rewrite (Hs H2).
      destruct s as [[] | [] | []]; cbn in H1 |- *; (reflexivity || discriminate).
Qed.

(** X24. [fetchAll], in whatever order its requests settle. It ends with
    [isLoading] false; the error is cleared exactly when every request
    succeeded; otherwise it is the message of one of the three requests,
    never [Failed to load analytics data]; and as long as no summary
    request succeeds the summary shown stays the earlier one. *)
Theorem fetchAll_spec (settled : list Settled) (st : UseAnalytics.t) :
  let st' := fetchAll settled st in
  isLoading st' = false /\
  (error st' = None <-> forallb is_resolved settled = true) /\
  (forall m, error st' = Some m -> In m messages) /\
  error st' <> Some "Failed to load analytics data" /\
  (forallb (fun s => negb (is_summary s && is_resolved s)) settled = true ->
   summary st' = summary st).
Proof.
  cbv zeta. unfold fetchAll.
  destruct (settle_all settled (setError None (setIsLoading true st)))
    as (_ & He & Hm & Hs).
  cbn [setIsLoading isLoading error summary] in *.
  assert (Hin : forall m,
             error (fold_left (fun st s => settle s st) settled
                      (setError None (setIsLoading true st))) = Some m ->
             In m messages).
  { intros m H. apply Hm in H as [H | H]; [discriminate H | exact H]. }
  split; [reflexivity |]. split; [| split; [exact Hin | split; [| exact Hs]]].
  - rewrite He. cbn. intuition.
  - intros H. apply Hin in H. cbn in H.
    repeat (destruct H as [H | H]; [discriminate H |]). exact H.
Qed.

Lemma fetchAll_spec_witness :
  summary
    (fetchAll [trends_settled (resolved []); summary_settled rejected_request;
               topIssues_settled (resolved [])]
       (UseAnalytics.mk None [] [] true None))
  = None.
Proof.
  apply (fetchAll_spec
           [trends_settled (resolved []); summary_settled rejected_request;
            topIssues_settled (resolved [])]
           (UseAnalytics.mk None [] [] true None)).
  reflexivity.
Defined.

End AnalyticsFacts.

(** ** The scan history: a page that fails to load *)

Section FailedPageFacts.

Import ScanHistory.

(** X25. A Load More that fails leaves the list as it is but has already
    moved the page counter: after full pages, the next Load More asks for
    the page after the one that failed, ten scans beyond the end of the
    list, and its answer is appended directly to the list. *)
Theorem failed_page_is_skipped (first : list ScanResultSummary.t)
    (more : list (list ScanResultSummary.t)) (st : ScanHistory.t)
    (page : list ScanResultSummary.t) :
  currentPage st = 0 ->
  Forall (fun page => List.length page = 10%nat) (first :: more) ->
  let loaded := load_pages (first :: more) st in
  let failed := fetchScans_rejected (loadMore loaded) in
  let retried := loadMore failed in
  hasMore loaded = true /\
  scans failed = scans loaded /\
  hasMore failed = true /\
  fetchScans_request retried
  = ApiClient.getScans_request
      (Some (PaginationParams.mk (Z.of_nat (List.length (scans loaded)) + 10) 10))
      (Some (filters st)) /\
  scans (fetchScans_resolved page retried) = (scans loaded ++ page)%list.
Proof.
  intros H0 Hfull.
  destruct (load_pages_closed first more st H0) as (Hsc & Hcp & Hf & _ & Hmore).
  cbv zeta.
  assert (Hlast : hasMore (load_pages (first :: more) st) = true).
  { rewrite Hmore. apply Z.eqb_eq.
    assert (Hin : In (List.last (first :: more) []) (first :: more))
      by (destruct (exists_last (l := first :: more)) as (l' & a & E);
          [discriminate | rewrite E, last_last; apply in_or_app; right; now left]).
    pose proof (proj1 (List.Forall_forall _ _) Hfull) as Hall.
    now rewrite (Hall _ Hin). }
  split; [exact Hlast |]. split; [reflexivity |]. split; [exact Hlast |].
  split.
  - unfold fetchScans_request.
    cbn [loadMore fetchScans_rejected currentPage filters].
    rewrite Hsc, Hcp, Hf, (length_concat_full 10 _ Hfull).
    do 3 f_equal. unfold pageSize. cbn [List.length]. lia.
  - cbn [fetchScans_resolved loadMore fetchScans_rejected currentPage scans].
    rewrite Hcp.
    destruct (Z.eqb_spec (Z.of_nat (List.length more) + 1 + 1) 0); [lia |].
    reflexivity.
Qed.

Lemma failed_page_is_skipped_witness :
  fetchScans_request
    (loadMore
       (fetchScans_rejected
          (loadMore (load_pages [repeat example_scan 10] example_history))))
  = "/scans/?skip=20&limit=10".
Proof.
  refine (proj1 (proj2 (proj2 (proj2
            (failed_page_is_skipped (repeat example_scan 10) []
               example_history [] _ _))))).
  - reflexivity.
  - repeat constructor.
Defined.

End FailedPageFacts.
